(** * nakama-dl: the chapter-ingestion pipeline of [main.py]

    A shallow embedding of [main.py] and the properties of its ledger,
    link resolver, archive fetcher, document assembler and pipeline
    coordinator.

    Conventions of the embedding.
    - A Python [str] is a [string]; each [ascii] stands for one code point
      below 256, so the character classes below are Python's classes
      restricted to Latin-1.
    - [os.path] is [posixpath] (separator [/]).
    - Everything outside the process (the web, the storage provider, the
      file system, the codecs) answers through a [World] record; what the
      program does to the outside is recorded, in order, in a trace of
      [event]s.  A Python exception is the [Raise] outcome of the monad.

    What is left out.
    - [load_config] and the module-level reading of the configuration (the
      values are the fields of [Config]).
    - The limit of [int] on the number of digits; the components [..] of a
      path; the state of a file after a write that raised (in
      [download_file] such a write is taken to write nothing).
    - Time stamps of files are integers, where [os.path.getmtime] gives a
      float; only their order is used.
    - [while True] in [watch_rss_feed] is run for a given number of
      turns. *)

From Stdlib Require Import ZArith NArith Ascii List Bool Lia.
From Stdlib Require String.
From Stdlib Require Import Sorting.Sorted Sorting.Permutation.
From Stdlib Require Import DecimalString.
From Stdlib Require DecimalPos DecimalN.
From Stdlib Require OrderedTypeEx.
From stdpp Require Import base gmap sets strings.

Local Open Scope Z_scope.

#[local] Arguments String.append : simpl nomatch.

(* ===================================================================== *)
(** * Python strings *)
(* ===================================================================== *)

Module PyStr.

Definition code (c : ascii) : N := N_of_ascii c.

(** [str.isspace] on one code point below 256. *)
Definition is_space (c : ascii) : bool :=
  let n := code c in
  ((9 <=? n) && (n <=? 13) || (28 <=? n) && (n <=? 32)
   || (n =? 133) || (n =? 160))%N.

(** The decimal digits [0-9]: what [int] and the pattern [\d] accept. *)
Definition is_decimal (c : ascii) : bool :=
  let n := code c in ((48 <=? n) && (n <=? 57))%N.

(** [str.isdigit] on one code point: the decimal digits and the
    superscripts 2, 3 and 1. *)
Definition is_digit_char (c : ascii) : bool :=
  let n := code c in
  (is_decimal c || (n =? 178) || (n =? 179) || (n =? 185))%N.

Definition digit_value (c : ascii) : Z := Z.of_N (code c) - 48.

Definition lower_char (c : ascii) : ascii :=
  let n := code c in
  if ((65 <=? n) && (n <=? 90)
      || (192 <=? n) && (n <=? 222) && negb (n =? 215))%N
  then ascii_of_N (n + 32) else c.

(** [s.lower()] *)
Fixpoint lower (s : string) : string :=
  match s with
  | EmptyString => EmptyString
  | String c r => String (lower_char c) (lower r)
  end.

(** [s.startswith(p)] *)
Fixpoint startswith (p s : string) : bool :=
  match p, s with
  | EmptyString, _ => true
  | String a p', String b s' => Ascii.eqb a b && startswith p' s'
  | String _ _, EmptyString => false
  end.

(** [s.endswith(p)] *)
Fixpoint endswith (p s : string) : bool :=
  match s with
  | EmptyString => String.eqb p EmptyString
  | String _ r => String.eqb p s || endswith p r
  end.

(** [sub in s] *)
Fixpoint contains (sub s : string) : bool :=
  startswith sub s
  || match s with
     | EmptyString => false
     | String _ r => contains sub r
     end.

(** [c in s] for one character *)
Fixpoint has_char (c : ascii) (s : string) : bool :=
  match s with
  | EmptyString => false
  | String a r => Ascii.eqb a c || has_char c r
  end.

(** [s.isdigit()]: non-empty and every character a digit. *)
Fixpoint all_digit (s : string) : bool :=
  match s with
  | EmptyString => true
  | String c r => is_digit_char c && all_digit r
  end.

Definition isdigit (s : string) : bool :=
  negb (String.eqb s EmptyString) && all_digit s.

Fixpoint lstrip (s : string) : string :=
  match s with
  | EmptyString => EmptyString
  | String c r => if is_space c then lstrip r else s
  end.

Fixpoint rstrip (s : string) : string :=
  match s with
  | EmptyString => EmptyString
  | String c r =>
      match rstrip r with
      | EmptyString => if is_space c then EmptyString else String c EmptyString
      | r' => String c r'
      end
  end.

(** [s.strip()] *)
Definition strip (s : string) : string := rstrip (lstrip s).

(** [s.replace(c, '')] for a one-character [c]. *)
Fixpoint remove_char (c : ascii) (s : string) : string :=
  match s with
  | EmptyString => EmptyString
  | String a r =>
      if Ascii.eqb a c then remove_char c r else String a (remove_char c r)
  end.

Definition cons_head (c : ascii) (l : list string) : list string :=
  match l with
  | h :: t => String c h :: t
  | [] => [String c EmptyString]
  end.

(** [s.split('_p')]: the pieces between the non-overlapping occurrences of
    the separator, found from the left. *)
Fixpoint split_p (s : string) : list string :=
  match s with
  | EmptyString => [EmptyString]
  | String c r =>
      match r with
      | String d r' =>
          if Ascii.eqb c "_" && Ascii.eqb d "p" then EmptyString :: split_p r'
          else cons_head c (split_p r)
      | EmptyString => cons_head c (split_p r)
      end
  end.

(** The digits of [int(s)]: a non-empty run of decimal digits in which
    single underscores may separate digits.  [prev] tells whether the
    previous character was a digit. *)
Fixpoint parse_digits (acc : Z) (prev : bool) (s : string) : option Z :=
  match s with
  | EmptyString => if prev then Some acc else None
  | String c r =>
      if is_decimal c then parse_digits (10 * acc + digit_value c) true r
      else if Ascii.eqb c "_" && prev then parse_digits acc false r
      else None
  end.

(** The white space that [int] drops at both ends of its argument: of the
    code points below 256 those of [str.isspace] but the four separators
    28 to 31. *)
Definition is_int_space (c : ascii) : bool :=
  let n := code c in
  ((9 <=? n) && (n <=? 13) || (n =? 32) || (n =? 133) || (n =? 160))%N.

Fixpoint int_lstrip (s : string) : string :=
  match s with
  | EmptyString => EmptyString
  | String c r => if is_int_space c then int_lstrip r else s
  end.

Fixpoint int_rstrip (s : string) : string :=
  match s with
  | EmptyString => EmptyString
  | String c r =>
      match int_rstrip r with
      | EmptyString => if is_int_space c then EmptyString else String c EmptyString
      | r' => String c r'
      end
  end.

(** The argument of [int] without its white space and its sign. *)
Definition int_body (s : string) : string :=
  match int_rstrip (int_lstrip s) with
  | EmptyString => EmptyString
  | String c r => if Ascii.eqb c "-" || Ascii.eqb c "+" then r else String c r
  end.

(** [sys.get_int_max_str_digits()], as the interpreter starts. *)
Definition max_str_digits : nat := 4300.

(** The scan of [int] over the decimal digits and underscores at the head
    of [s]: the number of the digits, [None] when two underscores meet or
    an underscore ends the run.  [n] counts the digits seen, [us] tells
    whether the previous character was an underscore. *)
Fixpoint scan_digits (n : nat) (us : bool) (s : string) : option nat :=
  match s with
  | EmptyString => if us then None else Some n
  | String c r =>
      if is_decimal c then scan_digits (S n) false r
      else if Ascii.eqb c "_" then (if us then None else scan_digits n true r)
      else if us then None else Some n
  end.

(** The number of digits that [int] finds beyond its limit, [None] when
    it finds no more than [max_str_digits] or stops before it counts: an
    underscore may not come first. *)
Definition over_limit (s : string) : option nat :=
  let body := int_body s in
  if startswith "_" body then None
  else match scan_digits 0 false body with
       | Some n => if (max_str_digits <? n)%nat then Some n else None
       | None => None
       end.

(** [int(s)] in base ten; [None] is [ValueError].  Surrounding white space
    is dropped, one sign is allowed, and a number of more than
    [max_str_digits] digits is refused. *)
Definition int (s : string) : option Z :=
  match over_limit s with
  | Some _ => None
  | None =>
      match int_rstrip (int_lstrip s) with
      | EmptyString => None
      | String c r =>
          if Ascii.eqb c "-" then option_map Z.opp (parse_digits 0 false r)
          else if Ascii.eqb c "+" then parse_digits 0 false r
          else parse_digits 0 false (String c r)
      end
  end.

(** [str(n)] for an integer. *)
Definition of_Z (n : Z) : string := NilEmpty.string_of_int (Z.to_int n).

Fixpoint zeros (n : nat) : string :=
  match n with
  | O => EmptyString
  | S k => String "0" (zeros k)
  end.

(** [f"{n:04d}"]: sign first, then zeros up to a width of four. *)
Definition format_04d (n : Z) : string :=
  let d := NilEmpty.string_of_uint (N.to_uint (Z.abs_N n)) in
  let sign := if n <? 0 then "-"%string else EmptyString in
  let w := (String.length sign + String.length d)%nat in
  String.append sign (String.append (zeros (4 - w)) d).

(** [repr(s)]: the string between quotes, with its backslashes, its
    quotes and the code points that do not print written as escapes.  The
    quote is the apostrophe, unless the string holds one and no double
    quote. *)
Definition hex_digit (n : N) : ascii :=
  ascii_of_N (if (n <? 10)%N then 48 + n else 87 + n).

Definition is_printable (c : ascii) : bool :=
  let n := code c in
  ((32 <=? n) && (n <=? 126) || (161 <=? n) && negb (n =? 173))%N.

Definition repr_char (quote c : ascii) : string :=
  let n := code c in
  if Ascii.eqb c quote || Ascii.eqb c "\" then String "\" (String c EmptyString)
  else if (n =? 9)%N then "\t"%string
  else if (n =? 10)%N then "\n"%string
  else if (n =? 13)%N then "\r"%string
  else if is_printable c then String c EmptyString
  else String "\" (String "x" (String (hex_digit (n / 16))
                                (String (hex_digit (n mod 16)) EmptyString))).

Fixpoint repr_chars (quote : ascii) (s : string) : string :=
  match s with
  | EmptyString => EmptyString
  | String c r => String.append (repr_char quote c) (repr_chars quote r)
  end.

Definition repr (s : string) : string :=
  let quote := if has_char "'" s && negb (has_char "034" s) then "034"%char else "'"%char in
  String quote (String.append (repr_chars quote s) (String quote EmptyString)).

(** [re.search(r'\d+', s).group()]: the first maximal run of decimal
    digits, [None] when there is none. *)
Fixpoint take_decimals (s : string) : string :=
  match s with
  | EmptyString => EmptyString
  | String c r => if is_decimal c then String c (take_decimals r) else EmptyString
  end.

Fixpoint search_digits (s : string) : option string :=
  match s with
  | EmptyString => None
  | String c r => if is_decimal c then Some (take_decimals s) else search_digits r
  end.

(** Iterating over a text file opened with the default [newline=None]:
    the lines end at [\n], [\r\n] or a lone [\r], each handed over as
    [\n]; a last line without terminator is kept as it is. *)
Fixpoint readlines (s : string) : list string :=
  match s with
  | EmptyString => []
  | String c r =>
      if Ascii.eqb c "010" then String "010" EmptyString :: readlines r
      else if Ascii.eqb c "013" then
        match r with
        | String d r' =>
            if Ascii.eqb d "010" then String "010" EmptyString :: readlines r'
            else String "010" EmptyString :: readlines r
        | EmptyString => [String "010" EmptyString]
        end
      else
        match readlines r with
        | [] => [String c EmptyString]
        | h :: t => String c h :: t
        end
  end.

End PyStr.

(* ===================================================================== *)
(** * [os.path] (posixpath) *)
(* ===================================================================== *)

Module OsPath.

Definition sep : ascii := "/".

(** [os.path.join(a, b)] *)
Definition join (a b : string) : string :=
  if PyStr.startswith (String sep EmptyString) b then b
  else if String.eqb a EmptyString || PyStr.endswith (String sep EmptyString) a
       then String.append a b
       else String.append a (String sep b).

(** [s.rfind(c)] for one character, counted from [i]; [-1] when absent. *)
Fixpoint rfind_from (c : ascii) (i : Z) (s : string) : Z :=
  match s with
  | EmptyString => -1
  | String a r =>
      let k := rfind_from c (i + 1) r in
      if 0 <=? k then k else if Ascii.eqb a c then i else -1
  end.

Definition rfind (c : ascii) (s : string) : Z := rfind_from c 0 s.

Fixpoint take (n : nat) (s : string) : string :=
  match n, s with
  | S k, String c r => String c (take k r)
  | _, _ => EmptyString
  end.

Fixpoint drop (n : nat) (s : string) : string :=
  match n, s with
  | S k, String _ r => drop k r
  | _, _ => s
  end.

Fixpoint all_dots (s : string) : bool :=
  match s with
  | EmptyString => true
  | String c r => Ascii.eqb c "." && all_dots r
  end.

(** [os.path.splitext(p)]: the extension starts at the last dot, when that
    dot comes after the last separator and after a character of the file
    name that is not itself a dot. *)
Definition splitext (p : string) : string * string :=
  let sepIndex := rfind sep p in
  let dotIndex := rfind "." p in
  if sepIndex <? dotIndex then
    let lead := take (Z.to_nat (dotIndex - (sepIndex + 1)))
                     (drop (Z.to_nat (sepIndex + 1)) p) in
    if all_dots lead then (p, EmptyString)
    else (take (Z.to_nat dotIndex) p, drop (Z.to_nat dotIndex) p)
  else (p, EmptyString).

(** The names a path walks through: the pieces between separators, the
    empty ones and [.] left out. *)
Fixpoint split_sep (s : string) : list string :=
  match s with
  | EmptyString => [EmptyString]
  | String c r =>
      if Ascii.eqb c sep then EmptyString :: split_sep r
      else PyStr.cons_head c (split_sep r)
  end.

Definition is_step (name : string) : bool :=
  negb (String.eqb name EmptyString || String.eqb name ".").

Definition components (p : string) : list string :=
  List.filter is_step (split_sep p).

End OsPath.

(* ===================================================================== *)
(** * The outside world *)
(* ===================================================================== *)

(** ** Exceptions *)

Inductive exn_class :=
| ValueError | TypeError | OverflowError
| OSError | FileNotFoundError | NotADirectoryError | IsADirectoryError
| PermissionError
| UnidentifiedImageError      (* PIL; a subclass of OSError *)
| RequestException            (* requests; a subclass of OSError *)
| RarCannotExec | BadRarFile  (* rarfile *)
| OtherException.

(** An exception: its class and [str(e)]. *)
Record exn := mk_exn { exn_kind : exn_class; exn_str : string }.

Definition is_OSError (k : exn_class) : bool :=
  match k with
  | OSError | FileNotFoundError | NotADirectoryError | IsADirectoryError
  | PermissionError | UnidentifiedImageError | RequestException => true
  | _ => false
  end.

Definition is_RequestException (k : exn_class) : bool :=
  match k with RequestException => true | _ => false end.

Inductive outcome (A : Type) :=
| Ret (a : A)
| Raise (e : exn).
Arguments Ret {A} a.
Arguments Raise {A} e.

(** ** Images and the file system *)

(** A decoded image: which picture it is, and its colour model. *)
Record image := mk_image { img_id : nat; img_mode : string }.

(** [img.convert('RGB')] *)
Definition convert_rgb (i : image) : image := mk_image (img_id i) "RGB".

Inductive content :=
| Picture (i : image)   (* a file that the image codec decodes *)
| Blob.                 (* any other file *)

#[warnings="-register-all"] Inductive fsnode :=
| File (mtime : Z) (c : content)
| Dir (mtime : Z) (entries : list (string * fsnode)).

Definition node_mtime (n : fsnode) : Z :=
  match n with File t _ => t | Dir t _ => t end.

Fixpoint lookup_entry (name : string) (es : list (string * fsnode)) : option fsnode :=
  match es with
  | [] => None
  | (n, x) :: r => if String.eqb n name then Some x else lookup_entry name r
  end.

Fixpoint walk (steps : list string) (n : fsnode) : option fsnode :=
  match steps with
  | [] => Some n
  | s :: r =>
      match n with
      | Dir _ es =>
          match lookup_entry s es with
          | Some x => walk r x
          | None => None
          end
      | File _ _ => None
      end
  end.

(** The node a path names, from the root (which is also the working
    directory); the empty path names nothing. *)
Definition fs_lookup (root : fsnode) (p : string) : option fsnode :=
  if String.eqb p EmptyString then None else walk (OsPath.components p) root.

(** [os.path.exists(p)] *)
Definition os_path_exists (root : fsnode) (p : string) : bool :=
  match fs_lookup root p with Some _ => true | None => false end.

(** [os.listdir(p)]: the names directly in [p], in the order the directory
    holds them; never the content of its subdirectories. *)
Definition os_listdir (root : fsnode) (p : string) : outcome (list string) :=
  match fs_lookup root p with
  | Some (Dir _ es) => Ret (map fst es)
  | Some (File _ _) => Raise (mk_exn NotADirectoryError p)
  | None => Raise (mk_exn FileNotFoundError p)
  end.

(** [os.path.getmtime(p)] *)
Definition os_path_getmtime (root : fsnode) (p : string) : outcome Z :=
  match fs_lookup root p with
  | Some n => Ret (node_mtime n)
  | None => Raise (mk_exn FileNotFoundError p)
  end.

(** [Image.open(p).convert('RGB')] *)
Definition image_open_rgb (root : fsnode) (p : string) : outcome image :=
  match fs_lookup root p with
  | Some (File _ (Picture i)) => Ret (convert_rgb i)
  | Some (File _ Blob) => Raise (mk_exn UnidentifiedImageError p)
  | Some (Dir _ _) => Raise (mk_exn IsADirectoryError p)
  | None => Raise (mk_exn FileNotFoundError p)
  end.

(** The names of a directory are non-empty, are not [.] and hold no
    separator. *)
Definition good_name (n : string) : bool :=
  OsPath.is_step n && negb (PyStr.has_char OsPath.sep n).

Definition good_dir (es : list (string * fsnode)) : bool :=
  forallb good_name (map fst es).

(** ** What the collaborators answer *)

Record World := {
  (** [requests.get(url)], [raise_for_status()] and the parse of the page:
      for each [<a>] of the page in document order its [href], [None] for an
      [<a>] without one. *)
  w_page : string -> outcome (list (option string));
  (** [Mega().login().download_url(url, dest_path=dest)]: the file name it
      returns. *)
  w_mega : string -> string -> outcome (option string);
  (** The file system as the retrieval call leaves it. *)
  w_fs_fetched : fsnode;
  (** [os.makedirs(p, exist_ok=True)] *)
  w_makedirs : string -> option exn;
  (** [RarFile(rar).extractall(path=dest)] *)
  w_extract : string -> string -> option exn;
  (** The file system as the extraction leaves it. *)
  w_fs_extracted : fsnode;
  (** [os.remove(p)] *)
  w_remove : string -> option exn;
  (** [images[0].save(p, save_all=True, append_images=images[1:])] *)
  w_save_pdf : string -> list image -> option exn;
  (** [shutil.rmtree(p)] *)
  w_rmtree : string -> option exn;
  (** Opening the processed-chapters file for appending and writing to it. *)
  w_append : string -> option exn;
  (** Opening the processed-chapters file for reading and reading it. *)
  w_read : option exn
}.

(** ** What the program does to the world *)

Inductive level := DEBUG | INFO | WARNING | ERROR.

Inductive event :=
| Log (l : level) (msg : string)
| HttpGet (url : string)
| MegaDownload (url dest : string)
| Sleep (seconds : Z)
| ListDir (path : string)
| MakeDirs (path : string)
| Extract (rar dest : string)
| Remove (path : string) (ok : bool)
| OpenImage (path : string) (ok : bool)
| SavePdf (path : string) (pages : list image) (ok : bool)
| RmTree (path : string) (ok : bool)
| LedgerAppend (line : string) (ok : bool).

(** The processed-chapters file ([None]: it does not exist), the set
    [processed_urls] that the watcher keeps in memory, and the trace, oldest
    event first. *)
Record state := mk_state {
  ledger_file : option string;
  processed_urls : gset string;
  trace : list event
}.

(** ** The monad of the program: state, trace and exceptions *)

Definition M (A : Type) : Type := state -> outcome A * state.

Definition ret {A} (a : A) : M A := fun s => (Ret a, s).
Definition raise {A} (e : exn) : M A := fun s => (Raise e, s).

Definition bind {A B} (m : M A) (k : A -> M B) : M B :=
  fun s =>
    match m s with
    | (Ret a, s') => k a s'
    | (Raise e, s') => (Raise e, s')
    end.

(** [try: m except Exception as e: h e] *)
Definition try_except {A} (m : M A) (h : exn -> M A) : M A :=
  fun s =>
    match m s with
    | (Ret a, s') => (Ret a, s')
    | (Raise e, s') => h e s'
    end.

Definition emit (e : event) : M unit :=
  fun s => (Ret tt, mk_state (ledger_file s) (processed_urls s) (trace s ++ [e])).

Definition lift {A} (o : outcome A) : M A := fun s => (o, s).

Definition get_ledger : M (option string) := fun s => (Ret (ledger_file s), s).
Definition put_ledger (f : option string) : M unit :=
  fun s => (Ret tt, mk_state f (processed_urls s) (trace s)).

Definition get_processed : M (gset string) := fun s => (Ret (processed_urls s), s).
Definition put_processed (u : gset string) : M unit :=
  fun s => (Ret tt, mk_state (ledger_file s) u (trace s)).

Declare Scope py_scope.
Delimit Scope py_scope with py.
Notation "x <- m ;; k" := (bind m (fun x => k))
  (at level 100, m at next level, k at level 200, right associativity) : py_scope.
Notation "m ;; k" := (bind m (fun _ => k))
  (at level 100, k at level 200, right associativity) : py_scope.
Local Open Scope py_scope.

Definition logging (l : level) (msg : string) : M unit := emit (Log l msg).

(** An effect that the world may refuse: record it with its result, raise
    when it was refused. *)
Definition effect (ev : bool -> event) (r : option exn) : M unit :=
  match r with
  | None => emit (ev true)
  | Some e => emit (ev false) ;; raise e
  end.

(* ===================================================================== *)
(** * The program *)
(* ===================================================================== *)

Infix "+++" := String.append (at level 60, right associativity).

Definition NL : string := String "010" EmptyString.

(** A string is false when it is empty. *)
Definition truthy (s : string) : bool := negb (String.eqb s EmptyString).

(** ** Configuration *)

Record Config := {
  RSS_FEED_URL : string;
  OUTPUT_PDF_DIR : string;
  CHAPTER_KEYWORD : string;
  CHECK_INTERVAL_MINUTES : Z;
  MAX_AGE_HOURS : Z;
  cwd : string               (* [os.getcwd()] *)
}.

Definition TEMP_DIR (cfg : Config) : string :=
  OsPath.join (cwd cfg) "temp_downloads".

(** ** The ledger: [processed_chapters.txt] *)

(** [set(line.strip() for line in f if line.strip())] *)
Definition parse_ledger (text : string) : gset string :=
  list_to_set
    (map PyStr.strip
       (List.filter (fun line => truthy (PyStr.strip line))
          (PyStr.readlines text))).

Definition load_processed_chapters (w : World) : M (gset string) :=
  f <- get_ledger ;;
  match f with
  | None => ret ∅
  | Some text =>
      try_except
        (match w_read w with
         | None => ret (parse_ledger text)
         | Some e => raise e
         end)
        (fun e =>
           logging ERROR ("Error loading processed chapters file: " +++ exn_str e) ;;
           ret ∅)
  end.

(** Appending to the file creates it when it is missing.  A refused append
    leaves the file as it was. *)
Definition append_text (f : option string) (line : string) : option string :=
  match f with
  | None => Some line
  | Some text => Some (text +++ line)
  end.

Definition ledger_write (w : World) (line : string) : M unit :=
  match w_append w line with
  | None =>
      f <- get_ledger ;;
      put_ledger (append_text f line) ;;
      emit (LedgerAppend line true)
  | Some e => emit (LedgerAppend line false) ;; raise e
  end.

Definition save_processed_chapter (w : World) (post_url : string) : M unit :=
  try_except
    (ledger_write w (post_url +++ NL) ;;
     logging INFO ("Saved URL to processed chapters file: " +++ post_url))
    (fun e =>
       logging ERROR ("Error saving to processed chapters file: " +++ exn_str e)).

(** ** The archive extractor *)

Definition extract_rar (w : World) (rar_path extract_to_path : string) : M bool :=
  logging INFO ("Extracting RAR: " +++ rar_path +++ " to " +++ extract_to_path) ;;
  try_except
    (emit (Extract rar_path extract_to_path) ;;
     match w_extract w rar_path extract_to_path with
     | None =>
         logging INFO ("Successfully extracted to: " +++ extract_to_path) ;;
         ret true
     | Some e => raise e
     end)
    (fun e =>
       match exn_kind e with
       | RarCannotExec =>
           logging ERROR
             ("UnRar executable not found or not in PATH. Please install 'unrar': "
              +++ exn_str e) ;;
           ret false
       | BadRarFile =>
           logging ERROR ("Bad RAR file: " +++ rar_path +++ " - " +++ exn_str e) ;;
           ret false
       | _ =>
           logging ERROR ("Error extracting RAR " +++ rar_path +++ ": " +++ exn_str e) ;;
           ret false
       end).

(** ** The document assembler *)

(** [f.lower().endswith(('.png', '.jpg', '.jpeg'))] *)
Definition is_image_name (f : string) : bool :=
  let l := PyStr.lower f in
  PyStr.endswith ".png" l || PyStr.endswith ".jpg" l || PyStr.endswith ".jpeg" l.

(** What [sort_key] returns: a pair of integers or a string. *)
Inductive key :=
| KTuple (chapter page : Z)
| KStr (s : string).

Definition sort_key (filename : string) : key :=
  let parts := PyStr.split_p (fst (OsPath.splitext filename)) in
  match parts with
  | [p0; p1] =>
      match PyStr.int (PyStr.remove_char "c" p0) with
      | Some c =>
          match PyStr.int p1 with
          | Some p => KTuple c p
          | None => KStr filename
          end
      | None => KStr filename
      end
  | _ => KStr filename
  end.

(** [a < b] on keys: pairs compare in lexicographic order, strings by code
    points, and a pair against a string is a [TypeError]. *)
Definition key_lt (a b : key) : outcome bool :=
  match a, b with
  | KTuple c1 p1, KTuple c2 p2 => Ret ((c1 <? c2) || (c1 =? c2) && (p1 <? p2))
  | KStr s, KStr t => Ret (String.ltb s t)
  | KStr _, KTuple _ _ =>
      Raise (mk_exn TypeError "'<' not supported between instances of 'str' and 'tuple'")
  | KTuple _ _, KStr _ =>
      Raise (mk_exn TypeError "'<' not supported between instances of 'tuple' and 'str'")
  end.

(** [sorted(l, key=k)]: a stable sort that compares keys with [<] only; an
    element moves in front of an earlier one only when its key is strictly
    smaller. *)
Fixpoint insert_sorted {A} (k : A -> key) (x : A) (l : list A) : outcome (list A) :=
  match l with
  | [] => Ret [x]
  | y :: r =>
      match key_lt (k y) (k x) with
      | Raise e => Raise e
      | Ret false => Ret (x :: y :: r)
      | Ret true =>
          match insert_sorted k x r with
          | Ret r' => Ret (y :: r')
          | Raise e => Raise e
          end
      end
  end.

Fixpoint sorted {A} (k : A -> key) (l : list A) : outcome (list A) :=
  match l with
  | [] => Ret []
  | x :: r =>
      match sorted k r with
      | Ret r' => insert_sorted k x r'
      | Raise e => Raise e
      end
  end.

Definition open_image (w : World) (path : string) : M image :=
  match image_open_rgb (w_fs_extracted w) path with
  | Ret i => emit (OpenImage path true) ;; ret i
  | Raise e => emit (OpenImage path false) ;; raise e
  end.

(** The loop [for path in image_paths], from the images loaded so far. *)
Fixpoint load_images (w : World) (image_paths : list string) (images : list image)
  : M (list image) :=
  match image_paths with
  | [] => ret images
  | path :: rest =>
      images' <- try_except
                   (img <- open_image w path ;; ret (images ++ [img]))
                   (fun e =>
                      logging ERROR ("Could not open image " +++ path +++ ": " +++ exn_str e) ;;
                      ret images) ;;
      load_images w rest images'
  end.

Definition images_to_pdf (w : World) (image_folder output_pdf_path : string)
    (chapter_number : Z) : M bool :=
  logging INFO ("Converting images in " +++ image_folder +++ " to PDF: " +++ output_pdf_path) ;;
  emit (ListDir image_folder) ;;
  names <- lift (os_listdir (w_fs_extracted w) image_folder) ;;
  let image_files := List.filter is_image_name names in
  image_paths <- lift (sorted sort_key (map (OsPath.join image_folder) image_files)) ;;
  match image_paths with
  | [] =>
      logging WARNING ("No valid images found in " +++ image_folder +++ " to create PDF.") ;;
      ret false
  | _ :: _ =>
      images <- load_images w image_paths [] ;;
      match images with
      | _ :: _ =>
          try_except
            (effect (SavePdf output_pdf_path images) (w_save_pdf w output_pdf_path images) ;;
             logging INFO ("PDF created successfully at: " +++ output_pdf_path) ;;
             ret true)
            (fun e =>
               logging ERROR ("Error saving PDF " +++ output_pdf_path +++ ": " +++ exn_str e) ;;
               ret false)
      | [] =>
          logging WARNING "No valid images to create PDF." ;;
          ret false
      end
  end.

(** ** The link resolver *)

(** [[a['href'] for a in soup.find_all('a', href=True) if 'mega.nz' in a['href']]] *)
Definition mega_links_of (anchors : list (option string)) : list string :=
  List.filter (PyStr.contains "mega.nz") (omap id anchors).

Definition get_mega_file_url (w : World) (post_url : string) : M (option string) :=
  logging INFO ("Fetching Mega.nz link from: " +++ post_url) ;;
  try_except
    (emit (HttpGet post_url) ;;
     anchors <- lift (w_page w post_url) ;;
     match mega_links_of anchors with
     | first :: _ =>
         logging INFO ("Found Mega.nz link: " +++ first) ;;
         ret (Some first)
     | [] =>
         logging WARNING ("No Mega.nz link found on post: " +++ post_url) ;;
         ret None
     end)
    (fun e =>
       if is_RequestException (exn_kind e) then
         logging ERROR ("Error fetching post " +++ post_url +++ ": " +++ exn_str e) ;;
         ret None
       else raise e).

(** ** The archive fetcher *)

(** [max(l, key=k)] from the best element so far: a later element replaces
    it only when its key is strictly greater. *)
Fixpoint max_from (k : string -> outcome Z) (best : string) (best_key : Z)
    (l : list string) : outcome string :=
  match l with
  | [] => Ret best
  | x :: r =>
      match k x with
      | Raise e => Raise e
      | Ret kx =>
          if best_key <? kx then max_from k x kx r else max_from k best best_key r
      end
  end.

Definition max_by (k : string -> outcome Z) (l : list string) : outcome string :=
  match l with
  | [] => Raise (mk_exn ValueError "max() arg is an empty sequence")
  | x :: r =>
      match k x with
      | Raise e => Raise e
      | Ret kx => max_from k x kx r
      end
  end.

(** The pair [(destination_path, filename)]; [None] is [(None, None)]. *)
Definition download_from_mega (w : World) (mega_url destination_folder : string)
  : M (option (string * string)) :=
  logging INFO ("Attempting to download from Mega: " +++ mega_url) ;;
  try_except
    (emit (MegaDownload mega_url destination_folder) ;;
     filename <- lift (w_mega w mega_url destination_folder) ;;
     let destination_path :=
       match filename with
       | Some f => if truthy f then Some (OsPath.join destination_folder f) else None
       | None => None
       end in
     emit (Sleep 5) ;;
     match destination_path, filename with
     | Some p, Some f =>
         if truthy p && os_path_exists (w_fs_fetched w) p then
           logging INFO ("Successfully downloaded '" +++ f +++ "' from Mega to '"
                         +++ destination_folder +++ "'.") ;;
           ret (Some (p, f))
         else
           logging ERROR ("Download failed for Mega URL: " +++ mega_url) ;;
           ret None
     | _, _ =>
         logging ERROR ("Download failed for Mega URL: " +++ mega_url) ;;
         ret None
     end)
    (fun e =>
       found <-
         (if PyStr.contains "WinError 32" (exn_str e) then
            emit (Sleep 5) ;;
            emit (ListDir destination_folder) ;;
            names <- lift (os_listdir (w_fs_fetched w) destination_folder) ;;
            let rar_files := List.filter (PyStr.endswith ".rar") names in
            match rar_files with
            | _ :: _ =>
                latest_rar <-
                  lift (max_by
                          (fun x => os_path_getmtime (w_fs_fetched w)
                                      (OsPath.join destination_folder x))
                          rar_files) ;;
                let destination_path := OsPath.join destination_folder latest_rar in
                logging INFO ("Found downloaded RAR despite access error: " +++ latest_rar) ;;
                ret (Some (destination_path, latest_rar))
            | [] => ret None
            end
          else ret None) ;;
       match found with
       | Some r => ret (Some r)
       | None =>
           logging ERROR ("Error downloading from Mega " +++ mega_url +++ ": " +++ exn_str e) ;;
           ret None
       end).

(** ** Chapter numbers *)

(** The message of the [ValueError] of [int(s)]: the digits beyond the
    limit, or the argument as [%.200R] prints it. *)
Definition int_error (s : string) : string :=
  match PyStr.over_limit s with
  | Some n =>
      "Exceeds the limit (" +++ PyStr.of_Z (Z.of_nat PyStr.max_str_digits)
      +++ " digits) for integer string conversion: value has "
      +++ PyStr.of_Z (Z.of_nat n)
      +++ " digits; use sys.set_int_max_str_digits() to increase the limit"
  | None => "invalid literal for int() with base 10: " +++ OsPath.take 200 (PyStr.repr s)
  end.

Definition int_or_raise (s : string) : outcome Z :=
  match PyStr.int s with
  | Some n => Ret n
  | None => Raise (mk_exn ValueError (int_error s))
  end.

Definition get_chapter_number_from_filename (filename : string) : M (option Z) :=
  try_except
    (let name_parts := fst (OsPath.splitext filename) in
     if PyStr.startswith "c" name_parts && PyStr.isdigit (OsPath.drop 1 name_parts) then
       n <- lift (int_or_raise (OsPath.drop 1 name_parts)) ;;
       ret (Some n)
     else ret None)
    (fun e =>
       logging ERROR ("Could not extract chapter number from " +++ filename +++ ": "
                      +++ exn_str e) ;;
       ret None).

Definition get_chapter_number_from_title (title : string) : M (option Z) :=
  try_except
    (match PyStr.search_digits title with
     | Some digits =>
         n <- lift (int_or_raise digits) ;;
         ret (Some n)
     | None => ret None
     end)
    (fun e =>
       logging ERROR ("Error extracting chapter number from title '" +++ title +++ "': "
                      +++ exn_str e) ;;
       ret None).

(** ** The pipeline coordinator *)

(** [try: os.remove(p) / shutil.rmtree(p) except OSError as e: log] *)
Definition except_OSError (m : M unit) (msg : string) : M unit :=
  try_except m
    (fun e =>
       if is_OSError (exn_kind e) then logging ERROR (msg +++ exn_str e)
       else raise e).

Definition process_new_chapter (cfg : Config) (w : World) (post_link : string) : M bool :=
  logging INFO ("Processing new chapter from post: " +++ post_link) ;;
  (* 1. Get Mega.nz link *)
  mega_link <- get_mega_file_url w post_link ;;
  match mega_link with
  | None => ret false
  | Some mega_link =>
  if negb (truthy mega_link) then ret false else
  (* 2. Download RAR from Mega *)
  fetched <- download_from_mega w mega_link (TEMP_DIR cfg) ;;
  match fetched with
  | None => ret false
  | Some (temp_rar_path, rar_filename) =>
  if negb (truthy temp_rar_path) then ret false else
  chapter_number <- get_chapter_number_from_filename rar_filename ;;
  match chapter_number with
  | None =>
      logging ERROR ("Could not determine chapter number from RAR filename: "
                     +++ rar_filename +++ ". Skipping.") ;;
      effect (Remove temp_rar_path) (w_remove w temp_rar_path) ;;
      ret false
  | Some chapter_number =>
  let chapter_temp_extract_dir :=
    OsPath.join (TEMP_DIR cfg) ("chapter_" +++ PyStr.of_Z chapter_number) in
  emit (MakeDirs chapter_temp_extract_dir) ;;
  match w_makedirs w chapter_temp_extract_dir with Some e => raise e | None => ret tt end ;;
  (* 3. Extract RAR *)
  extracted <- extract_rar w temp_rar_path chapter_temp_extract_dir ;;
  if negb extracted then
    effect (Remove temp_rar_path) (w_remove w temp_rar_path) ;;
    ret false
  else
  (* 4. Remove downloaded RAR file *)
  except_OSError
    (effect (Remove temp_rar_path) (w_remove w temp_rar_path) ;;
     logging INFO ("Removed temporary RAR file: " +++ temp_rar_path))
    ("Error removing RAR file " +++ temp_rar_path +++ ": ") ;;
  (* 5. Create PDF *)
  let pdf_filename := "One Piece - " +++ PyStr.format_04d chapter_number +++ ".pdf" in
  let final_pdf_path := OsPath.join (OUTPUT_PDF_DIR cfg) pdf_filename in
  assembled <- images_to_pdf w chapter_temp_extract_dir final_pdf_path chapter_number ;;
  if negb assembled then ret false else
  (* 6. Clean up temporary extracted chapter folder *)
  except_OSError
    (effect (RmTree chapter_temp_extract_dir) (w_rmtree w chapter_temp_extract_dir) ;;
     logging INFO ("Removed temporary extraction directory: " +++ chapter_temp_extract_dir))
    ("Error removing temporary directory " +++ chapter_temp_extract_dir +++ ": ") ;;
  (* 7. Save to processed chapters *)
  save_processed_chapter w post_link ;;
  logging INFO ("Successfully processed chapter " +++ PyStr.of_Z chapter_number
                +++ ". PDF saved to " +++ final_pdf_path) ;;
  ret true
  end end end.

(** ** The feed watcher *)

Record entry := {
  title : string;
  link : string;
  published : Z       (* [time.mktime(entry.published_parsed)], in microseconds *)
}.

(** What the processing of one entry meets: the clock ([datetime.now()], in
    microseconds) and the world. *)
Record meeting := { now : Z; world : World }.

Definition hours (h : Z) : Z := h * 3600 * 1000000.

(** [timedelta(hours=h)], in microseconds.  A [timedelta] holds no more
    than 999999999 days either way, and the number of its days is first
    read as a C [int]. *)
Definition timedelta_hours (h : Z) : outcome Z :=
  let days := h / 24 in
  if (-999999999 <=? days) && (days <=? 999999999) then Ret (hours h)
  else Raise (mk_exn OverflowError
                (if (-2147483648 <=? days) && (days <=? 2147483647)
                 then "days=" +++ PyStr.of_Z days +++ "; must have magnitude <= 999999999"
                 else "Python int too large to convert to C int")).

(** The body of [for entry in feed.entries]. *)
Definition handle_entry (cfg : Config) (e : entry) (m : meeting) : M unit :=
  max_age <- lift (timedelta_hours (MAX_AGE_HOURS cfg)) ;;
  if max_age <? now m - published e then ret tt
  else if PyStr.contains (PyStr.lower (CHAPTER_KEYWORD cfg)) (PyStr.lower (title e)) then
    seen <- get_processed ;;
    if bool_decide (link e ∈ seen) then
      logging DEBUG ("Chapter already processed: '" +++ title e +++ "'")
    else
      logging INFO ("New chapter post detected: '" +++ title e +++ "'") ;;
      ok <- process_new_chapter cfg (world m) (link e) ;;
      if ok then
        seen <- get_processed ;;
        put_processed ({[ link e ]} ∪ seen)
      else
        logging ERROR ("Failed to process chapter from '" +++ link e
                       +++ "'. Will retry on next loop.")
  else ret tt.

Fixpoint handle_entries (cfg : Config) (es : list (entry * meeting)) : M unit :=
  match es with
  | [] => ret tt
  | (e, m) :: r => handle_entry cfg e m ;; handle_entries cfg r
  end.

(** [time.sleep(secs)].  A negative length is refused.  [refused] is the
    error of a platform whose clock cannot hold the length (an
    [OverflowError] or an [OSError]), [None] when the pause is taken. *)
Definition time_sleep (secs : Z) (refused : option exn) : M unit :=
  if secs <? 0 then raise (mk_exn ValueError "sleep length must be non-negative")
  else match refused with
       | Some e => raise e
       | None => emit (Sleep secs)
       end.

(** What one turn of [while True] meets: [t_feed] is what [feedparser.parse]
    gives, each entry with what its processing meets, and [t_pause] what the
    platform answers to the pause. *)
Record turn := mk_turn {
  t_feed : outcome (list (entry * meeting));
  t_pause : option exn }.

Definition feed_cycle (cfg : Config) (t : turn) : M unit :=
  try_except
    (es <- lift (t_feed t) ;;
     match es with
     | [] => logging WARNING "No entries found in RSS feed."
     | _ :: _ => ret tt
     end ;;
     handle_entries cfg es)
    (fun e => logging ERROR ("An error occurred during RSS feed check: " +++ exn_str e)) ;;
  logging INFO ("Sleeping for " +++ PyStr.of_Z (CHECK_INTERVAL_MINUTES cfg) +++ " minutes...") ;;
  time_sleep (CHECK_INTERVAL_MINUTES cfg * 60) (t_pause t).

Fixpoint feed_cycles (cfg : Config) (turns : list turn) : M unit :=
  match turns with
  | [] => ret tt
  | t :: r => feed_cycle cfg t ;; feed_cycles cfg r
  end.

(** [watch_rss_feed], for the first turns of its endless loop.  The pause
    is outside the [try] of the loop: what it raises leaves the watcher. *)
Definition watch_rss_feed (cfg : Config) (w : World) (turns : list turn) : M unit :=
  logging INFO ("Starting RSS feed watcher. Checking every "
                +++ PyStr.of_Z (CHECK_INTERVAL_MINUTES cfg) +++ " minutes...") ;;
  loaded <- load_processed_chapters w ;;
  put_processed loaded ;;
  feed_cycles cfg turns.

(** ** [download_file], which nothing calls *)

(** What a streamed response gives. *)
Record Response := {
  (** what [raise_for_status()] raises *)
  status_error : option exn;
  (** [headers.get('content-length')] *)
  content_length : option string;
  (** what [iter_content] yields, and what it raises after that *)
  chunks : list string;
  stream_error : option exn
}.

Record Net := {
  (** [requests.get(url, stream=True)] *)
  n_get : string -> outcome Response;
  (** [open(destination_path, 'wb')] *)
  n_open : string -> option exn;
  (** [f.write(chunk)]; a write that raises is taken to write nothing *)
  n_write : string -> option exn
}.

(** The file at the destination ([None]: there is none) and the trace. *)
Record disk := mk_disk { d_file : option string; d_trace : list event }.

Definition disk_log (d : disk) (l : level) (msg : string) : disk :=
  mk_disk (d_file d) (d_trace d ++ [Log l msg]).

(** The loop [for chunk in response.iter_content(...)], from what the file
    holds and the size counted so far. *)
Fixpoint write_chunks (n : Net) (cs : list string) (f : string) (downloaded_size : Z)
  : outcome Z * string :=
  match cs with
  | [] => (Ret downloaded_size, f)
  | chunk :: r =>
      match n_write n chunk with
      | Some e => (Raise e, f)
      | None =>
          write_chunks n r (f +++ chunk) (downloaded_size + Z.of_nat (String.length chunk))
      end
  end.

Definition download_file (n : Net) (url destination_path : string) (d : disk)
  : outcome bool * disk :=
  let d := mk_disk (d_file d)
             (d_trace d ++ [Log INFO ("Attempting to download from: " +++ url);
                            HttpGet url]) in
  let body : outcome bool * disk :=
    match n_get n url with
    | Raise e => (Raise e, d)
    | Ret response =>
    match status_error response with
    | Some e => (Raise e, d)
    | None =>
    match match content_length response with
          | Some h => int_or_raise h
          | None => Ret 0
          end with
    | Raise e => (Raise e, d)
    | Ret total_size =>
    match n_open n destination_path with
    | Some e => (Raise e, d)
    | None =>
    match write_chunks n (chunks response) EmptyString 0 with
    | (Raise e, f) => (Raise e, mk_disk (Some f) (d_trace d))
    | (Ret downloaded_size, f) =>
    match stream_error response with
    | Some e => (Raise e, mk_disk (Some f) (d_trace d))
    | None =>
        (Ret true,
         disk_log (mk_disk (Some f) (d_trace d)) INFO ("Downloaded: " +++ destination_path))
    end end end end end end in
  match body with
  | (Raise e, d') =>
      if is_RequestException (exn_kind e)
      then (Ret false,
            disk_log d' ERROR ("Error downloading " +++ url +++ ": " +++ exn_str e))
      else (Raise e, d')
  | done => done
  end.

(* ===================================================================== *)
(** * Definitions for the statements and the proofs *)
(* ===================================================================== *)

(** Gluing pieces back with [_p] between them. *)
Fixpoint join_p (l : list string) : string :=
  match l with
  | [] => EmptyString
  | [x] => x
  | x :: r => x +++ "_p" +++ join_p r
  end.

(** The order of strings: [a <= b] when [b < a] is false. *)
Definition str_le (a b : string) : Prop := String.leb a b = true.

(** The order of the elements whose keys are the strings [str x]. *)
Definition by_str {A} (str : A -> string) (x y : A) : Prop := str_le (str x) (str y).

(** The kind of a key. *)
Definition is_tuple (k : key) : bool :=
  match k with KTuple _ _ => true | KStr _ => false end.

(** ** Runs *)

Definition add_events (s : state) (evs : list event) : state :=
  mk_state (ledger_file s) (processed_urls s) (trace s ++ evs).

(** [m] returns [r] and adds the events [evs], whatever the state, and
    touches neither the ledger file nor the set in memory. *)
Definition runs_as {A} (m : M A) (r : outcome A) (evs : list event) : Prop :=
  forall s, m s = (r, add_events s evs).

Definition initial : state := mk_state None ∅ [].

(** Events that touch neither the ledger nor the scratch directory. *)
Definition no_ledger (e : event) : Prop :=
  match e with LedgerAppend _ _ => False | _ => True end.

Definition plain (e : event) : Prop :=
  match e with LedgerAppend _ _ | RmTree _ _ => False | _ => True end.

(** [m] runs the same way from every state and all its events satisfy [P]. *)
Definition emits {A} (P : event -> Prop) (m : M A) : Prop :=
  exists r evs, runs_as m r evs /\ Forall P evs.

(** The prefix that [join] puts in front of a name. *)
Definition dir_prefix (folder : string) : string :=
  if PyStr.endswith (String OsPath.sep EmptyString) folder then folder
  else folder +++ String OsPath.sep EmptyString.

(** ** The document assembler *)

(** The images that open, in the order of the paths. *)
Definition opened (w : World) (path : string) : option image :=
  match image_open_rgb (w_fs_extracted w) path with
  | Ret i => Some i
  | Raise _ => None
  end.

Definition loaded (w : World) (image_paths : list string) : list image :=
  omap (opened w) image_paths.

(** What the loading loop does to the world. *)
Definition load_events (w : World) (image_paths : list string) : list event :=
  flat_map
    (fun path =>
       match image_open_rgb (w_fs_extracted w) path with
       | Ret _ => [OpenImage path true]
       | Raise e =>
           [OpenImage path false;
            Log ERROR ("Could not open image " +++ path +++ ": " +++ exn_str e)]
       end)
    image_paths.

(** What [images_to_pdf] does once the paths are sorted. *)
Definition assemble (w : World) (image_folder output_pdf_path : string)
    (image_paths : list string) : outcome bool * list event :=
  match image_paths with
  | [] =>
      (Ret false,
       [Log WARNING ("No valid images found in " +++ image_folder +++ " to create PDF.")])
  | _ :: _ =>
      match loaded w image_paths with
      | [] =>
          (Ret false,
           load_events w image_paths ++ [Log WARNING "No valid images to create PDF."])
      | (_ :: _) as images =>
          match w_save_pdf w output_pdf_path images with
          | None =>
              (Ret true,
               load_events w image_paths ++
               [SavePdf output_pdf_path images true;
                Log INFO ("PDF created successfully at: " +++ output_pdf_path)])
          | Some e =>
              (Ret false,
               load_events w image_paths ++
               [SavePdf output_pdf_path images false;
                Log ERROR ("Error saving PDF " +++ output_pdf_path +++ ": " +++ exn_str e)])
          end
      end
  end.

Definition assembler_head (image_folder output_pdf_path : string) : list event :=
  [Log INFO ("Converting images in " +++ image_folder +++ " to PDF: " +++ output_pdf_path);
   ListDir image_folder].

(** ** Sample worlds *)

(** A world in which every call goes through, apart from what the
    arguments say. *)
Definition world_of (page : outcome (list (option string)))
    (mega : outcome (option string)) (fetched extracted : fsnode)
    (save : option exn) : World :=
  {| w_page := fun _ => page;
     w_mega := fun _ _ => mega;
     w_fs_fetched := fetched;
     w_makedirs := fun _ => None;
     w_extract := fun _ _ => None;
     w_fs_extracted := extracted;
     w_remove := fun _ => None;
     w_save_pdf := fun _ _ => save;
     w_rmtree := fun _ => None;
     w_append := fun _ => None;
     w_read := None |}.

Definition sample_cfg : Config :=
  {| RSS_FEED_URL := "https://example.org/feed";
     OUTPUT_PDF_DIR := "/out";
     CHAPTER_KEYWORD := "Chapter";
     CHECK_INTERVAL_MINUTES := 60;
     MAX_AGE_HOURS := 24;
     cwd := "/srv" |}.

Definition picture (n : nat) : fsnode := File 0 (Picture (mk_image n "L")).

(** [/srv/temp_downloads] holding the archive [rar] and the directory
    [chapter_1] with the entries [es]. *)
Definition scratch (rar : string) (es : list (string * fsnode)) : fsnode :=
  Dir 0 [("srv"%string,
          Dir 0 [("temp_downloads"%string,
                  Dir 0 [(rar, File 5 Blob); ("chapter_1"%string, Dir 0 es)])])].

Definition sample_page : outcome (list (option string)) :=
  Ret [None; Some "https://example.org/about"%string;
       Some "https://mega.nz/file/abc"%string].

Definition chapter_1 : string := "/srv/temp_downloads/chapter_1".

(** Two pages whose numbers differ in length. *)
Definition two_pages : list (string * fsnode) :=
  [("c1_p2.jpg"%string, picture 2); ("c1_p10.jpg"%string, picture 10)].

Definition world_two_pages : World :=
  world_of sample_page (Ret (Some "c1.rar"%string))
           (scratch "c1.rar" two_pages) (scratch "c1.rar" two_pages) None.

(** Names that match the pattern next to names that do not. *)
Definition mixed_names : list (string * fsnode) :=
  [("cover.png"%string, picture 100); ("c1_p2.jpg"%string, picture 2);
   ("notes.txt"%string, File 0 Blob); ("c1_p1.JPG"%string, picture 1);
   ("back.jpeg"%string, File 0 Blob)].

Definition world_mixed : World :=
  world_of sample_page (Ret (Some "c1.rar"%string))
           (scratch "c1.rar" mixed_names) (scratch "c1.rar" mixed_names) None.

(** One good page, and a document that cannot be written. *)
Definition one_page : list (string * fsnode) := [("c1_p01.jpg"%string, picture 1)].

Definition world_disk_full : World :=
  world_of sample_page (Ret (Some "c1.rar"%string))
           (scratch "c1.rar" one_page) (scratch "c1.rar" one_page)
           (Some (mk_exn OSError "[Errno 28] No space left on device")).

(** All the pages inside a subdirectory. *)
Definition nested_pages : list (string * fsnode) :=
  [("c1"%string, Dir 0 two_pages)].

Definition world_nested : World :=
  world_of sample_page (Ret (Some "c1.rar"%string))
           (scratch "c1.rar" nested_pages) (scratch "c1.rar" nested_pages) None.

(** ** The ledger *)

Definition LF : ascii := "010".
Definition CR : ascii := "013".

(** A link that the ledger can hold: not empty, no line break inside, no
    white space around. *)
Definition clean_link (l : string) : Prop :=
  l <> EmptyString /\ PyStr.has_char LF l = false /\ PyStr.has_char CR l = false /\
  PyStr.strip l = l.

Definition clean_linkb (l : string) : bool :=
  truthy l && negb (PyStr.has_char LF l) && negb (PyStr.has_char CR l)
  && String.eqb (PyStr.strip l) l.

(** [record] every link of a list, in order. *)
Fixpoint save_all (w : World) (links : list string) : M unit :=
  match links with
  | [] => ret tt
  | l :: r => save_processed_chapter w l ;; save_all w r
  end.

(** The links whose append went through. *)
Definition recorded_links (w : World) (links : list string) : list string :=
  List.filter (fun l => match w_append w (l +++ NL) with None => true | Some _ => false end)
              links.

Definition save_events (w : World) (post_url : string) : list event :=
  match w_append w (post_url +++ NL) with
  | None =>
      [LedgerAppend (post_url +++ NL) true;
       Log INFO ("Saved URL to processed chapters file: " +++ post_url)]
  | Some e =>
      [LedgerAppend (post_url +++ NL) false;
       Log ERROR ("Error saving to processed chapters file: " +++ exn_str e)]
  end.

(** The lines of a file, one after the other. *)
Definition glue (lines : list string) : string :=
  fold_right String.append EmptyString lines.

Definition saved_file (w : World) (post_url : string) (f : option string) : option string :=
  match w_append w (post_url +++ NL) with
  | None => append_text f (post_url +++ NL)
  | Some _ => f
  end.

(** ** The link resolver, in the words of the specification *)

(** The host of a link, in the words of the specification: what stands
    between [://] and the next [/], [?] or [#]. *)
Fixpoint spec_after_scheme (url : string) : option string :=
  match url with
  | EmptyString => None
  | String _ r =>
      if PyStr.startswith "://" url then Some (OsPath.drop 3 url)
      else spec_after_scheme r
  end.

Fixpoint spec_until_delimiter (s : string) : string :=
  match s with
  | EmptyString => EmptyString
  | String c r =>
      if Ascii.eqb c "/" || Ascii.eqb c "?" || Ascii.eqb c "#" then EmptyString
      else String c (spec_until_delimiter r)
  end.

Definition spec_host (url : string) : string :=
  match spec_after_scheme url with
  | Some r => spec_until_delimiter r
  | None => EmptyString
  end.

(** The resolver in the words of the specification: the first link whose
    host is the provider's domain. *)
Definition spec_resolve (anchors : list (option string)) : option string :=
  head (List.filter (fun h => String.eqb (spec_host h) "mega.nz") (omap id anchors)).

Definition page_with_decoy : list (option string) :=
  [Some "https://example.org/redirect?to=mega.nz"%string;
   Some "https://mega.nz/file/abc"%string].

Definition world_decoy : World :=
  world_of (Ret page_with_decoy) (Ret (Some "c1.rar"%string))
           (scratch "c1.rar" two_pages) (scratch "c1.rar" two_pages) None.

(** ** Sample worlds of the archive fetcher *)

Definition three_archives : fsnode :=
  Dir 0 [("srv"%string,
          Dir 0 [("temp_downloads"%string,
                  Dir 0 [("c1.rar"%string, File 5 Blob);
                         ("c2.rar"%string, File 9 Blob);
                         ("notes.txt"%string, File 11 Blob);
                         ("c3.rar"%string, File 7 Blob)])])].

Definition world_locked : World :=
  world_of sample_page
    (Raise (mk_exn PermissionError
       "[WinError 32] The process cannot access the file because it is being used by another process"))
    three_archives three_archives None.

Definition world_reset : World :=
  world_of sample_page
    (Raise (mk_exn RequestException "Connection reset by peer"))
    three_archives three_archives None.

(** ** The pipeline coordinator *)

(** Events of the stages before the document is written: no write of the
    document, no removal of the scratch directory, no append to the
    ledger. *)
Definition quiet (e : event) : Prop :=
  match e with
  | SavePdf _ _ _ | RmTree _ _ | LedgerAppend _ _ => False
  | _ => True
  end.

(** A document was written among these events. *)
Definition has_saved (evs : list event) : Prop :=
  exists path pages, In (SavePdf path pages true) evs.

(** The removal of the scratch directory and its log line. *)
Definition rm_events (w : World) (dir : string) : list event :=
  match w_rmtree w dir with
  | None =>
      [RmTree dir true;
       Log INFO ("Removed temporary extraction directory: " +++ dir)]
  | Some e =>
      [RmTree dir false;
       Log ERROR (("Error removing temporary directory " +++ dir +++ ": ") +++ exn_str e)]
  end.

(** The output document and the scratch directory of one chapter number. *)
Definition named_by_chapter (cfg : Config) (path dir : string) : Prop :=
  exists chapter_number : Z,
    path = OsPath.join (OUTPUT_PDF_DIR cfg)
             ("One Piece - " +++ PyStr.format_04d chapter_number +++ ".pdf") /\
    dir = OsPath.join (TEMP_DIR cfg) ("chapter_" +++ PyStr.of_Z chapter_number).

(** How a run of the coordinator, or of what is left of it, ends.

    Either it fails: it returns [False] or raises, the same way from every
    state, and never touches the ledger.  A run that returns [False] has
    not tried to remove the scratch directory; a failed run has tried it
    exactly when a document had been written, and then the removal raised
    something that is not an [OSError], which is what the run raises.

    Or it returns [True]: a document was written at [path], then the
    removal of the scratch directory [dir] was tried (and went through or
    raised an [OSError]), then one append to the ledger was tried; [Q] is
    what is known of [path] and [dir]. *)
Inductive verdict (w : World) (post_link : string) (Q : string -> string -> Prop)
    (m : M bool) : Prop :=
| Failed (r : outcome bool) (evs : list event) :
    runs_as m r evs -> r <> Ret true -> Forall no_ledger evs ->
    (r = Ret false -> Forall plain evs) ->
    (forall dir ok, In (RmTree dir ok) evs ->
       ok = false /\ has_saved evs /\
       exists e, r = Raise e /\ w_rmtree w dir = Some e /\ is_OSError (exn_kind e) = false) ->
    (has_saved evs -> exists dir, In (RmTree dir false) evs) ->
    verdict w post_link Q m
| Recorded (before : list event) (path : string) (pages : list image)
    (mid : list event) (dir : string) (ok : bool) (after : list event) :
    Q path dir ->
    Forall plain before -> Forall plain mid -> Forall plain after ->
    (w_rmtree w dir = None \/
     exists e, w_rmtree w dir = Some e /\ is_OSError (exn_kind e) = true) ->
    (forall s,
       m s = (Ret true,
              mk_state (if ok then append_text (ledger_file s) (post_link +++ NL)
                        else ledger_file s)
                       (processed_urls s)
                       (trace s ++ before ++ SavePdf path pages true :: mid
                          ++ rm_events w dir
                          ++ LedgerAppend (post_link +++ NL) ok :: after))) ->
    verdict w post_link Q m.

(** The end of the pipeline: remove the scratch directory, record the link,
    return [True]. *)
Definition pipeline_tail (w : World) (post_link dir : string) (done : string) : M bool :=
  except_OSError
    (effect (RmTree dir) (w_rmtree w dir) ;;
     logging INFO ("Removed temporary extraction directory: " +++ dir))
    ("Error removing temporary directory " +++ dir +++ ": ") ;;
  save_processed_chapter w post_link ;;
  logging INFO done ;;
  ret true.

Definition append_ok (w : World) (post_url : string) : bool :=
  match w_append w (post_url +++ NL) with None => true | Some _ => false end.

Definition save_log (w : World) (post_url : string) : event :=
  match w_append w (post_url +++ NL) with
  | None => Log INFO ("Saved URL to processed chapters file: " +++ post_url)
  | Some e => Log ERROR ("Error saving to processed chapters file: " +++ exn_str e)
  end.

(** ** A sample world for the chapter numbers *)


Definition entry_1502 : entry :=
  {| title := "Chapter 1502 release";
     link := "https://blog.example/ch-1502";
     published := 0 |}.

(** What happens before the archive is unpacked: logs, the two network
    calls, the pause and the listing of the fetcher. *)
Definition early (e : event) : Prop :=
  match e with
  | Log _ _ | HttpGet _ | MegaDownload _ _ | Sleep _ | ListDir _ => True
  | _ => False
  end.

(** ** Decimal numbers and the names of a chapter *)

(** The number that the digits of a [Decimal.uint] write, after [acc]. *)
Fixpoint uint_val (acc : Z) (d : Decimal.uint) : Z :=
  match d with
  | Decimal.Nil => acc
  | Decimal.D0 l => uint_val (10 * acc + 0) l
  | Decimal.D1 l => uint_val (10 * acc + 1) l
  | Decimal.D2 l => uint_val (10 * acc + 2) l
  | Decimal.D3 l => uint_val (10 * acc + 3) l
  | Decimal.D4 l => uint_val (10 * acc + 4) l
  | Decimal.D5 l => uint_val (10 * acc + 5) l
  | Decimal.D6 l => uint_val (10 * acc + 6) l
  | Decimal.D7 l => uint_val (10 * acc + 7) l
  | Decimal.D8 l => uint_val (10 * acc + 8) l
  | Decimal.D9 l => uint_val (10 * acc + 9) l
  end.

(** Every character of [s] passes the test [f]. *)
Fixpoint all_chars (f : ascii -> bool) (s : string) : bool :=
  match s with
  | EmptyString => true
  | String c r => f c && all_chars f r
  end.

Definition no_space (c : ascii) : bool := negb (PyStr.is_space c).


(** The number that a sign and digits write, whatever their length. *)
Definition signed_digits (s : string) : option Z :=
  match s with
  | String c r =>
      if Ascii.eqb c "-" then option_map Z.opp (PyStr.parse_digits 0 false r)
      else PyStr.parse_digits 0 false s
  | EmptyString => None
  end.

(** The output document and the scratch directory of a chapter. *)
Definition pdf_path (cfg : Config) (chapter_number : Z) : string :=
  OsPath.join (OUTPUT_PDF_DIR cfg)
    ("One Piece - " +++ PyStr.format_04d chapter_number +++ ".pdf").

Definition extract_dir (cfg : Config) (chapter_number : Z) : string :=
  OsPath.join (TEMP_DIR cfg) ("chapter_" +++ PyStr.of_Z chapter_number).


(** ** The lines of the ledger *)

(** A line as the reader of the file hands it over: no line break but,
    maybe, the one at its end. *)
Definition line_ok (l : string) : Prop :=
  exists body, (l = body +++ NL \/ l = body) /\
    PyStr.has_char LF body = false /\ PyStr.has_char CR body = false.

(** ** The first stages of the pipeline *)

(** What the resolver returns and what it logs after the request. *)
Definition resolved (w : World) (post_url : string) : outcome (option string) * list event :=
  match w_page w post_url with
  | Ret anchors =>
      match mega_links_of anchors with
      | first :: _ => (Ret (Some first), [Log INFO ("Found Mega.nz link: " +++ first)])
      | [] => (Ret None, [Log WARNING ("No Mega.nz link found on post: " +++ post_url)])
      end
  | Raise e =>
      if is_RequestException (exn_kind e)
      then (Ret None,
            [Log ERROR ("Error fetching post " +++ post_url +++ ": " +++ exn_str e)])
      else (Raise e, [])
  end.

(** An archive that cannot be unpacked. *)
Definition world_bad_archive : World :=
  {| w_page := fun _ => sample_page;
     w_mega := fun _ _ => Ret (Some "c1.rar"%string);
     w_fs_fetched := scratch "c1.rar" two_pages;
     w_makedirs := fun _ => None;
     w_extract := fun _ _ => Some (mk_exn BadRarFile "Failed the read enough data");
     w_fs_extracted := scratch "c1.rar" two_pages;
     w_remove := fun _ => None;
     w_save_pdf := fun _ _ => None;
     w_rmtree := fun _ => None;
     w_append := fun _ => None;
     w_read := None |}.

(** A scratch directory that cannot be created. *)
Definition world_read_only : World :=
  {| w_page := fun _ => sample_page;
     w_mega := fun _ _ => Ret (Some "c1.rar"%string);
     w_fs_fetched := scratch "c1.rar" two_pages;
     w_makedirs := fun _ => Some (mk_exn PermissionError "[Errno 13] Permission denied");
     w_extract := fun _ _ => None;
     w_fs_extracted := scratch "c1.rar" two_pages;
     w_remove := fun _ => None;
     w_save_pdf := fun _ _ => None;
     w_rmtree := fun _ => None;
     w_append := fun _ => None;
     w_read := None |}.

(** ** The feed watcher *)

(** [m] only adds to the trace, and every event it adds satisfies [P]. *)
Definition traces {A} (P : event -> Prop) (m : M A) : Prop :=
  forall s, exists evs, trace (snd (m s)) = trace s ++ evs /\ Forall P evs.

(** No page is fetched but that of [url]. *)
Definition fetches_only (url : string) (e : event) : Prop :=
  match e with HttpGet u => u = url | _ => True end.

(** The three tests of the loop body of [watch_rss_feed]: the entry is not
    older than [MAX_AGE_HOURS], its title holds the keyword, and its link
    is not in [processed_urls].  No entry passes the first test when
    [MAX_AGE_HOURS] is more than a [timedelta] holds. *)
Definition recent (cfg : Config) (e : entry) (m : meeting) : bool :=
  match timedelta_hours (MAX_AGE_HOURS cfg) with
  | Ret max_age => negb (max_age <? now m - published e)
  | Raise _ => false
  end.

Definition announces (cfg : Config) (e : entry) : bool :=
  PyStr.contains (PyStr.lower (CHAPTER_KEYWORD cfg)) (PyStr.lower (title e)).

Definition eligible (cfg : Config) (e : entry) (m : meeting) (s : state) : bool :=
  recent cfg e m && announces cfg e && negb (bool_decide (link e ∈ processed_urls s)).

(** The file after the lines of [links] were appended to it. *)
Definition with_links (f : option string) (links : list string) : option string :=
  fold_left append_text (map (fun l => l +++ NL) links) f.

(** What the watcher may do to its state: add to the trace, add links to
    the set in memory, and append to the file lines that hold links of the
    set in memory. *)
Definition advances (s s' : state) : Prop :=
  (exists evs, trace s' = trace s ++ evs) /\
  processed_urls s ⊆ processed_urls s' /\
  exists links,
    ledger_file s' = with_links (ledger_file s) links /\
    Forall (fun l => l ∈ processed_urls s') links.

(** [m] advances the state, whatever the state. *)
Definition steady {A} (m : M A) : Prop := forall s, advances s (snd (m s)).

(** [m], run from a state whose set holds [l], keeps [l] in the set and
    does not fetch the page of [l]. *)
Definition skips {A} (l : string) (m : M A) : Prop :=
  forall s, l ∈ processed_urls s ->
    l ∈ processed_urls (snd (m s)) /\
    exists evs, trace (snd (m s)) = trace s ++ evs /\ ~ In (HttpGet l) evs.

(** A page that cannot be fetched, for a reason that is not a
    [RequestException]. *)
Definition world_broken : World :=
  world_of (Raise (mk_exn OtherException "boom"))
           (Ret (Some "c1.rar"%string))
           (scratch "c1.rar" two_pages) (scratch "c1.rar" two_pages) None.

(** A world whose processed-chapters file cannot be read. *)
Definition world_unreadable : World :=
  {| w_page := fun _ => Ret [];
     w_mega := fun _ _ => Ret None;
     w_fs_fetched := Dir 0 [];
     w_makedirs := fun _ => None;
     w_extract := fun _ _ => None;
     w_fs_extracted := Dir 0 [];
     w_remove := fun _ => None;
     w_save_pdf := fun _ _ => None;
     w_rmtree := fun _ => None;
     w_append := fun _ => None;
     w_read := Some (mk_exn PermissionError "[Errno 13] Permission denied") |}.

(** What [load_processed_chapters] returns. *)
Definition loaded_urls (w : World) (f : option string) : gset string :=
  match f, w_read w with
  | Some text, None => parse_ledger text
  | _, _ => ∅
  end.

(** What the pause at the end of a turn answers: an interval below zero is
    refused by [time.sleep], any other by the platform or not at all. *)
Definition pause_outcome (cfg : Config) (t : turn) : outcome unit :=
  if CHECK_INTERVAL_MINUTES cfg <? 0
  then Raise (mk_exn ValueError "sleep length must be non-negative")
  else match t_pause t with
       | Some e => Raise e
       | None => Ret tt
       end.

(** The first pause that fails, over the turns of the loop. *)
Fixpoint pauses (cfg : Config) (turns : list turn) : outcome unit :=
  match turns with
  | [] => Ret tt
  | t :: r =>
      match pause_outcome cfg t with
      | Ret _ => pauses cfg r
      | Raise e => Raise e
      end
  end.


(** A turn whose pause is taken. *)
Definition quiet_turn (feed : outcome (list (entry * meeting))) : turn :=
  mk_turn feed None.

(** ** The pipeline when a step fails *)

(** The access error of the fetcher, in a directory that is gone. *)
Definition world_vanished : World :=
  world_of sample_page
    (Raise (mk_exn PermissionError
       "[WinError 32] The process cannot access the file because it is being used by another process"))
    (Dir 0 []) (Dir 0 []) None.

(** Events of the stages that neither fetch a page nor touch the ledger. *)
Definition inner (e : event) : Prop :=
  match e with HttpGet _ | LedgerAppend _ _ => False | _ => True end.

(** The only append to the ledger is that of the post, and it is marked as
    the world answered it. *)
Definition appends_only (w : World) (post_url : string) (e : event) : Prop :=
  match e with
  | LedgerAppend line ok => line = post_url +++ NL /\ ok = append_ok w post_url
  | _ => True
  end.

(** A ledger that cannot be written, in a world where all else goes
    through. *)
Definition world_no_ledger : World :=
  {| w_page := fun _ => sample_page;
     w_mega := fun _ _ => Ret (Some "c1.rar"%string);
     w_fs_fetched := scratch "c1.rar" two_pages;
     w_makedirs := fun _ => None;
     w_extract := fun _ _ => None;
     w_fs_extracted := scratch "c1.rar" two_pages;
     w_remove := fun _ => None;
     w_save_pdf := fun _ _ => None;
     w_rmtree := fun _ => None;
     w_append := fun _ => Some (mk_exn PermissionError "[Errno 13] Permission denied");
     w_read := None |}.


(** An archive that cannot be removed. *)
Definition world_sticky_archive : World :=
  {| w_page := fun _ => sample_page;
     w_mega := fun _ _ => Ret (Some "c1.rar"%string);
     w_fs_fetched := scratch "c1.rar" two_pages;
     w_makedirs := fun _ => None;
     w_extract := fun _ _ => None;
     w_fs_extracted := scratch "c1.rar" two_pages;
     w_remove := fun _ => Some (mk_exn PermissionError "[WinError 32] in use");
     w_save_pdf := fun _ _ => None;
     w_rmtree := fun _ => None;
     w_append := fun _ => None;
     w_read := None |}.

(** Any event. *)
Definition any_event (e : event) : Prop := True.

(** ** What [download_file] meets *)

(** The announced length is absent, or [int] reads it. *)
Definition length_read (r : Response) : Prop :=
  match content_length r with
  | Some h => exists total_size, PyStr.int h = Some total_size
  | None => True
  end.

(** Every stage of a download goes through: the request, the status, the
    announced length, the opening of the destination, every write and the
    whole stream. *)
Definition completes (n : Net) (url destination_path : string) (r : Response) : Prop :=
  n_get n url = Ret r /\ status_error r = None /\ length_read r /\
  n_open n destination_path = None /\
  Forall (fun c => n_write n c = None) (chunks r) /\
  stream_error r = None.

(** The first stage of a download that fails: what it raises, and what the
    destination holds then, [before] being what it held. *)
Inductive first_error (n : Net) (url destination_path : string) (before : option string)
  : exn -> option string -> Prop :=
| error_get e :
    n_get n url = Raise e ->
    first_error n url destination_path before e before
| error_status r e :
    n_get n url = Ret r -> status_error r = Some e ->
    first_error n url destination_path before e before
| error_length r h :
    n_get n url = Ret r -> status_error r = None ->
    content_length r = Some h -> PyStr.int h = None ->
    first_error n url destination_path before (mk_exn ValueError (int_error h)) before
| error_open r e :
    n_get n url = Ret r -> status_error r = None -> length_read r ->
    n_open n destination_path = Some e ->
    first_error n url destination_path before e before
| error_write r written c rest e :
    n_get n url = Ret r -> status_error r = None -> length_read r ->
    n_open n destination_path = None ->
    chunks r = written ++ c :: rest ->
    Forall (fun c => n_write n c = None) written -> n_write n c = Some e ->
    first_error n url destination_path before e (Some (glue written))
| error_stream r e :
    n_get n url = Ret r -> status_error r = None -> length_read r ->
    n_open n destination_path = None ->
    Forall (fun c => n_write n c = None) (chunks r) ->
    stream_error r = Some e ->
    first_error n url destination_path before e (Some (glue (chunks r))).

(** ** Sample responses for [download_file] *)

(** A network that answers [r], over a disk that takes every write. *)
Definition net_of (r : outcome Response) : Net :=
  {| n_get := fun _ => r; n_open := fun _ => None; n_write := fun _ => None |}.

(** A body of three bytes announced as a hundred. *)
Definition short_response : Response :=
  {| status_error := None; content_length := Some "100"%string;
     chunks := ["ab"; "c"]%string; stream_error := None |}.

(** A connection that breaks after two chunks. *)
Definition broken_response : Response :=
  {| status_error := None; content_length := Some "100"%string;
     chunks := ["ab"; "c"]%string;
     stream_error := Some (mk_exn RequestException "Connection broken") |}.

(* ===================================================================== *)
(** * The string and path functions on examples *)
(* ===================================================================== *)

Example int_examples :
  PyStr.int "1502" = Some 1502 /\ PyStr.int " 007 " = Some 7 /\
  PyStr.int "1_000" = Some 1000 /\ PyStr.int "-12" = Some (-12) /\
  PyStr.int EmptyString = None /\ PyStr.int "1__0" = None /\ PyStr.int "12_" = None /\
  PyStr.int "/tmp/1" = None /\ PyStr.int "+ 1" = None.
Proof. repeat split; reflexivity. Qed.

(** [int] drops the white space of its own list, not the separators 28 to
    31 that [str.strip] drops. *)
Example int_space_examples :
  PyStr.int (String "133" (" 12" +++ String "160" (String "010" EmptyString))) = Some 12 /\
  PyStr.int (String "028" "12") = None /\
  PyStr.int ("12" +++ String "031" EmptyString) = None /\
  PyStr.strip (String "028" "12") = "12"%string /\
  sort_key ("c1_p" +++ String "028" "2.jpg") = KStr ("c1_p" +++ String "028" "2.jpg").
Proof. repeat split; reflexivity. Qed.

(** The limit of [int] bears on the digits, whatever they write. *)
Example int_limit_examples :
  PyStr.int (PyStr.zeros 4300) = Some 0 /\
  PyStr.int (PyStr.zeros 4301) = None /\
  PyStr.int ("-" +++ PyStr.zeros 4300 +++ " ") = Some 0 /\
  PyStr.int (PyStr.zeros 2000 +++ "_" +++ PyStr.zeros 2300) = Some 0 /\
  PyStr.int (PyStr.zeros 2000 +++ "_" +++ PyStr.zeros 2301) = None /\
  fst (get_chapter_number_from_filename ("c" +++ PyStr.zeros 4301 +++ "1.rar") initial)
    = Ret None /\
  trace (snd (get_chapter_number_from_filename ("c" +++ PyStr.zeros 4301 +++ "1.rar") initial))
    = [Log ERROR ("Could not extract chapter number from c" +++ PyStr.zeros 4301 +++ "1.rar: "
                  +++ "Exceeds the limit (4300 digits) for integer string conversion: "
                  +++ "value has 4302 digits; use sys.set_int_max_str_digits() "
                  +++ "to increase the limit")].
Proof. repeat split; vm_compute; reflexivity. Qed.

(** The messages of [int]. *)
Example int_error_examples :
  int_error (PyStr.zeros 4301 +++ String "178" EmptyString)
    = ("Exceeds the limit (4300 digits) for integer string conversion: "
       +++ "value has 4301 digits; use sys.set_int_max_str_digits() to increase the limit") /\
  int_error (PyStr.zeros 4301 +++ "_1")
    = ("Exceeds the limit (4300 digits) for integer string conversion: "
       +++ "value has 4302 digits; use sys.set_int_max_str_digits() to increase the limit") /\
  int_error (PyStr.zeros 4301 +++ "__1")
    = ("invalid literal for int() with base 10: '" +++ PyStr.zeros 199) /\
  int_error ("_" +++ PyStr.zeros 4301)
    = ("invalid literal for int() with base 10: '_" +++ PyStr.zeros 198) /\
  int_error (String "178" EmptyString)
    = ("invalid literal for int() with base 10: '" +++ String "178" "'") /\
  int_error "  " = "invalid literal for int() with base 10: '  '"%string /\
  int_error "a'b"
    = ("invalid literal for int() with base 10: "
       +++ String "034" ("a'b" +++ String "034" EmptyString)) /\
  int_error ("a" +++ String "034" "b")
    = ("invalid literal for int() with base 10: 'a" +++ String "034" "b'") /\
  int_error ("a'b" +++ String "034" "c")
    = ("invalid literal for int() with base 10: 'a\'b" +++ String "034" "c'") /\
  int_error ("a\b" +++ String "009" (String "010" (String "013" (String "000"
               (String "028" (String "127" (String "128" (String "133" (String "160"
               (String "161" (String "173" (String "174" (String "255" EmptyString)))))))))))))
    = ("invalid literal for int() with base 10: 'a\\b\t\n\r\x00\x1c\x7f\x80\x85\xa0"
       +++ String "161" ("\xad" +++ String "174" (String "255" "'"))).
Proof. repeat split; vm_compute; reflexivity. Qed.

Example split_p_examples :
  PyStr.split_p "c1502_p01" = ["c1502"; "01"]%string /\
  PyStr.split_p "a_pb_pc" = ["a"; "b"; "c"]%string /\
  PyStr.split_p "_p" = [EmptyString; EmptyString] /\
  PyStr.split_p "plain" = ["plain"]%string.
Proof. repeat split; reflexivity. Qed.

Example readlines_examples :
  PyStr.readlines (String.append "a" (String "010" (String.append "b" (String "013" (String "010" "c"))))) =
    [String "a" (String "010" EmptyString);
     String "b" (String "010" EmptyString); "c"]%string.
Proof. reflexivity. Qed.

Example format_examples :
  PyStr.format_04d 7 = "0007"%string /\ PyStr.format_04d 1502 = "1502"%string /\
  PyStr.format_04d 12345 = "12345"%string /\ PyStr.of_Z 1502 = "1502"%string.
Proof. repeat split; reflexivity. Qed.

(** On bare file names the keys are pairs or strings, and a listing that
    mixes the two kinds cannot be sorted. *)
Example sorted_on_names :
  sorted sort_key ["c1_p10.jpg"; "c1_p2.jpg"; "c1_p1.jpg"]%string
    = Ret ["c1_p1.jpg"; "c1_p2.jpg"; "c1_p10.jpg"]%string /\
  sorted sort_key ["c1_p10.jpg"; "cover.jpg"]%string
    = Raise (mk_exn TypeError "'<' not supported between instances of 'str' and 'tuple'").
Proof. split; reflexivity. Qed.

Example chapter_number_examples :
  fst (get_chapter_number_from_filename "c1502.rar" initial) = Ret (Some 1502) /\
  fst (get_chapter_number_from_filename "c007.rar" initial) = Ret (Some 7) /\
  fst (get_chapter_number_from_filename "c.rar" initial) = Ret None /\
  fst (get_chapter_number_from_filename "ch12.rar" initial) = Ret None /\
  fst (get_chapter_number_from_title "Chapter 1502 (v2)" initial) = Ret (Some 1502) /\
  fst (get_chapter_number_from_title "no number" initial) = Ret None /\
  PyStr.format_04d 0 = "0000"%string.
Proof. repeat split; reflexivity. Qed.

Example join_examples :
  OsPath.join "/srv/temp_downloads" "c1502.rar" = "/srv/temp_downloads/c1502.rar"%string /\
  OsPath.join "/srv/" "x" = "/srv/x"%string /\
  OsPath.join EmptyString "x" = "x"%string /\
  OsPath.join "/srv" "/abs" = "/abs"%string.
Proof. repeat split; reflexivity. Qed.

Example splitext_examples :
  OsPath.splitext "c1502.rar" = ("c1502", ".rar")%string /\
  OsPath.splitext "/a.b/c1_p2" = ("/a.b/c1_p2"%string, EmptyString) /\
  OsPath.splitext "/tmp/.hidden" = ("/tmp/.hidden"%string, EmptyString) /\
  OsPath.splitext "/tmp/..a.jpg" = ("/tmp/..a", ".jpg")%string /\
  OsPath.splitext "a.tar.gz" = ("a.tar", ".gz")%string.
Proof. repeat split; reflexivity. Qed.

Example components_examples :
  OsPath.components "/srv//temp_downloads/./chapter_7/" =
    ["srv"; "temp_downloads"; "chapter_7"]%string.
Proof. reflexivity. Qed.

(* ===================================================================== *)
(** * Facts about strings and paths *)
(* ===================================================================== *)

Section StringFacts.

Import PyStr OsPath.

Lemma append_empty_r (s : string) : s +++ EmptyString = s.
Proof. induction s; simpl; congruence. Qed.

Lemma append_assoc (a b c : string) : (a +++ b) +++ c = a +++ (b +++ c).
Proof. induction a; simpl; congruence. Qed.

Lemma has_char_app (c : ascii) (a b : string) :
  has_char c (a +++ b) = has_char c a || has_char c b.
Proof.
  induction a as [|x a IH]; simpl; [reflexivity|].
  rewrite IH. apply orb_assoc.
Qed.

Lemma eqb_string_eq (a b : string) : String.eqb a b = true <-> a = b.
Proof. apply String.eqb_eq. Qed.

Lemma startswith_has_char (c : ascii) (s : string) :
  startswith (String c EmptyString) s = true -> has_char c s = true.
Proof.
  destruct s as [|a s]; simpl; [discriminate|].
  rewrite andb_true_r. intros H. apply Ascii.eqb_eq in H. subst.
  now rewrite Ascii.eqb_refl.
Qed.

Lemma endswith_split (p s : string) :
  endswith p s = true -> exists pre, s = pre +++ p.
Proof.
  induction s as [|a s IH]; simpl.
  - intros H. apply eqb_string_eq in H. subst. now exists EmptyString.
  - intros H. apply orb_true_iff in H as [H|H].
    + apply eqb_string_eq in H. subst. now exists EmptyString.
    + destruct (IH H) as [pre ->]. now exists (String a pre).
Qed.

(** A joined path holds a separator as soon as the directory is named. *)
Lemma join_has_sep (a b : string) :
  a <> EmptyString -> has_char sep (join a b) = true.
Proof.
  intros Ha. unfold join.
  destruct (startswith (String sep EmptyString) b) eqn:Hb.
  - now apply startswith_has_char.
  - destruct (String.eqb a EmptyString) eqn:Ea.
    + apply eqb_string_eq in Ea. contradiction.
    + simpl. destruct (endswith (String sep EmptyString) a) eqn:Ee.
      * apply endswith_split in Ee as [pre ->].
        rewrite !has_char_app. simpl. now rewrite orb_true_r.
      * rewrite has_char_app. simpl. now rewrite orb_true_r.
Qed.

Lemma has_char_take_le (c : ascii) (n m : nat) (s : string) :
  (n <= m)%nat -> has_char c (take n s) = true -> has_char c (take m s) = true.
Proof.
  revert m s. induction n as [|n IH]; intros m s Hle; simpl; [discriminate|].
  destruct s as [|a s]; [discriminate|].
  destruct m as [|m]; [lia|]. simpl.
  intros H. apply orb_true_iff in H as [H|H].
  - now rewrite H.
  - rewrite (IH m s); [apply orb_true_r | lia | exact H].
Qed.

(** [rfind] finds nothing ([-1]) or the position of an occurrence. *)
Lemma rfind_from_spec (c : ascii) (s : string) (i : Z) :
  0 <= i ->
  let k := rfind_from c i s in
  (k = -1 /\ has_char c s = false) \/
  (i <= k /\ has_char c (take (S (Z.to_nat (k - i))) s) = true).
Proof.
  revert i. induction s as [|a s IH]; intros i Hi; simpl.
  - left. split; reflexivity.
  - specialize (IH (i + 1) ltac:(lia)). simpl in IH.
    destruct IH as [[Hk Hn]|[Hk Hh]].
    + rewrite Hk. simpl. destruct (Ascii.eqb a c) eqn:E.
      * right. split; [lia|]. replace (i - i) with 0 by lia. reflexivity.
      * left. now rewrite Hn.
    + destruct (0 <=? rfind_from c (i + 1) s) eqn:E; [|apply Z.leb_gt in E; lia].
      right. split; [lia|].
      replace (Z.to_nat (rfind_from c (i + 1) s - i))
        with (S (Z.to_nat (rfind_from c (i + 1) s - (i + 1)))) by lia.
      change (take (S (S ?n)) (String a s)) with (String a (take (S n) s)).
      simpl has_char. simpl in Hh. rewrite Hh. apply orb_true_r.
Qed.

(** The root that [splitext] returns keeps every separator of the path. *)
Lemma splitext_root_has_sep (p : string) :
  has_char sep p = true -> has_char sep (fst (splitext p)) = true.
Proof.
  intros Hp. unfold splitext.
  destruct (rfind sep p <? rfind "." p) eqn:Hlt; [|exact Hp].
  destruct (all_dots _); [exact Hp|]. simpl.
  apply Z.ltb_lt in Hlt.
  destruct (rfind_from_spec sep p 0 ltac:(lia)) as [[_ Hn]|[Hk Hh]].
  - congruence.
  - fold (rfind sep p) in Hk, Hh.
    eapply has_char_take_le; [|exact Hh]. lia.
Qed.

Lemma split_p_nonempty (s : string) : split_p s <> [].
Proof.
  destruct s as [|c [|d r]]; simpl; try discriminate.
  destruct (Ascii.eqb c "_" && Ascii.eqb d "p"); [discriminate|].
  unfold cons_head. destruct (match r with EmptyString => _ | String _ _ => _ end);
    discriminate.
Qed.

Lemma join_p_cons_head (c : ascii) (l : list string) :
  l <> [] -> join_p (cons_head c l) = String c (join_p l).
Proof. destruct l as [|h [|h' t]]; simpl; congruence. Qed.

(** Splitting at [_p] loses nothing: gluing the pieces gives the string. *)
Lemma split_p_join (s : string) : join_p (split_p s) = s.
Proof.
  assert (H : forall n s, (String.length s <= n)%nat -> join_p (split_p s) = s).
  { clear s. induction n as [|n IH]; intros s Hn.
    - destruct s; [reflexivity | simpl in Hn; lia].
    - destruct s as [|c r]; [reflexivity|].
      simpl in Hn. assert (Hr : join_p (split_p r) = r) by (apply IH; lia).
      destruct r as [|d r'].
      + reflexivity.
      + change (split_p (String c (String d r')))
          with (if Ascii.eqb c "_" && Ascii.eqb d "p" then EmptyString :: split_p r'
                else cons_head c (split_p (String d r'))).
        destruct (Ascii.eqb c "_" && Ascii.eqb d "p") eqn:E.
        * apply andb_true_iff in E as [E1 E2].
          apply Ascii.eqb_eq in E1, E2. subst.
          assert (Hr' : join_p (split_p r') = r') by (apply IH; simpl in Hn; lia).
          pose proof (split_p_nonempty r') as Hne.
          destruct (split_p r') as [|x t] eqn:Es; [contradiction|].
          change (join_p (EmptyString :: x :: t)) with ("_p" +++ join_p (x :: t)).
          now rewrite Hr'.
        * rewrite join_p_cons_head by apply split_p_nonempty. now rewrite Hr. }
  apply (H (String.length s)). lia.
Qed.

Lemma has_char_remove_char (c x : ascii) (s : string) :
  Ascii.eqb c x = false ->
  has_char c (remove_char x s) = has_char c s.
Proof.
  intros Hne. induction s as [|a s IH]; simpl; [reflexivity|].
  destruct (Ascii.eqb a x) eqn:E.
  - apply Ascii.eqb_eq in E. subst. rewrite IH.
    rewrite Ascii.eqb_sym, Hne. reflexivity.
  - simpl. now rewrite IH.
Qed.

Lemma has_char_lstrip (c : ascii) (s : string) :
  is_space c = false -> has_char c (lstrip s) = has_char c s.
Proof.
  intros Hc. induction s as [|a s IH]; simpl; [reflexivity|].
  destruct (is_space a) eqn:Ea; [|reflexivity].
  rewrite IH. destruct (Ascii.eqb a c) eqn:E; [|reflexivity].
  apply Ascii.eqb_eq in E. congruence.
Qed.

Lemma rstrip_empty_has_char (c : ascii) (s : string) :
  is_space c = false -> rstrip s = EmptyString -> has_char c s = false.
Proof.
  intros Hc. induction s as [|a s IH]; simpl; [reflexivity|].
  destruct (rstrip s) eqn:Er; [|discriminate].
  destruct (is_space a) eqn:Ea; [|discriminate].
  intros _. rewrite IH by reflexivity.
  destruct (Ascii.eqb a c) eqn:E; [|reflexivity].
  apply Ascii.eqb_eq in E. congruence.
Qed.

Lemma has_char_rstrip (c : ascii) (s : string) :
  is_space c = false -> has_char c (rstrip s) = has_char c s.
Proof.
  intros Hc. induction s as [|a s IH]; simpl; [reflexivity|].
  destruct (rstrip s) eqn:Er.
  - rewrite (rstrip_empty_has_char c s Hc Er).
    destruct (is_space a) eqn:Ea; simpl.
    + destruct (Ascii.eqb a c) eqn:E; [|reflexivity].
      apply Ascii.eqb_eq in E. congruence.
    + reflexivity.
  - simpl in *. now rewrite IH.
Qed.

Lemma has_char_strip (c : ascii) (s : string) :
  is_space c = false -> has_char c (strip s) = has_char c s.
Proof.
  intros Hc. unfold strip. now rewrite has_char_rstrip, has_char_lstrip.
Qed.

Lemma parse_digits_sep (s : string) (acc : Z) (prev : bool) :
  has_char sep s = true -> parse_digits acc prev s = None.
Proof.
  revert acc prev. induction s as [|a s IH]; intros acc prev; simpl; [discriminate|].
  destruct (Ascii.eqb a sep) eqn:E.
  - apply Ascii.eqb_eq in E. subst. reflexivity.
  - simpl. intros H. destruct (is_decimal a); [now apply IH|].
    destruct (Ascii.eqb a "_" && prev); [now apply IH | reflexivity].
Qed.

Lemma has_char_int_lstrip (c : ascii) (s : string) :
  is_int_space c = false -> has_char c (int_lstrip s) = has_char c s.
Proof.
  intros Hc. induction s as [|a s IH]; simpl; [reflexivity|].
  destruct (is_int_space a) eqn:Ea; [|reflexivity].
  rewrite IH. destruct (Ascii.eqb a c) eqn:E; [|reflexivity].
  apply Ascii.eqb_eq in E. congruence.
Qed.

Lemma int_rstrip_empty_has_char (c : ascii) (s : string) :
  is_int_space c = false -> int_rstrip s = EmptyString -> has_char c s = false.
Proof.
  intros Hc. induction s as [|a s IH]; simpl; [reflexivity|].
  destruct (int_rstrip s) eqn:Er; [|discriminate].
  destruct (is_int_space a) eqn:Ea; [|discriminate].
  intros _. rewrite IH by reflexivity.
  destruct (Ascii.eqb a c) eqn:E; [|reflexivity].
  apply Ascii.eqb_eq in E. congruence.
Qed.

Lemma has_char_int_rstrip (c : ascii) (s : string) :
  is_int_space c = false -> has_char c (int_rstrip s) = has_char c s.
Proof.
  intros Hc. induction s as [|a s IH]; simpl; [reflexivity|].
  destruct (int_rstrip s) eqn:Er.
  - rewrite (int_rstrip_empty_has_char c s Hc Er).
    destruct (is_int_space a) eqn:Ea; simpl.
    + destruct (Ascii.eqb a c) eqn:E; [|reflexivity].
      apply Ascii.eqb_eq in E. congruence.
    + reflexivity.
  - simpl in *. now rewrite IH.
Qed.

(** [int] rejects every string that holds a separator. *)
Lemma int_sep (s : string) : has_char sep s = true -> int s = None.
Proof.
  intros H. unfold int. destruct (over_limit s); [reflexivity|].
  rewrite <- (has_char_int_lstrip sep s), <- (has_char_int_rstrip sep) in H by reflexivity.
  destruct (int_rstrip (int_lstrip s)) as [|c r]; [reflexivity|].
  destruct (Ascii.eqb c "-") eqn:E1.
  - apply Ascii.eqb_eq in E1. subst. simpl in H.
    now rewrite parse_digits_sep.
  - destruct (Ascii.eqb c "+") eqn:E2.
    + apply Ascii.eqb_eq in E2. subst. simpl in H. now apply parse_digits_sep.
    + now apply parse_digits_sep.
Qed.

End StringFacts.

(** ** The sort key of a path *)

(** Whenever the argument of [sort_key] holds a separator, the key is the
    argument itself: the text before [_p] or the text after it holds the
    separator, and [int] rejects it. *)
Lemma sort_key_of_path (p : string) :
  PyStr.has_char OsPath.sep p = true -> sort_key p = KStr p.
Proof.
  intros Hp. unfold sort_key.
  pose proof (splitext_root_has_sep p Hp) as Hroot.
  pose proof (split_p_join (fst (OsPath.splitext p))) as Hj.
  destruct (PyStr.split_p (fst (OsPath.splitext p))) as [|a [|b [|c l]]]; try reflexivity.
  simpl in Hj. rewrite <- Hj in Hroot.
  rewrite !has_char_app in Hroot. simpl in Hroot.
  apply orb_true_iff in Hroot as [Ha|Hb].
  - rewrite int_sep; [reflexivity|].
    rewrite has_char_remove_char; [exact Ha | reflexivity].
  - rewrite (int_sep b Hb). now destruct (PyStr.int _).
Qed.

(** [images_to_pdf] sorts joined paths, so every key is a string. *)
Lemma sort_key_joined (image_folder f : string) :
  image_folder <> EmptyString ->
  sort_key (OsPath.join image_folder f) = KStr (OsPath.join image_folder f).
Proof. intros H. apply sort_key_of_path. now apply join_has_sep. Qed.

(* ===================================================================== *)
(** * Facts about [sorted] *)
(* ===================================================================== *)

Lemma leb_ltb (a b : string) : String.leb a b = negb (String.ltb b a).
Proof.
  unfold String.leb, String.ltb. rewrite (String.compare_antisym b a).
  now destruct (String.compare a b).
Qed.

Lemma ltb_leb (a b : string) : String.ltb a b = true -> String.leb a b = true.
Proof. unfold String.leb, String.ltb. now destruct (String.compare a b). Qed.

Lemma str_le_refl (a : string) : str_le a a.
Proof.
  unfold str_le, String.leb.
  assert (H : String.compare a a = Eq) by now apply OrderedTypeEx.String_as_OT.cmp_eq.
  now rewrite H.
Qed.

Lemma str_le_cases (a b : string) :
  str_le a b <-> OrderedTypeEx.String_as_OT.lt a b \/ a = b.
Proof.
  unfold str_le, String.leb. split.
  - destruct (String.compare a b) eqn:E; intros H; try discriminate.
    + right. now apply OrderedTypeEx.String_as_OT.cmp_eq.
    + left. now apply OrderedTypeEx.String_as_OT.cmp_lt.
  - intros [H| ->].
    + apply OrderedTypeEx.String_as_OT.cmp_lt in H.
      unfold OrderedTypeEx.String_as_OT.cmp in H. now rewrite H.
    + apply str_le_refl.
Qed.

Lemma str_le_trans (a b c : string) : str_le a b -> str_le b c -> str_le a c.
Proof.
  rewrite !str_le_cases. intros [H1| ->] [H2| ->]; auto.
  left. eapply OrderedTypeEx.String_as_OT.lt_trans; eauto.
Qed.

(** Prefixing both strings does not change how they compare. *)
Lemma compare_app (p a b : string) :
  String.compare (p +++ a) (p +++ b) = String.compare a b.
Proof.
  induction p as [|c p IH]; simpl; [reflexivity|].
  assert (H : Ascii.compare c c = Eq).
  { unfold Ascii.compare. apply N.compare_refl. }
  now rewrite H.
Qed.

Section SortedByStrings.

Context {A : Type} (k : A -> key) (str : A -> string).

Lemma insert_sorted_str (x : A) (l : list A) :
  k x = KStr (str x) ->
  Forall (fun y => k y = KStr (str y)) l ->
  exists l', insert_sorted k x l = Ret l' /\ Permutation l' (x :: l) /\
             (StronglySorted (by_str str) l -> StronglySorted (by_str str) l').
Proof.
  intros Hx. induction l as [|y r IH]; intros Hl.
  - exists [x]. repeat split; auto. intros _. repeat constructor.
  - inversion Hl as [|? ? Hy Hr]; subst.
    destruct (IH Hr) as (r' & Hins & Hperm & Hsorted).
    simpl. rewrite Hy, Hx. simpl.
    destruct (String.ltb (str y) (str x)) eqn:E.
    + rewrite Hins. exists (y :: r'). split; [reflexivity|]. split.
      * rewrite Hperm. apply perm_swap.
      * intros Hs. inversion Hs as [|? ? Hs' Hall]; subst.
        constructor; [now apply Hsorted|].
        eapply Permutation_Forall; [symmetry; exact Hperm|].
        constructor; [|exact Hall]. apply ltb_leb, E.
    + exists (x :: y :: r). split; [reflexivity|]. split; [reflexivity|].
      intros Hs. constructor; [exact Hs|].
      assert (Hxy : by_str str x y).
      { unfold by_str, str_le. rewrite leb_ltb, E. reflexivity. }
      constructor; [exact Hxy|].
      inversion Hs as [|? ? _ Hall]; subst.
      eapply List.Forall_impl; [|exact Hall].
      intros z Hz. eapply str_le_trans; eauto.
Qed.

(** When every key is a string, [sorted] raises nothing and returns the
    elements in ascending order of their keys. *)
Lemma sorted_str (l : list A) :
  Forall (fun y => k y = KStr (str y)) l ->
  exists l', sorted k l = Ret l' /\ Permutation l' l /\ StronglySorted (by_str str) l'.
Proof.
  induction l as [|x r IH]; intros Hl.
  - exists []. repeat split; auto. constructor.
  - inversion Hl as [|? ? Hx Hr]; subst.
    destruct (IH Hr) as (r' & Hs & Hperm & Hsorted).
    destruct (insert_sorted_str x r' Hx) as (l' & Hins & Hperm' & Hsorted').
    { eapply Permutation_Forall; [symmetry; exact Hperm | exact Hr]. }
    exists l'. simpl. rewrite Hs. split; [exact Hins|]. split.
    + rewrite Hperm'. now constructor.
    + auto.
Qed.

End SortedByStrings.

Section SortedInGeneral.

Context {A : Type} (k : A -> key).

Lemma key_lt_ret (a b : key) (r : bool) :
  key_lt a b = Ret r -> is_tuple a = is_tuple b.
Proof. destruct a, b; simpl; intros H; now inversion H. Qed.

Lemma insert_sorted_perm (x : A) (l l' : list A) :
  insert_sorted k x l = Ret l' -> Permutation l' (x :: l).
Proof.
  revert l'. induction l as [|y r IH]; intros l'; simpl.
  - intros [= <-]. reflexivity.
  - destruct (key_lt (k y) (k x)) as [[|]|e]; try discriminate.
    + destruct (insert_sorted k x r) as [r'|e]; try discriminate.
      intros [= <-]. rewrite (IH r' eq_refl). apply perm_swap.
    + intros [= <-]. reflexivity.
Qed.

Lemma sorted_perm (l l' : list A) : sorted k l = Ret l' -> Permutation l' l.
Proof.
  revert l'. induction l as [|x r IH]; intros l'; simpl.
  - intros [= <-]. reflexivity.
  - destruct (sorted k r) as [r'|e]; try discriminate.
    intros H. apply insert_sorted_perm in H. rewrite H. constructor. now apply IH.
Qed.

(** When [sorted] returns, all the keys were of one kind. *)
Lemma sorted_ret_one_kind (l l' : list A) :
  sorted k l = Ret l' ->
  forall x y, In x l -> In y l -> is_tuple (k x) = is_tuple (k y).
Proof.
  revert l'. induction l as [|x0 r IH]; intros l'; simpl; [contradiction|].
  destruct (sorted k r) as [r'|e] eqn:Er; try discriminate.
  intros Hins.
  assert (Hhead : forall y, In y r -> is_tuple (k x0) = is_tuple (k y)).
  { intros y Hy. pose proof (sorted_perm r r' Er) as Hp.
    destruct r' as [|y0 t].
    - apply Permutation_nil in Hp. subst. contradiction.
    - simpl in Hins.
      destruct (key_lt (k y0) (k x0)) as [b|e] eqn:Ek; try discriminate.
      apply key_lt_ret in Ek. rewrite <- Ek.
      apply (IH (y0 :: t) eq_refl).
      + eapply Permutation_in; [exact Hp | now left].
      + exact Hy. }
  intros x y [<-|Hx] [<-|Hy]; auto.
  - symmetry. auto.
  - eapply IH; eauto.
Qed.

(** A list that holds both kinds of keys cannot be sorted: comparing a pair
    with a string is a [TypeError]. *)
Lemma sorted_mixed_raises (l : list A) (x y : A) :
  In x l -> In y l -> is_tuple (k x) = true -> is_tuple (k y) = false ->
  exists e, sorted k l = Raise e.
Proof.
  intros Hx Hy Kx Ky. destruct (sorted k l) as [l'|e] eqn:E; [|eauto].
  pose proof (sorted_ret_one_kind l l' E x y Hx Hy) as H. congruence.
Qed.

End SortedInGeneral.

(** The sort of [images_to_pdf]. *)
Lemma sorted_paths (image_folder : string) (image_files : list string) :
  image_folder <> EmptyString ->
  exists image_paths,
    sorted sort_key (map (OsPath.join image_folder) image_files) = Ret image_paths /\
    Permutation image_paths (map (OsPath.join image_folder) image_files) /\
    StronglySorted str_le image_paths.
Proof.
  intros Hne.
  destruct (sorted_str sort_key (fun p => p) (map (OsPath.join image_folder) image_files))
    as (l' & Hs & Hp & Hsorted).
  { apply List.Forall_forall. intros p Hin. apply in_map_iff in Hin as (f & <- & _).
    now apply sort_key_joined. }
  exists l'. auto.
Qed.

(* ===================================================================== *)
(** * Reasoning about runs *)
(* ===================================================================== *)

Lemma add_events_nil (s : state) : add_events s [] = s.
Proof. destruct s. unfold add_events. simpl. now rewrite app_nil_r. Qed.

Lemma add_events_app (s : state) (e1 e2 : list event) :
  add_events (add_events s e1) e2 = add_events s (e1 ++ e2).
Proof. unfold add_events. simpl. now rewrite app_assoc. Qed.

Lemma runs_as_unique {A} (m : M A) r1 e1 r2 e2 :
  runs_as m r1 e1 -> runs_as m r2 e2 -> r1 = r2 /\ e1 = e2.
Proof.
  intros H1 H2. specialize (H1 initial). specialize (H2 initial).
  rewrite H1 in H2. inversion H2. auto.
Qed.

Section Runs.

Context {A B : Type}.

Lemma runs_ret (a : A) : runs_as (ret a) (Ret a) [].
Proof. intros s. unfold ret. now rewrite add_events_nil. Qed.

Lemma runs_raise (e : exn) : runs_as (@raise A e) (Raise e) [].
Proof. intros s. unfold raise. now rewrite add_events_nil. Qed.

Lemma runs_lift (o : outcome A) : runs_as (lift o) o [].
Proof. intros s. unfold lift. now rewrite add_events_nil. Qed.

Lemma runs_bind_ret (m : M A) (k : A -> M B) a e1 r e2 :
  runs_as m (Ret a) e1 -> runs_as (k a) r e2 -> runs_as (bind m k) r (e1 ++ e2).
Proof.
  intros H1 H2 s. unfold bind. rewrite H1, H2. now rewrite add_events_app.
Qed.

Lemma runs_bind_raise (m : M A) (k : A -> M B) e e1 :
  runs_as m (Raise e) e1 -> runs_as (bind m k) (Raise e) e1.
Proof. intros H1 s. unfold bind. now rewrite H1. Qed.

Lemma runs_try_ret (m : M A) (h : exn -> M A) a e1 :
  runs_as m (Ret a) e1 -> runs_as (try_except m h) (Ret a) e1.
Proof. intros H1 s. unfold try_except. now rewrite H1. Qed.

Lemma runs_try_raise (m : M A) (h : exn -> M A) e e1 r e2 :
  runs_as m (Raise e) e1 -> runs_as (h e) r e2 ->
  runs_as (try_except m h) r (e1 ++ e2).
Proof.
  intros H1 H2 s. unfold try_except. rewrite H1, H2. now rewrite add_events_app.
Qed.

End Runs.

Lemma runs_emit (e : event) : runs_as (emit e) (Ret tt) [e].
Proof. intros s. reflexivity. Qed.

Lemma runs_emit_then {B} (e : event) (k : unit -> M B) r evs :
  runs_as (k tt) r evs -> runs_as (bind (emit e) k) r (e :: evs).
Proof. intros H. apply (runs_bind_ret (emit e) k tt [e] r evs (runs_emit e) H). Qed.

Lemma runs_lift_then {A B} (a : A) (k : A -> M B) r evs :
  runs_as (k a) r evs -> runs_as (bind (lift (Ret a)) k) r evs.
Proof. intros H. apply (runs_bind_ret (lift (Ret a)) k a [] r evs (runs_lift _) H). Qed.

Lemma runs_lift_raise {A B} (e : exn) (k : A -> M B) :
  runs_as (bind (lift (Raise e)) k) (Raise e) [].
Proof. apply runs_bind_raise, runs_lift. Qed.

Lemma runs_emit_raise {B} (ev : event) (e : exn) :
  runs_as (bind (emit ev) (fun _ => @raise B e)) (Raise e) [ev].
Proof. apply runs_emit_then, runs_raise. Qed.

Lemma runs_emit_ret {B} (ev : event) (b : B) :
  runs_as (bind (emit ev) (fun _ => ret b)) (Ret b) [ev].
Proof. apply runs_emit_then, runs_ret. Qed.

Lemma plain_no_ledger (e : event) : plain e -> no_ledger e.
Proof. now destruct e. Qed.

Section Emits.

Context {A B : Type} (P : event -> Prop).

Lemma emits_ret (a : A) : emits P (ret a).
Proof. exists (Ret a), []. split; [apply runs_ret | constructor]. Qed.

Lemma emits_raise (e : exn) : emits P (@raise A e).
Proof. exists (Raise e), []. split; [apply runs_raise | constructor]. Qed.

Lemma emits_lift (o : outcome A) : emits P (lift o).
Proof. exists o, []. split; [apply runs_lift | constructor]. Qed.

Lemma emits_emit (e : event) : P e -> emits P (emit e).
Proof. intros H. exists (Ret tt), [e]. split; [apply runs_emit | now repeat constructor]. Qed.

Lemma emits_bind (m : M A) (k : A -> M B) :
  emits P m -> (forall a, emits P (k a)) -> emits P (bind m k).
Proof.
  intros (r & e1 & Hm & H1) Hk. destruct r as [a|e].
  - destruct (Hk a) as (r2 & e2 & Hk2 & H2).
    exists r2, (e1 ++ e2). split; [eapply runs_bind_ret; eauto|].
    apply Forall_app; auto.
  - exists (Raise e), e1. split; [now apply runs_bind_raise | exact H1].
Qed.

Lemma emits_try (m : M A) (h : exn -> M A) :
  emits P m -> (forall e, emits P (h e)) -> emits P (try_except m h).
Proof.
  intros (r & e1 & Hm & H1) Hh. destruct r as [a|e].
  - exists (Ret a), e1. split; [now apply runs_try_ret | exact H1].
  - destruct (Hh e) as (r2 & e2 & Hh2 & H2).
    exists r2, (e1 ++ e2). split; [eapply runs_try_raise; eauto|].
    apply Forall_app; auto.
Qed.

End Emits.

Ltac emits_step :=
  lazymatch goal with
  | |- emits _ (ret _) => apply emits_ret
  | |- emits _ (raise _) => apply emits_raise
  | |- emits _ (lift _) => apply emits_lift
  | |- emits _ (emit _) => apply emits_emit; exact I
  | |- emits _ (logging _ _) => apply emits_emit; exact I
  | |- emits _ (bind _ _) => apply emits_bind; [|intros ?]
  | |- emits _ (try_except _ _) => apply emits_try; [|intros ?]
  | |- emits _ (effect _ _) => unfold effect
  | |- emits _ (except_OSError _ _) => unfold except_OSError
  | |- emits _ (match ?x with _ => _ end) => destruct x
  end.

Ltac emits_all := repeat (cbv zeta; emits_step).

Lemma emits_extract_rar w rar dest : emits quiet (extract_rar w rar dest).
Proof. unfold extract_rar. emits_all. Qed.

Lemma emits_get_mega_file_url w url : emits quiet (get_mega_file_url w url).
Proof. unfold get_mega_file_url. emits_all. Qed.

Lemma emits_download_from_mega w url dest : emits quiet (download_from_mega w url dest).
Proof. unfold download_from_mega. emits_all. Qed.

Lemma emits_get_chapter_number_from_filename f :
  emits quiet (get_chapter_number_from_filename f).
Proof. unfold get_chapter_number_from_filename. emits_all. Qed.

Lemma emits_load_images w paths : forall acc, emits plain (load_images w paths acc).
Proof.
  induction paths as [|p rest IH]; intros acc; simpl.
  - emits_all.
  - apply emits_bind; [|intros ?; apply IH].
    unfold open_image. emits_all.
Qed.

Lemma emits_images_to_pdf w folder out n : emits plain (images_to_pdf w folder out n).
Proof.
  unfold images_to_pdf.
  repeat (cbv zeta;
          first [ apply emits_load_images | emits_step ]).
Qed.

(* ===================================================================== *)
(** * Facts about the file system *)
(* ===================================================================== *)

Section FsFacts.

Import PyStr OsPath.

Lemma split_sep_nonempty (s : string) : split_sep s <> [].
Proof.
  destruct s as [|c r]; simpl; [discriminate|].
  destruct (Ascii.eqb c sep); [discriminate|].
  unfold cons_head. now destruct (split_sep r).
Qed.

Lemma split_sep_app (a b : string) :
  split_sep (a +++ String sep b) = split_sep a ++ split_sep b.
Proof.
  induction a as [|c a IH]; simpl.
  - reflexivity.
  - rewrite IH. destruct (Ascii.eqb c sep); [reflexivity|].
    pose proof (split_sep_nonempty a) as Hne.
    now destruct (split_sep a).
Qed.

Lemma split_sep_name (n : string) :
  has_char sep n = false -> split_sep n = [n].
Proof.
  induction n as [|c n IH]; simpl; [reflexivity|].
  intros H. apply orb_false_iff in H as [Hc Hn].
  rewrite Hc, (IH Hn). reflexivity.
Qed.

Lemma components_app (a b : string) :
  components (a +++ String sep b) = components a ++ components b.
Proof. unfold components. now rewrite split_sep_app, List.filter_app. Qed.

Lemma good_name_spec (n : string) :
  good_name n = true ->
  is_step n = true /\ has_char sep n = false /\
  startswith (String sep EmptyString) n = false /\ n <> EmptyString.
Proof.
  unfold good_name. intros H. apply andb_true_iff in H as [Hs Hc].
  apply negb_true_iff in Hc. repeat split; auto.
  - destruct n as [|c n]; [reflexivity|].
    change (has_char sep (String c n)) with (Ascii.eqb c sep || has_char sep n) in Hc.
    change (startswith (String sep EmptyString) (String c n))
      with (Ascii.eqb sep c && true).
    apply orb_false_iff in Hc as [Hc _]. rewrite Ascii.eqb_sym in Hc.
    now rewrite Hc.
  - intros ->. discriminate.
Qed.

Lemma components_name (n : string) : good_name n = true -> components n = [n].
Proof.
  intros H. apply good_name_spec in H as (Hs & Hc & _ & _).
  unfold components. rewrite (split_sep_name n Hc). simpl. now rewrite Hs.
Qed.

Lemma join_prefix (folder n : string) :
  folder <> EmptyString -> good_name n = true ->
  join folder n = dir_prefix folder +++ n.
Proof.
  intros Hf Hn. apply good_name_spec in Hn as (_ & _ & Hs & _).
  unfold join, dir_prefix. rewrite Hs.
  destruct (String.eqb folder EmptyString) eqn:E.
  { apply String.eqb_eq in E. contradiction. }
  simpl. destruct (endswith (String sep EmptyString) folder); [reflexivity|].
  rewrite append_assoc. reflexivity.
Qed.

Lemma components_join (folder n : string) :
  folder <> EmptyString -> good_name n = true ->
  components (join folder n) = components folder ++ [n].
Proof.
  intros Hf Hn. rewrite (join_prefix folder n Hf Hn). unfold dir_prefix.
  destruct (endswith (String sep EmptyString) folder) eqn:E.
  - apply endswith_split in E as [pre ->].
    rewrite append_assoc. change (String sep EmptyString +++ n) with (String sep n).
    rewrite !components_app, (components_name n Hn).
    change (components EmptyString) with (@nil string). now rewrite app_nil_r.
  - rewrite append_assoc. change (String sep EmptyString +++ n) with (String sep n).
    now rewrite components_app, (components_name n Hn).
Qed.

Lemma walk_app (a b : list string) (root : fsnode) :
  walk (a ++ b) root =
  match walk a root with Some n => walk b n | None => None end.
Proof.
  revert root. induction a as [|x a IH]; intros root; simpl; [reflexivity|].
  destruct root as [|t es]; [reflexivity|].
  destruct (lookup_entry x es); [apply IH | reflexivity].
Qed.

Lemma append_nonempty_r (a b : string) : b <> EmptyString -> a +++ b <> EmptyString.
Proof. destruct a, b; simpl; congruence. Qed.

(** A joined path names the entry of that name in the directory. *)
Lemma fs_lookup_join (root : fsnode) (folder n : string) t es :
  fs_lookup root folder = Some (Dir t es) ->
  good_name n = true ->
  fs_lookup root (join folder n) = lookup_entry n es.
Proof.
  unfold fs_lookup. intros Hf Hn.
  destruct (String.eqb folder EmptyString) eqn:E; [discriminate|].
  assert (Hne : folder <> EmptyString).
  { intros ->. discriminate. }
  rewrite (components_join folder n Hne Hn), walk_app, Hf.
  assert (Hj : String.eqb (join folder n) EmptyString = false).
  { apply String.eqb_neq. rewrite (join_prefix folder n Hne Hn).
    apply append_nonempty_r. now apply good_name_spec in Hn. }
  rewrite Hj. simpl. now destruct (lookup_entry n es).
Qed.

Lemma fs_lookup_nonempty (root : fsnode) (p : string) n :
  fs_lookup root p = Some n -> p <> EmptyString.
Proof. unfold fs_lookup. intros H ->. discriminate. Qed.

Lemma lookup_entry_in (n : string) (es : list (string * fsnode)) x :
  lookup_entry n es = Some x -> In (n, x) es.
Proof.
  induction es as [|[m y] r IH]; simpl; [discriminate|].
  destruct (String.eqb m n) eqn:E.
  - apply String.eqb_eq in E. intros [= ->]. subst. now left.
  - intros H. right. auto.
Qed.

End FsFacts.

(* ===================================================================== *)
(** * The document assembler, step by step *)
(* ===================================================================== *)

Lemma load_images_runs (w : World) (image_paths : list string) :
  forall images,
    runs_as (load_images w image_paths images)
            (Ret (images ++ loaded w image_paths)) (load_events w image_paths).
Proof.
  induction image_paths as [|p rest IH]; intros images.
  - simpl. rewrite app_nil_r. apply runs_ret.
  - unfold loaded, opened. simpl. unfold open_image.
    destruct (image_open_rgb (w_fs_extracted w) p) as [i|e] eqn:E.
    + change (OpenImage p true :: load_events w rest)
        with ([OpenImage p true] ++ load_events w rest).
      eapply runs_bind_ret.
      * apply runs_try_ret.
        change [OpenImage p true] with ([OpenImage p true] ++ []).
        eapply runs_bind_ret; [|apply runs_ret].
        change [OpenImage p true] with ([OpenImage p true] ++ []).
        eapply runs_bind_ret; [apply runs_emit | apply runs_ret].
      * specialize (IH (images ++ [i])). rewrite <- app_assoc in IH. exact IH.
    + change (OpenImage p false :: ?x :: load_events w rest)
        with ([OpenImage p false; x] ++ load_events w rest).
      eapply runs_bind_ret; [|apply IH].
      change [OpenImage p false; ?x] with ([OpenImage p false] ++ [x] ++ []).
      eapply runs_try_raise.
      * apply runs_bind_raise.
        change [OpenImage p false] with ([OpenImage p false] ++ []).
        eapply runs_bind_ret; [apply runs_emit | apply runs_raise].
      * eapply runs_bind_ret; [apply runs_emit | apply runs_ret].
Qed.

Lemma images_to_pdf_runs (w : World) (image_folder out : string) (n : Z)
    (names image_paths : list string) :
  os_listdir (w_fs_extracted w) image_folder = Ret names ->
  sorted sort_key (map (OsPath.join image_folder) (List.filter is_image_name names))
    = Ret image_paths ->
  runs_as (images_to_pdf w image_folder out n)
          (fst (assemble w image_folder out image_paths))
          (assembler_head image_folder out ++ snd (assemble w image_folder out image_paths)).
Proof.
  intros Hl Hs. unfold images_to_pdf, assembler_head, logging. simpl app.
  do 2 apply runs_emit_then. rewrite Hl. apply runs_lift_then. cbv zeta.
  rewrite Hs. apply runs_lift_then.
  unfold assemble. destruct image_paths as [|p rest].
  - apply runs_emit_ret.
  - pose proof (load_images_runs w (p :: rest) []) as Hload.
    change ([] ++ loaded w (p :: rest)) with (loaded w (p :: rest)) in Hload.
    destruct (loaded w (p :: rest)) as [|i imgs] eqn:El.
    + eapply runs_bind_ret; [exact Hload|]. apply runs_emit_ret.
    + destruct (w_save_pdf w out (i :: imgs)) as [e|] eqn:Es;
        (eapply runs_bind_ret; [exact Hload|]);
        cbv beta iota; unfold effect; rewrite Es.
      * change [SavePdf out (i :: imgs) false; ?x]
          with ([SavePdf out (i :: imgs) false] ++ [x]).
        eapply runs_try_raise; [|apply runs_emit_ret].
        apply runs_bind_raise, runs_emit_raise.
      * apply runs_try_ret. apply runs_emit_then, runs_emit_ret.
Qed.

#[local] Arguments load_events : simpl never.
#[local] Arguments loaded : simpl never.

Lemma os_listdir_dir (root : fsnode) (folder : string) t es :
  fs_lookup root folder = Some (Dir t es) ->
  os_listdir root folder = Ret (map fst es).
Proof. unfold os_listdir. now intros ->. Qed.

(** The whole run of the assembler on a directory. *)
Lemma assembler_run (w : World) (image_folder out : string) (n : Z) t es :
  fs_lookup (w_fs_extracted w) image_folder = Some (Dir t es) ->
  exists image_paths,
    sorted sort_key
      (map (OsPath.join image_folder) (List.filter is_image_name (map fst es)))
      = Ret image_paths /\
    Permutation image_paths
      (map (OsPath.join image_folder) (List.filter is_image_name (map fst es))) /\
    StronglySorted str_le image_paths /\
    runs_as (images_to_pdf w image_folder out n)
            (fst (assemble w image_folder out image_paths))
            (assembler_head image_folder out
             ++ snd (assemble w image_folder out image_paths)).
Proof.
  intros Hdir.
  destruct (sorted_paths image_folder (List.filter is_image_name (map fst es)))
    as (paths & Hs & Hp & Hsorted).
  { eapply fs_lookup_nonempty; eauto. }
  exists paths. repeat split; auto.
  eapply images_to_pdf_runs; eauto using os_listdir_dir.
Qed.

Lemma in_load_events_open (w : World) (paths : list string) p ok :
  In (OpenImage p ok) (load_events w paths) -> In p paths.
Proof.
  unfold load_events. intros H. apply in_flat_map in H as (q & Hq & H).
  destruct (image_open_rgb (w_fs_extracted w) q); simpl in H.
  - destruct H as [[= -> _]|[]]. exact Hq.
  - destruct H as [[= -> _]|[[=]|[]]]. exact Hq.
Qed.

Lemma in_load_events_save (w : World) (paths : list string) p pages ok :
  ~ In (SavePdf p pages ok) (load_events w paths).
Proof.
  unfold load_events. intros H. apply in_flat_map in H as (q & Hq & H).
  destruct (image_open_rgb (w_fs_extracted w) q); simpl in H;
    intuition discriminate.
Qed.

Lemma in_loaded (w : World) (paths : list string) (i : image) :
  In i (loaded w paths) -> exists p, In p paths /\ opened w p = Some i.
Proof.
  unfold loaded. induction paths as [|p r IH]; simpl; [contradiction|].
  destruct (opened w p) as [j|] eqn:E; simpl.
  - intros [->|H]; [eauto|]. destruct (IH H) as (q & Hq & Ho). eauto.
  - intros H. destruct (IH H) as (q & Hq & Ho). eauto.
Qed.

Lemma loaded_nil (w : World) (paths : list string) :
  loaded w paths = [] <-> Forall (fun p => opened w p = None) paths.
Proof.
  unfold loaded. induction paths as [|p r IH]; simpl.
  - split; auto.
  - destruct (opened w p) as [j|] eqn:E.
    + split; [discriminate|]. intros H. inversion H. congruence.
    + rewrite IH. split; intros H; [now constructor | now inversion H].
Qed.

(** The assembler writes at most once: the loaded images, to the output
    path; and it reports success exactly when that write went through. *)
Lemma assemble_spec (w : World) (folder out : string) (paths : list string) :
  let images := loaded w paths in
  let r := fst (assemble w folder out paths) in
  let evs := snd (assemble w folder out paths) in
  match images with
  | [] => r = Ret false /\ forall p pages ok, ~ In (SavePdf p pages ok) evs
  | _ :: _ =>
      let ok := match w_save_pdf w out images with None => true | Some _ => false end in
      r = Ret ok /\
      forall p pages b, In (SavePdf p pages b) evs <-> p = out /\ pages = images /\ b = ok
  end.
Proof.
  cbv zeta. unfold assemble. destruct paths as [|q rest].
  - simpl. split; [reflexivity|]. intros p pages ok [[=]|[]].
  - destruct (loaded w (q :: rest)) as [|i imgs] eqn:El.
    + split; [reflexivity|]. intros p pages ok H. simpl in H.
      apply in_app_or in H as [H|[[=]|[]]]. now apply in_load_events_save in H.
    + destruct (w_save_pdf w out (i :: imgs)); (split; [reflexivity|]);
        intros p pages b; simpl; rewrite in_app_iff; simpl; split.
      * intros [H|[[= <- <- <-]|[[=]|[]]]]; [now apply in_load_events_save in H | auto].
      * intros (-> & -> & ->). right. now left.
      * intros [H|[[= <- <- <-]|[[=]|[]]]]; [now apply in_load_events_save in H | auto].
      * intros (-> & -> & ->). right. now left.
Qed.

Lemma in_assemble_open (w : World) (folder out : string) (paths : list string) p ok :
  In (OpenImage p ok) (assembler_head folder out ++ snd (assemble w folder out paths)) ->
  In p paths.
Proof.
  unfold assembler_head, assemble. simpl. intros [[=]|[[=]|H]].
  destruct paths as [|q rest]; [destruct H as [[=]|[]]|].
  destruct (loaded w (q :: rest)); [|destruct (w_save_pdf w out _)]; simpl in H;
    apply in_app_or in H as [H|H]; eauto using in_load_events_open;
    simpl in H; intuition discriminate.
Qed.

Lemma in_head_save (folder out : string) (evs : list event) p pages ok :
  In (SavePdf p pages ok) (assembler_head folder out ++ evs) <->
  In (SavePdf p pages ok) evs.
Proof. unfold assembler_head. simpl. intuition discriminate. Qed.

(** What opens at a path joined from a directory and one of its names. *)
Lemma opened_entry (w : World) (folder name : string) t es (i : image) :
  fs_lookup (w_fs_extracted w) folder = Some (Dir t es) ->
  good_name name = true ->
  opened w (OsPath.join folder name) = Some i ->
  exists t' j, In (name, File t' (Picture j)) es /\ i = convert_rgb j.
Proof.
  intros Hdir Hn. unfold opened, image_open_rgb.
  rewrite (fs_lookup_join _ _ _ _ _ Hdir Hn).
  destruct (lookup_entry name es) as [[t' [j|]|]|] eqn:E; try discriminate.
  intros [= <-]. exists t', j. split; [|reflexivity].
  now apply lookup_entry_in.
Qed.

Lemma good_dir_name (es : list (string * fsnode)) (name : string) :
  good_dir es = true -> In name (map fst es) -> good_name name = true.
Proof.
  unfold good_dir. rewrite forallb_forall. auto.
Qed.

(* ===================================================================== *)
(** * The document assembler: properties *)
(* ===================================================================== *)

(** C2.  The names [c1_p2.jpg] and [c1_p10.jpg] match the pattern, with keys
    (1, 2) and (1, 10); yet the assembler sorts the joined paths, whose keys
    are strings, and writes page 10 before page 2. *)
Theorem C2_page_ten_before_page_two :
  sort_key "c1_p2.jpg" = KTuple 1 2 /\
  sort_key "c1_p10.jpg" = KTuple 1 10 /\
  sorted sort_key ["c1_p10.jpg"; "c1_p2.jpg"]%string
    = Ret ["c1_p2.jpg"; "c1_p10.jpg"]%string /\
  os_listdir (w_fs_extracted world_two_pages) chapter_1
    = Ret ["c1_p2.jpg"; "c1_p10.jpg"]%string /\
  sorted sort_key (map (OsPath.join chapter_1) ["c1_p2.jpg"; "c1_p10.jpg"]%string)
    = Ret ["/srv/temp_downloads/chapter_1/c1_p10.jpg";
           "/srv/temp_downloads/chapter_1/c1_p2.jpg"]%string /\
  images_to_pdf world_two_pages chapter_1 "/out/One Piece - 0001.pdf" 1 initial
    = (Ret true,
       add_events initial
         [Log INFO "Converting images in /srv/temp_downloads/chapter_1 to PDF: /out/One Piece - 0001.pdf";
          ListDir chapter_1;
          OpenImage "/srv/temp_downloads/chapter_1/c1_p10.jpg" true;
          OpenImage "/srv/temp_downloads/chapter_1/c1_p2.jpg" true;
          SavePdf "/out/One Piece - 0001.pdf" [mk_image 10 "RGB"; mk_image 2 "RGB"] true;
          Log INFO "PDF created successfully at: /out/One Piece - 0001.pdf"]).
Proof. repeat split; vm_compute; reflexivity. Qed.

Lemma str_le_app (p a b : string) : str_le (p +++ a) (p +++ b) <-> str_le a b.
Proof. unfold str_le, String.leb. now rewrite compare_app. Qed.

Lemma sorted_names_of_paths (folder : string) (files : list string) :
  folder <> EmptyString ->
  Forall (fun f => good_name f = true) files ->
  StronglySorted str_le (map (OsPath.join folder) files) ->
  StronglySorted str_le files.
Proof.
  intros Hne. induction files as [|f r IH]; intros Hg Hs; [constructor|].
  inversion Hg as [|? ? Hf Hr]; subst. simpl in Hs.
  inversion Hs as [|? ? Hs' Hall]; subst.
  constructor; [auto|].
  rewrite List.Forall_forall in *. intros g Hin.
  specialize (Hall (OsPath.join folder g) (in_map _ _ _ Hin)).
  rewrite (join_prefix folder f Hne Hf), (join_prefix folder g Hne (Hr g Hin)) in Hall.
  now apply str_le_app in Hall.
Qed.

(** C3.  Whatever names the directory holds, matching the pattern or not,
    every sort key is the path string itself, so [sorted] raises nothing:
    the files come out in ascending string order of their names, and the
    assembler goes on to load them and returns; it reports success exactly
    when some image loads and the document is written. *)
Theorem C3_mixed_names_sort_as_strings (w : World) (image_folder out : string)
    (n : Z) t es :
  fs_lookup (w_fs_extracted w) image_folder = Some (Dir t es) ->
  good_dir es = true ->
  exists image_files,
    let image_paths := map (OsPath.join image_folder) image_files in
    Permutation image_files (List.filter is_image_name (map fst es)) /\
    StronglySorted str_le image_files /\
    sorted sort_key
      (map (OsPath.join image_folder) (List.filter is_image_name (map fst es)))
      = Ret image_paths /\
    Forall (fun p => sort_key p = KStr p) image_paths /\
    StronglySorted str_le image_paths /\
    forall s, exists b evs,
      images_to_pdf w image_folder out n s = (Ret b, add_events s evs) /\
      (b = true <->
       loaded w image_paths <> [] /\ w_save_pdf w out (loaded w image_paths) = None) /\
      (loaded w image_paths <> [] -> In (SavePdf out (loaded w image_paths) b) evs).
Proof.
  intros Hdir Hgood.
  assert (Hne : image_folder <> EmptyString) by (eapply fs_lookup_nonempty; eauto).
  destruct (assembler_run w image_folder out n t es Hdir)
    as (paths & Hs & Hp & Hsorted & Hrun).
  destruct (Permutation_map_inv _ _ Hp) as (files & -> & Hpf).
  assert (Hgf : Forall (fun f => good_name f = true) files).
  { apply List.Forall_forall. intros f Hin. apply (good_dir_name es); [exact Hgood|].
    eapply Permutation_in in Hin; [|symmetry; exact Hpf].
    apply filter_In in Hin. tauto. }
  exists files. cbv zeta. repeat split.
  - now symmetry.
  - eapply sorted_names_of_paths; eauto.
  - exact Hs.
  - apply List.Forall_forall. intros p Hin. apply in_map_iff in Hin as (f & <- & _).
    now apply sort_key_joined.
  - exact Hsorted.
  - intros s.
    pose proof (assemble_spec w image_folder out (map (OsPath.join image_folder) files)) as Ha.
    cbv zeta in Ha.
    destruct (loaded w (map (OsPath.join image_folder) files)) as [|i imgs] eqn:El.
    + destruct Ha as [Hr _]. exists false. eexists. split.
      * rewrite Hrun, Hr. reflexivity.
      * split; [|congruence]. split; [discriminate | tauto].
    + destruct Ha as [Hr Hev].
      exists (match w_save_pdf w out (i :: imgs) with None => true | Some _ => false end).
      eexists. split; [rewrite Hrun, Hr; reflexivity|]. split.
      * destruct (w_save_pdf w out (i :: imgs)); split.
        -- discriminate.
        -- intros [_ H]. discriminate.
        -- intros _. split; [discriminate | reflexivity].
        -- reflexivity.
      * intros _. apply in_head_save, Hev. auto.
Qed.

Lemma C3_witness :
  fs_lookup (w_fs_extracted world_mixed) chapter_1 = Some (Dir 0 mixed_names) /\
  good_dir mixed_names = true /\
  exists image_files,
    Permutation image_files ["cover.png"; "c1_p2.jpg"; "c1_p1.JPG"; "back.jpeg"]%string /\
    StronglySorted str_le image_files.
Proof.
  split; [reflexivity|]. split; [reflexivity|].
  destruct (C3_mixed_names_sort_as_strings world_mixed chapter_1 "/out/x.pdf" 1
              0 mixed_names eq_refl eq_refl) as (files & Hp & Hs & _).
  exists files. split; [exact Hp | exact Hs].
Defined.

(** C4, as the code has it.  The assembler returns failure without trying
    to write exactly when no image loads, that is when no file has a
    recognized extension or every selected file fails to open.  When some
    image loads it tries one write, of the loaded images in the order of
    the sort, and returns success when that write goes through and failure
    when it raises. *)
Theorem C4_assembler_outcome (w : World) (image_folder out : string) (n : Z)
    t es (s : state) :
  fs_lookup (w_fs_extracted w) image_folder = Some (Dir t es) ->
  exists image_paths,
    sorted sort_key
      (map (OsPath.join image_folder) (List.filter is_image_name (map fst es)))
      = Ret image_paths /\
    Permutation image_paths
      (map (OsPath.join image_folder) (List.filter is_image_name (map fst es))) /\
    StronglySorted str_le image_paths /\
    let images := loaded w image_paths in
    (images = [] <->
     List.filter is_image_name (map fst es) = [] \/
     Forall (fun p => opened w p = None) image_paths) /\
    exists r evs,
      images_to_pdf w image_folder out n s = (r, add_events s evs) /\
      match images with
      | [] => r = Ret false /\ forall p pages ok, ~ In (SavePdf p pages ok) evs
      | _ :: _ =>
          let ok := match w_save_pdf w out images with None => true | Some _ => false end in
          r = Ret ok /\
          forall p pages b, In (SavePdf p pages b) evs <-> p = out /\ pages = images /\ b = ok
      end.
Proof.
  intros Hdir.
  destruct (assembler_run w image_folder out n t es Hdir)
    as (paths & Hs & Hp & Hsorted & Hrun).
  exists paths. split; [exact Hs|]. split; [exact Hp|]. split; [exact Hsorted|].
  cbv zeta. split.
  - rewrite loaded_nil. split; [auto|]. intros [Hn|H]; [|exact H].
    rewrite Hn in Hp. simpl in Hp. symmetry in Hp.
    apply Permutation_nil in Hp. subst. constructor.
  - pose proof (assemble_spec w image_folder out paths) as Ha. cbv zeta in Ha.
    eexists _, _. split; [apply Hrun|].
    destruct (loaded w paths) as [|i imgs].
    + destruct Ha as [Hr Hev]. split; [exact Hr|].
      intros p pages ok H. apply in_head_save in H. now apply Hev in H.
    + destruct Ha as [Hr Hev]. split; [exact Hr|].
      intros p pages b. rewrite in_head_save. apply Hev.
Qed.

Lemma C4_witness :
  fs_lookup (w_fs_extracted world_mixed) chapter_1 = Some (Dir 0 mixed_names) /\
  exists image_paths,
    sorted sort_key
      (map (OsPath.join chapter_1) (List.filter is_image_name (map fst mixed_names)))
      = Ret image_paths.
Proof.
  split; [reflexivity|].
  destruct (C4_assembler_outcome world_mixed chapter_1 "/out/x.pdf" 1 0 mixed_names
              initial eq_refl) as (paths & Hs & _).
  exists paths. exact Hs.
Defined.

(** C4 as stated fails: one file has a recognized extension and opens, and
    the assembler still returns failure, because the write raises. *)
Lemma C4_counterexample :
  os_listdir (w_fs_extracted world_disk_full) chapter_1 = Ret ["c1_p01.jpg"%string] /\
  List.filter is_image_name ["c1_p01.jpg"%string] = ["c1_p01.jpg"%string] /\
  opened world_disk_full "/srv/temp_downloads/chapter_1/c1_p01.jpg" = Some (mk_image 1 "RGB") /\
  fst (images_to_pdf world_disk_full chapter_1 "/out/One Piece - 0001.pdf" 1 initial)
    = Ret false /\
  In (SavePdf "/out/One Piece - 0001.pdf" [mk_image 1 "RGB"] false)
     (trace (snd (images_to_pdf world_disk_full chapter_1 "/out/One Piece - 0001.pdf" 1 initial))).
Proof.
  repeat split; try (vm_compute; reflexivity).
  vm_compute. tauto.
Qed.

(** C10.  The assembler opens only paths joined from the directory and a
    name listed directly in it, so every page of the document is a picture
    that is an entry of the directory itself, never one inside a
    subdirectory; and when no entry of the directory itself is a picture
    (all pictures are nested deeper), it returns failure and writes
    nothing. *)
Theorem C10_only_top_level_files (w : World) (image_folder out : string) (n : Z)
    t es (s : state) :
  fs_lookup (w_fs_extracted w) image_folder = Some (Dir t es) ->
  good_dir es = true ->
  exists r evs,
    images_to_pdf w image_folder out n s = (r, add_events s evs) /\
    (forall p ok, In (OpenImage p ok) evs ->
       exists name, In name (map fst es) /\ is_image_name name = true /\
                    p = OsPath.join image_folder name) /\
    (forall p pages ok i, In (SavePdf p pages ok) evs -> In i pages ->
       exists name t' j, In (name, File t' (Picture j)) es /\ i = convert_rgb j) /\
    ((forall name t' j, ~ In (name, File t' (Picture j)) es) ->
     r = Ret false /\ forall p pages ok, ~ In (SavePdf p pages ok) evs).
Proof.
  intros Hdir Hgood.
  destruct (assembler_run w image_folder out n t es Hdir)
    as (paths & Hs & Hp & Hsorted & Hrun).
  assert (Hpaths : forall p, In p paths ->
            exists name, In name (map fst es) /\ is_image_name name = true /\
                         p = OsPath.join image_folder name).
  { intros p Hin. eapply Permutation_in in Hin; [|exact Hp].
    apply in_map_iff in Hin as (name & <- & Hin). apply filter_In in Hin as [Hin Himg].
    eauto. }
  assert (Hpages : forall i, In i (loaded w paths) ->
            exists name t' j, In (name, File t' (Picture j)) es /\ i = convert_rgb j).
  { intros i Hi. apply in_loaded in Hi as (p & Hin & Hopen).
    destruct (Hpaths p Hin) as (name & Hname & _ & ->).
    destruct (opened_entry w image_folder name t es i Hdir) as (t' & j & H1 & H2); eauto.
    eapply good_dir_name; eauto. }
  pose proof (assemble_spec w image_folder out paths) as Ha. cbv zeta in Ha.
  eexists _, _. split; [apply Hrun|]. split; [|split].
  - intros p ok H. apply in_assemble_open in H. auto.
  - intros p pages ok i H Hi. apply in_head_save in H.
    destruct (loaded w paths) as [|i0 imgs] eqn:El.
    + destruct Ha as [_ Hev]. now apply Hev in H.
    + destruct Ha as [_ Hev]. apply Hev in H as (_ & -> & _). auto.
  - intros Hnone.
    destruct (loaded w paths) as [|i0 imgs] eqn:El.
    + destruct Ha as [Hr Hev]. split; [exact Hr|].
      intros p pages ok H. apply in_head_save in H. now apply Hev in H.
    + destruct (Hpages i0 (or_introl eq_refl)) as (name & t' & j & Hin & _).
      now apply Hnone in Hin.
Qed.

Lemma C10_witness :
  fs_lookup (w_fs_extracted world_nested) chapter_1 = Some (Dir 0 nested_pages) /\
  good_dir nested_pages = true /\
  (forall name t' j, ~ In (name, File t' (Picture j)) nested_pages) /\
  fs_lookup (w_fs_extracted world_nested) "/srv/temp_downloads/chapter_1/c1/c1_p2.jpg"
    = Some (picture 2) /\
  fst (images_to_pdf world_nested chapter_1 "/out/x.pdf" 1 initial) = Ret false.
Proof.
  assert (Hnone : forall name t' j, ~ In (name, File t' (Picture j)) nested_pages).
  { intros name t' j [H|[]]. discriminate. }
  split; [reflexivity|]. split; [reflexivity|]. split; [exact Hnone|].
  split; [reflexivity|].
  destruct (C10_only_top_level_files world_nested chapter_1 "/out/x.pdf" 1
              0 nested_pages initial eq_refl eq_refl)
    as (r & evs & Hrun & _ & _ & Hfail).
  rewrite Hrun. simpl. exact (proj1 (Hfail Hnone)).
Defined.

(* ===================================================================== *)
(** * The ledger *)
(* ===================================================================== *)

Section LedgerFacts.

Import PyStr.

Lemma clean_linkb_spec (l : string) : clean_linkb l = true <-> clean_link l.
Proof.
  unfold clean_linkb, clean_link, truthy.
  rewrite !andb_true_iff, !negb_true_iff, String.eqb_eq, String.eqb_neq. tauto.
Qed.

Lemma save_processed_chapter_run (w : World) (post_url : string) (s : state) :
  save_processed_chapter w post_url s =
  (Ret tt, mk_state (saved_file w post_url (ledger_file s)) (processed_urls s)
                    (trace s ++ save_events w post_url)).
Proof.
  unfold save_processed_chapter, ledger_write, saved_file, save_events,
    try_except, bind, get_ledger, put_ledger, logging, emit, raise.
  destruct (w_append w (post_url +++ NL)); simpl; now rewrite <- app_assoc.
Qed.

Lemma save_all_file (w : World) (links : list string) (s : state) :
  fst (save_all w links s) = Ret tt /\
  processed_urls (snd (save_all w links s)) = processed_urls s /\
  ledger_file (snd (save_all w links s)) =
    fold_left append_text (map (fun l => l +++ NL) (recorded_links w links))
              (ledger_file s).
Proof.
  revert s. induction links as [|l r IH]; intros s; [now simpl|].
  simpl. unfold bind. rewrite save_processed_chapter_run.
  destruct (IH (mk_state (saved_file w l (ledger_file s)) (processed_urls s)
                         (trace s ++ save_events w l))) as (H1 & H2 & H3).
  split; [exact H1|]. split; [exact H2|]. rewrite H3. simpl. unfold saved_file.
  now destruct (w_append w (l +++ NL)).
Qed.

Lemma fold_append_text (lines : list string) (text : string) :
  fold_left append_text lines (Some text) = Some (text +++ glue lines).
Proof.
  revert text. induction lines as [|x r IH]; intros text; simpl.
  - now rewrite append_empty_r.
  - rewrite IH. now rewrite append_assoc.
Qed.

Lemma readlines_line (l rest : string) :
  has_char LF l = false -> has_char CR l = false ->
  readlines (l +++ NL +++ rest) = (l +++ NL) :: readlines rest.
Proof.
  induction l as [|c l IH]; intros H1 H2.
  - reflexivity.
  - change (has_char LF (String c l)) with (Ascii.eqb c LF || has_char LF l) in H1.
    change (has_char CR (String c l)) with (Ascii.eqb c CR || has_char CR l) in H2.
    apply orb_false_iff in H1 as [Hc1 H1]. apply orb_false_iff in H2 as [Hc2 H2].
    change (readlines (String c l +++ NL +++ rest))
      with (if Ascii.eqb c "010" then String "010" EmptyString :: readlines (l +++ NL +++ rest)
            else if Ascii.eqb c "013" then
              match l +++ NL +++ rest with
              | String d r' =>
                  if Ascii.eqb d "010" then String "010" EmptyString :: readlines r'
                  else String "010" EmptyString :: readlines (l +++ NL +++ rest)
              | EmptyString => [String "010" EmptyString]
              end
            else match readlines (l +++ NL +++ rest) with
                 | [] => [String c EmptyString]
                 | h :: t => String c h :: t
                 end).
    unfold LF in Hc1. unfold CR in Hc2. rewrite Hc1, Hc2, (IH H1 H2). reflexivity.
Qed.

Lemma readlines_lines (links : list string) :
  Forall clean_link links ->
  readlines (glue (map (fun l => l +++ NL) links)) = map (fun l => l +++ NL) links.
Proof.
  induction links as [|l r IH]; intros H; [reflexivity|].
  inversion H as [|? ? (_ & H1 & H2 & _) Hr]; subst.
  change (glue (map (fun l => l +++ NL) (l :: r)))
    with ((l +++ NL) +++ glue (map (fun l => l +++ NL) r)).
  rewrite append_assoc, (readlines_line l _ H1 H2), (IH Hr). reflexivity.
Qed.

Lemma length_lstrip (s : string) : (String.length (lstrip s) <= String.length s)%nat.
Proof.
  induction s as [|c s IH]; simpl; [lia|]. destruct (is_space c); simpl; lia.
Qed.

Lemma length_rstrip (s : string) : (String.length (rstrip s) <= String.length s)%nat.
Proof.
  induction s as [|c s IH]; simpl; [lia|].
  destruct (rstrip s); [destruct (is_space c)|]; simpl in *; lia.
Qed.

Lemma rstrip_app_space (a : string) (c : ascii) :
  is_space c = true -> rstrip (a +++ String c EmptyString) = rstrip a.
Proof.
  intros Hc. induction a as [|x a IH]; simpl.
  - now rewrite Hc.
  - now rewrite IH.
Qed.

(** A clean link comes back from its line. *)
Lemma strip_line (l : string) : clean_link l -> strip (l +++ NL) = l.
Proof.
  intros (Hne & _ & _ & Hs). destruct l as [|c l]; [contradiction|].
  assert (Hc : is_space c = false).
  { destruct (is_space c) eqn:E; [|reflexivity]. exfalso.
    pose proof (length_rstrip (lstrip (String c l))) as H1.
    fold (strip (String c l)) in H1. rewrite Hs in H1.
    simpl lstrip in H1. rewrite E in H1.
    pose proof (length_lstrip l) as H2. simpl in H1. lia. }
  unfold strip in *. simpl lstrip in *. rewrite Hc in *.
  change (String c (l +++ NL)) with (String c l +++ String LF EmptyString).
  rewrite rstrip_app_space by reflexivity. exact Hs.
Qed.

Lemma parse_ledger_lines (links : list string) :
  Forall clean_link links ->
  parse_ledger (glue (map (fun l => l +++ NL) links)) = list_to_set links.
Proof.
  intros H. unfold parse_ledger. rewrite (readlines_lines links H). f_equal.
  induction links as [|l r IH]; [reflexivity|].
  inversion H as [|? ? Hl Hr]; subst.
  assert (Ht : truthy l = true).
  { destruct Hl as (Hne & _). unfold truthy.
    apply String.eqb_neq in Hne. now rewrite Hne. }
  simpl. rewrite (strip_line l Hl), Ht. simpl.
  now rewrite (strip_line l Hl), (IH Hr).
Qed.

End LedgerFacts.

(** C5.  Start without the file, record the links of a list one after the
    other, then reload: the set read back holds exactly the links whose
    append went through.  And a missing file reloads as the empty set. *)
Theorem C5_ledger_round_trip (w : World) (links : list string) (s : state) :
  Forall clean_link links ->
  ledger_file s = None ->
  w_read w = None ->
  (forall s', ledger_file s' = None -> fst (load_processed_chapters w s') = Ret ∅) /\
  exists reloaded : gset string,
    fst (load_processed_chapters w (snd (save_all w links s))) = Ret reloaded /\
    forall l, l ∈ reloaded <-> In l (recorded_links w links).
Proof.
  intros Hclean Hmissing Hread. split.
  - intros s' Hs'. unfold load_processed_chapters, bind, get_ledger. now rewrite Hs'.
  - destruct (save_all_file w links s) as (_ & _ & Hfile). rewrite Hmissing in Hfile.
    assert (Hrec : Forall clean_link (recorded_links w links)).
    { apply List.Forall_forall. intros l Hin. apply filter_In in Hin as [Hin _].
      rewrite List.Forall_forall in Hclean. auto. }
    unfold load_processed_chapters, bind, get_ledger. rewrite Hfile.
    destruct (recorded_links w links) as [|l r] eqn:E.
    + exists ∅. split; [reflexivity|]. intros l. simpl. set_solver.
    + change (map (fun l => l +++ NL) (l :: r))
        with ((l +++ NL) :: map (fun l => l +++ NL) r).
      change (fold_left append_text ((l +++ NL) :: ?t) None)
        with (fold_left append_text t (Some (l +++ NL))).
      rewrite fold_append_text. unfold try_except. rewrite Hread.
      exists (parse_ledger (glue (map (fun l => l +++ NL) (l :: r)))). split.
      * reflexivity.
      * intros x. rewrite (parse_ledger_lines (l :: r) Hrec), elem_of_list_to_set.
        apply list_elem_of_In.
Qed.

Lemma C5_witness :
  Forall clean_link ["https://blog.example/ch-1"; "https://blog.example/ch-2"]%string /\
  exists reloaded : gset string,
    fst (load_processed_chapters world_two_pages
           (snd (save_all world_two_pages
                   ["https://blog.example/ch-1"; "https://blog.example/ch-2"]%string
                   initial))) = Ret reloaded /\
    forall l, l ∈ reloaded <->
              In l (recorded_links world_two_pages
                      ["https://blog.example/ch-1"; "https://blog.example/ch-2"]%string).
Proof.
  assert (H : Forall clean_link
                ["https://blog.example/ch-1"; "https://blog.example/ch-2"]%string).
  { repeat constructor; apply clean_linkb_spec; reflexivity. }
  split; [exact H|].
  exact (proj2 (C5_ledger_round_trip world_two_pages _ initial H eq_refl eq_refl)).
Defined.

(** A carriage return is a line break for the reader of the file: a link
    that holds one comes back as two entries. *)
Example ledger_splits_at_carriage_return :
  PyStr.readlines (String "a" (String CR (String "b" NL)))
  = [String "a" NL; String "b" NL].
Proof. reflexivity. Qed.

(* ===================================================================== *)
(** * The link resolver *)
(* ===================================================================== *)

Lemma head_filter_spec {A} (f : A -> bool) (l : list A) :
  match head (List.filter f l) with
  | Some h =>
      exists before after,
        l = before ++ h :: after /\ f h = true /\ Forall (fun x => f x = false) before
  | None => Forall (fun x => f x = false) l
  end.
Proof.
  induction l as [|x r IH]; simpl; [constructor|].
  destruct (f x) eqn:E; simpl.
  - exists [], r. repeat split; auto.
  - destruct (head (List.filter f r)) as [h|].
    + destruct IH as (before & after & -> & Hh & Hb).
      exists (x :: before), after. repeat split; auto.
    + now constructor.
Qed.

(** C9, as the code has it.  When the page is fetched, the resolver returns
    the first [href], in document order, that holds the text [mega.nz]
    anywhere in it, and [None] when no [href] holds it. *)
Theorem C9_first_link_holding_the_domain (w : World) (post_url : string)
    (anchors : list (option string)) (s : state) :
  w_page w post_url = Ret anchors ->
  exists evs,
    get_mega_file_url w post_url s
      = (Ret (head (mega_links_of anchors)), add_events s evs) /\
    match head (mega_links_of anchors) with
    | Some h =>
        exists before after,
          omap id anchors = before ++ h :: after /\
          PyStr.contains "mega.nz" h = true /\
          Forall (fun x => PyStr.contains "mega.nz" x = false) before
    | None => Forall (fun x => PyStr.contains "mega.nz" x = false) (omap id anchors)
    end.
Proof.
  intros Hpage.
  pose proof (head_filter_spec (PyStr.contains "mega.nz") (omap id anchors)) as Hspec.
  fold (mega_links_of anchors) in Hspec.
  unfold get_mega_file_url, logging.
  destruct (mega_links_of anchors) as [|first rest] eqn:E.
  - eexists. split; [|exact Hspec].
    apply runs_emit_then, runs_try_ret, runs_emit_then.
    rewrite Hpage. apply runs_lift_then. rewrite E. apply runs_emit_ret.
  - eexists. split; [|exact Hspec].
    apply runs_emit_then, runs_try_ret, runs_emit_then.
    rewrite Hpage. apply runs_lift_then. rewrite E. apply runs_emit_ret.
Qed.

Lemma C9_witness :
  w_page world_decoy "https://blog.example/ch-1" = Ret page_with_decoy /\
  fst (get_mega_file_url world_decoy "https://blog.example/ch-1" initial)
    = Ret (head (mega_links_of page_with_decoy)).
Proof.
  split; [reflexivity|].
  destruct (C9_first_link_holding_the_domain world_decoy "https://blog.example/ch-1"
              page_with_decoy initial eq_refl) as (evs & Hrun & _).
  now rewrite Hrun.
Defined.

(** C9 as stated fails: the first link is on another host and only names
    the provider in its query; the resolver returns it, not the link whose
    host is the provider. *)
Lemma C9_counterexample :
  fst (get_mega_file_url world_decoy "https://blog.example/ch-1" initial)
    = Ret (Some "https://example.org/redirect?to=mega.nz"%string) /\
  spec_host "https://example.org/redirect?to=mega.nz" = "example.org"%string /\
  spec_resolve page_with_decoy = Some "https://mega.nz/file/abc"%string.
Proof. repeat split; reflexivity. Qed.

(* ===================================================================== *)
(** * The archive fetcher *)
(* ===================================================================== *)

Lemma max_from_spec (k : string -> outcome Z) (l : list string) :
  forall best bk,
    (forall x, In x l -> exists t, k x = Ret t) ->
    exists m tm,
      max_from k best bk l = Ret m /\
      (m = best /\ tm = bk \/ In m l /\ k m = Ret tm) /\
      bk <= tm /\
      forall y t, In y l -> k y = Ret t -> t <= tm.
Proof.
  induction l as [|x r IH]; intros best bk Hall.
  - exists best, bk. simpl. repeat split; auto; try lia; try (intros y t []).
  - destruct (Hall x (or_introl eq_refl)) as [tx Hx]. simpl. rewrite Hx.
    destruct (bk <? tx) eqn:E.
    + apply Z.ltb_lt in E.
      destruct (IH x tx) as (m & tm & Hm & Hor & Hle & Hmax).
      { intros y Hy. apply Hall. now right. }
      exists m, tm. split; [exact Hm|]. split; [|split; [lia|]].
      * right. destruct Hor as [[-> ->]|[Hin Hk]]; [split; [now left | exact Hx] | split; [now right | exact Hk]].
      * intros y t [<-|Hy] Hk; [|eauto]. rewrite Hx in Hk. inversion Hk. lia.
    + apply Z.ltb_ge in E.
      destruct (IH best bk) as (m & tm & Hm & Hor & Hle & Hmax).
      { intros y Hy. apply Hall. now right. }
      exists m, tm. split; [exact Hm|]. split; [|split; [lia|]].
      * destruct Hor as [?|[Hin Hk]]; [now left | right; split; [now right | exact Hk]].
      * intros y t [<-|Hy] Hk; [|eauto]. rewrite Hx in Hk. inversion Hk. lia.
Qed.

(** [max(l, key=k)] returns an element of the list whose key is greatest. *)
Lemma max_by_spec (k : string -> outcome Z) (l : list string) :
  l <> [] ->
  (forall x, In x l -> exists t, k x = Ret t) ->
  exists m tm,
    max_by k l = Ret m /\ In m l /\ k m = Ret tm /\
    forall y t, In y l -> k y = Ret t -> t <= tm.
Proof.
  destruct l as [|x r]; [contradiction|]. intros _ Hall.
  destruct (Hall x (or_introl eq_refl)) as [tx Hx]. simpl. rewrite Hx.
  destruct (max_from_spec k r x tx) as (m & tm & Hm & Hor & Hle & Hmax).
  { intros y Hy. apply Hall. now right. }
  exists m, tm. split; [exact Hm|]. split; [|split].
  - destruct Hor as [[-> _]|[Hin _]]; [now left | now right].
  - destruct Hor as [[-> ->]|[_ Hk]]; assumption.
  - intros y t [<-|Hy] Hk; [|eauto]. rewrite Hx in Hk. inversion Hk. lia.
Qed.

(** C8, as the code has it.  When the retrieval call raises, the fetcher
    looks for an archive only if the text of the error holds [WinError 32]:
    it then sleeps five seconds, lists the destination directory and, when
    some name ends in [.rar], returns one of these whose modification time
    is greatest; when no name ends in [.rar] it logs the error and returns
    failure.  For any other error it logs the error and returns failure at
    once: it neither sleeps nor lists the directory, whatever the directory
    holds. *)
Theorem C8_recovery_after_WinError_32 (w : World) (mega_url dest : string)
    (e : exn) (s : state) :
  w_mega w mega_url dest = Raise e ->
  let attempt := [Log INFO ("Attempting to download from Mega: " +++ mega_url);
                  MegaDownload mega_url dest] in
  let failure := Log ERROR ("Error downloading from Mega " +++ mega_url +++ ": "
                            +++ exn_str e) in
  if PyStr.contains "WinError 32" (exn_str e)
  then
    forall names,
      os_listdir (w_fs_fetched w) dest = Ret names ->
      let rar_files := List.filter (PyStr.endswith ".rar") names in
      let mtime := fun f => os_path_getmtime (w_fs_fetched w) (OsPath.join dest f) in
      (forall f, In f rar_files -> exists t, mtime f = Ret t) ->
      match rar_files with
      | _ :: _ =>
          exists latest_rar t_latest,
            download_from_mega w mega_url dest s
              = (Ret (Some (OsPath.join dest latest_rar, latest_rar)),
                 add_events s
                   (attempt ++
                    [Sleep 5;
                     ListDir dest;
                     Log INFO ("Found downloaded RAR despite access error: "
                               +++ latest_rar)])) /\
            In latest_rar rar_files /\
            mtime latest_rar = Ret t_latest /\
            forall f t, In f rar_files -> mtime f = Ret t -> t <= t_latest
      | [] =>
          download_from_mega w mega_url dest s
            = (Ret None, add_events s (attempt ++ [Sleep 5; ListDir dest; failure]))
      end
  else
    download_from_mega w mega_url dest s = (Ret None, add_events s (attempt ++ [failure])).
Proof.
  intros Hmega attempt failure. unfold attempt, failure.
  destruct (PyStr.contains "WinError 32" (exn_str e)) eqn:Hwin; cbv iota zeta;
    unfold download_from_mega, logging.
  - intros names Hlist Hmtime.
    set (rar_files := List.filter (PyStr.endswith ".rar") names) in *.
    set (mtime := fun f => os_path_getmtime (w_fs_fetched w) (OsPath.join dest f)) in *.
    destruct rar_files as [|f0 rest] eqn:Hrar.
    + cbn [app]. apply runs_emit_then.
      change [?a; ?b; ?c; ?d] with ([a] ++ [b; c; d]).
      eapply runs_try_raise.
      * apply runs_emit_then. rewrite Hmega. apply runs_lift_raise.
      * rewrite Hwin. eapply (runs_bind_ret _ _ None [Sleep 5; ListDir dest]).
        -- do 2 apply runs_emit_then. rewrite Hlist. apply runs_lift_then.
           cbv zeta. fold rar_files. rewrite Hrar. apply runs_ret.
        -- apply runs_emit_ret.
    + destruct (max_by_spec mtime (f0 :: rest)) as (m & tm & Hm & Hin & Hk & Hmax);
        [discriminate | exact Hmtime |].
      exists m, tm. split; [|auto].
      cbn [app]. apply runs_emit_then.
      change [?a; ?b; ?c; ?d] with ([a] ++ [b; c; d] ++ []).
      eapply runs_try_raise.
      * apply runs_emit_then. rewrite Hmega. apply runs_lift_raise.
      * rewrite Hwin.
        eapply (runs_bind_ret _ _ (Some (OsPath.join dest m, m))); [|apply runs_ret].
        do 2 apply runs_emit_then. rewrite Hlist. apply runs_lift_then.
        cbv zeta. fold rar_files. rewrite Hrar. fold mtime. rewrite Hm.
        apply runs_lift_then. apply runs_emit_ret.
  - cbn [app]. apply runs_emit_then.
    change [?a; ?b] with ([a] ++ [] ++ [b]).
    eapply runs_try_raise.
    + apply runs_emit_then. rewrite Hmega. apply runs_lift_raise.
    + rewrite Hwin. eapply (runs_bind_ret _ _ None []); [apply runs_ret|].
      apply runs_emit_ret.
Qed.

Lemma C8_witness :
  w_mega world_locked "https://mega.nz/file/abc" "/srv/temp_downloads"
    = Raise (mk_exn PermissionError
        "[WinError 32] The process cannot access the file because it is being used by another process") /\
  os_listdir (w_fs_fetched world_locked) "/srv/temp_downloads"
    = Ret ["c1.rar"; "c2.rar"; "notes.txt"; "c3.rar"]%string /\
  exists latest_rar t_latest,
    fst (download_from_mega world_locked "https://mega.nz/file/abc" "/srv/temp_downloads" initial)
      = Ret (Some (OsPath.join "/srv/temp_downloads" latest_rar, latest_rar)) /\
    os_path_getmtime (w_fs_fetched world_locked) (OsPath.join "/srv/temp_downloads" latest_rar)
      = Ret t_latest /\
    9 <= t_latest.
Proof.
  split; [reflexivity|]. split; [reflexivity|].
  assert (Hm : forall f, In f (List.filter (PyStr.endswith ".rar")
                                ["c1.rar"; "c2.rar"; "notes.txt"; "c3.rar"]%string) ->
                exists t, os_path_getmtime (w_fs_fetched world_locked)
                            (OsPath.join "/srv/temp_downloads" f) = Ret t).
  { intros f Hf. vm_compute in Hf.
    destruct Hf as [<-|[<-|[<-|[]]]]; eexists; vm_compute; reflexivity. }
  pose proof (C8_recovery_after_WinError_32 world_locked "https://mega.nz/file/abc"
                "/srv/temp_downloads" _ initial eq_refl) as H.
  cbv beta iota zeta in H.
  change (PyStr.contains "WinError 32" _) with true in H. cbv iota in H.
  specialize (H _ eq_refl Hm).
  change (List.filter _ _) with ["c1.rar"; "c2.rar"; "c3.rar"]%string in H. cbv iota in H.
  destruct H as (latest & t & Hrun & Hin & Hk & Hmax).
  exists latest, t. split; [now rewrite Hrun|]. split; [exact Hk|].
  apply (Hmax "c2.rar"%string); [vm_compute; tauto | reflexivity].
Defined.

Lemma C8_counterexample :
  w_mega world_reset "https://mega.nz/file/abc" "/srv/temp_downloads"
    = Raise (mk_exn RequestException "Connection reset by peer") /\
  os_path_exists (w_fs_fetched world_reset) "/srv/temp_downloads/c2.rar" = true /\
  download_from_mega world_reset "https://mega.nz/file/abc" "/srv/temp_downloads" initial
    = (Ret None,
       add_events initial
         [Log INFO "Attempting to download from Mega: https://mega.nz/file/abc";
          MegaDownload "https://mega.nz/file/abc" "/srv/temp_downloads";
          Log ERROR "Error downloading from Mega https://mega.nz/file/abc: Connection reset by peer"]).
Proof. repeat split; vm_compute; reflexivity. Qed.

(* ===================================================================== *)
(** * The pipeline coordinator *)
(* ===================================================================== *)

Lemma quiet_plain (e : event) : quiet e -> plain e.
Proof. now destruct e. Qed.

Lemma Forall_quiet_plain (evs : list event) : Forall quiet evs -> Forall plain evs.
Proof. apply List.Forall_impl, quiet_plain. Qed.

Lemma Forall_plain_no_ledger (evs : list event) : Forall plain evs -> Forall no_ledger evs.
Proof. apply List.Forall_impl, plain_no_ledger. Qed.

Lemma plain_no_rmtree (evs : list event) (dir : string) (ok : bool) :
  Forall plain evs -> ~ In (RmTree dir ok) evs.
Proof. rewrite List.Forall_forall. intros H Hin. exact (H _ Hin). Qed.

Lemma quiet_no_saved (evs : list event) : Forall quiet evs -> ~ has_saved evs.
Proof.
  rewrite List.Forall_forall. intros H (path & pages & Hin). exact (H _ Hin).
Qed.

Lemma has_saved_app (a b : list event) :
  has_saved (a ++ b) <-> has_saved a \/ has_saved b.
Proof.
  split.
  - intros (p & pg & H). apply in_app_or in H as [H|H]; [left | right]; now exists p, pg.
  - intros [(p & pg & H)|(p & pg & H)]; exists p, pg; apply in_or_app; auto.
Qed.

Lemma no_ledger_rm_events (w : World) (dir : string) : Forall no_ledger (rm_events w dir).
Proof. unfold rm_events. destruct (w_rmtree w dir); repeat constructor. Qed.

Lemma in_rm_events (w : World) (dir : string) :
  exists ok, In (RmTree dir ok) (rm_events w dir).
Proof. unfold rm_events. destruct (w_rmtree w dir); eexists; now left. Qed.

Lemma verdict_ret_false (w : World) (post_link : string) Q :
  verdict w post_link Q (ret false).
Proof.
  apply (Failed _ _ _ _ (Ret false) []).
  - apply runs_ret.
  - discriminate.
  - constructor.
  - intros _. constructor.
  - intros dir ok [].
  - intros (p & pg & []).
Qed.

(** A stage that comes before the document, followed by the rest. *)
Lemma verdict_bind {A} (w : World) (post_link : string) Q (m : M A) (k : A -> M bool) :
  emits quiet m ->
  (forall a e1, runs_as m (Ret a) e1 -> verdict w post_link Q (k a)) ->
  verdict w post_link Q (bind m k).
Proof.
  intros (r & e1 & Hm & Hq) Hk. destruct r as [a|e].
  - destruct (Hk a e1 Hm)
      as [r2 e2 Hr2 Hne Hnl Hpl Hrm Hsv
         | before path pages mid dir ok after HQ Hb Hmid Ha Hw Hrun].
    + apply (Failed _ _ _ _ r2 (e1 ++ e2)).
      * eapply runs_bind_ret; eauto.
      * exact Hne.
      * apply Forall_app. split; [|exact Hnl].
        now apply Forall_plain_no_ledger, Forall_quiet_plain.
      * intros Hf. apply Forall_app. split; [now apply Forall_quiet_plain | auto].
      * intros dir ok Hin. apply in_app_or in Hin as [Hin|Hin].
        { exfalso. rewrite List.Forall_forall in Hq. exact (Hq _ Hin). }
        destruct (Hrm dir ok Hin) as (Hok & Hs & He).
        split; [exact Hok|]. split; [|exact He]. apply has_saved_app. now right.
      * intros Hs. apply has_saved_app in Hs as [Hs|Hs].
        { exfalso. now apply (quiet_no_saved e1). }
        destruct (Hsv Hs) as [dir Hin]. exists dir. apply in_or_app. now right.
    + apply (Recorded _ _ _ _ (e1 ++ before) path pages mid dir ok after).
      * exact HQ.
      * apply Forall_app. split; [now apply Forall_quiet_plain | exact Hb].
      * exact Hmid.
      * exact Ha.
      * exact Hw.
      * intros s. unfold bind. rewrite Hm, Hrun. unfold add_events. simpl.
        now rewrite <- !app_assoc.
  - apply (Failed _ _ _ _ (Raise e) e1).
    + now apply runs_bind_raise.
    + discriminate.
    + now apply Forall_plain_no_ledger, Forall_quiet_plain.
    + discriminate.
    + intros dir ok Hin. exfalso. rewrite List.Forall_forall in Hq. exact (Hq _ Hin).
    + intros Hs. exfalso. now apply (quiet_no_saved e1).
Qed.

Lemma save_processed_chapter_run' (w : World) (post_url : string) (s : state) :
  save_processed_chapter w post_url s =
  (Ret tt,
   mk_state (if append_ok w post_url then append_text (ledger_file s) (post_url +++ NL)
             else ledger_file s)
            (processed_urls s)
            (trace s ++ [LedgerAppend (post_url +++ NL) (append_ok w post_url);
                         save_log w post_url])).
Proof.
  rewrite save_processed_chapter_run. unfold saved_file, save_events, append_ok, save_log.
  now destruct (w_append w (post_url +++ NL)).
Qed.

Lemma plain_save_log (w : World) (post_url : string) : plain (save_log w post_url).
Proof. unfold save_log. now destruct (w_append w (post_url +++ NL)). Qed.

(** The end of the pipeline when the removal goes through or raises an
    [OSError]: the link is recorded and the run returns [True]. *)
Lemma pipeline_tail_recorded (w : World) (post_link dir done : string) :
  (w_rmtree w dir = None \/
   exists e, w_rmtree w dir = Some e /\ is_OSError (exn_kind e) = true) ->
  forall s,
    pipeline_tail w post_link dir done s =
    (Ret true,
     mk_state (if append_ok w post_link
               then append_text (ledger_file s) (post_link +++ NL)
               else ledger_file s)
              (processed_urls s)
              (trace s ++ rm_events w dir
                 ++ [LedgerAppend (post_link +++ NL) (append_ok w post_link);
                     save_log w post_link; Log INFO done])).
Proof.
  intros Hrm s. unfold pipeline_tail, except_OSError, effect, logging, rm_events.
  destruct Hrm as [Hn|(e & He & Hos)].
  - rewrite Hn. unfold bind, try_except, emit, raise, ret. simpl.
    rewrite save_processed_chapter_run'. simpl. now rewrite <- !app_assoc.
  - rewrite He. unfold bind, try_except, emit, raise, ret. rewrite Hos. simpl.
    rewrite save_processed_chapter_run'. simpl. now rewrite <- !app_assoc.
Qed.

(** The end of the pipeline when the removal raises something else: the
    exception leaves the pipeline. *)
Lemma pipeline_tail_raises (w : World) (post_link dir done : string) (e : exn) :
  w_rmtree w dir = Some e -> is_OSError (exn_kind e) = false ->
  runs_as (pipeline_tail w post_link dir done) (Raise e) [RmTree dir false].
Proof.
  intros He Hos s. unfold pipeline_tail, except_OSError, effect, logging.
  rewrite He. unfold bind, try_except, emit, raise. now rewrite Hos.
Qed.

(** The assembler reports success exactly when it has written the
    document, and it writes nowhere but at the output path. *)
Lemma images_to_pdf_saved (w : World) (folder out : string) (n : Z)
    (r : outcome bool) (evs : list event) :
  runs_as (images_to_pdf w folder out n) r evs ->
  (has_saved evs <-> r = Ret true) /\
  (forall path pages ok, In (SavePdf path pages ok) evs -> path = out).
Proof.
  intros Hrun.
  assert (Hhead : forall e, runs_as (images_to_pdf w folder out n) (Raise e)
                              (assembler_head folder out) ->
                            (has_saved evs <-> r = Ret true) /\
                            (forall path pages ok,
                               In (SavePdf path pages ok) evs -> path = out)).
  { intros e H. destruct (runs_as_unique _ _ _ _ _ Hrun H) as [-> ->].
    split; [split; [|discriminate]|].
    - intros (p & pg & Hin). unfold assembler_head in Hin.
      simpl in Hin. intuition discriminate.
    - intros p pg ok Hin. unfold assembler_head in Hin.
      simpl in Hin. intuition discriminate. }
  destruct (os_listdir (w_fs_extracted w) folder) as [names|e] eqn:El.
  - destruct (sorted sort_key (map (OsPath.join folder) (List.filter is_image_name names)))
      as [paths|e] eqn:Es.
    + pose proof (images_to_pdf_runs w folder out n names paths El Es) as H.
      destruct (runs_as_unique _ _ _ _ _ Hrun H) as [-> ->].
      pose proof (assemble_spec w folder out paths) as Ha. cbv zeta in Ha.
      destruct (loaded w paths) as [|i imgs].
      * destruct Ha as [Hr Hev]. rewrite Hr. split; [split; [|discriminate]|].
        -- intros (p & pg & Hin). apply in_head_save in Hin. now apply Hev in Hin.
        -- intros p pg ok Hin. apply in_head_save in Hin. now apply Hev in Hin.
      * destruct Ha as [Hr Hev]. rewrite Hr. split; [split|].
        -- intros (p & pg & Hin). apply in_head_save, Hev in Hin.
           destruct Hin as (_ & _ & <-). reflexivity.
        -- intros [= Hok]. exists out, (i :: imgs). apply in_head_save, Hev.
           rewrite Hok. auto.
        -- intros p pg ok Hin. apply in_head_save, Hev in Hin. tauto.
    + apply (Hhead e). unfold images_to_pdf, assembler_head, logging.
      do 2 apply runs_emit_then. rewrite El. apply runs_lift_then. cbv zeta.
      rewrite Es. apply runs_lift_raise.
  - apply (Hhead e). unfold images_to_pdf, assembler_head, logging.
    do 2 apply runs_emit_then. rewrite El. apply runs_lift_raise.
Qed.

(** The assembly and what follows it. *)
Lemma verdict_assemble (w : World) (post_link folder out : string) (n : Z)
    (dir done : string) (Q : string -> string -> Prop) :
  Q out dir ->
  verdict w post_link Q
    (bind (images_to_pdf w folder out n)
          (fun assembled =>
             if negb assembled then ret false
             else pipeline_tail w post_link dir done)).
Proof.
  intros HQ.
  destruct (emits_images_to_pdf w folder out n) as (r & e_img & Hrun & Hplain).
  destruct (images_to_pdf_saved w folder out n r e_img Hrun) as [Hiff Hout].
  destruct r as [[|]|e].
  - destruct (proj2 Hiff eq_refl) as (path & pages & Hin).
    assert (path = out) by (eapply Hout; eauto). subst path.
    apply in_split in Hin as (before & mid & ->).
    pose proof Hplain as Hplain'.
    apply Forall_app in Hplain' as [Hb Hm']. inversion Hm' as [|? ? _ Hmid]; subst.
    assert (Hrec : (w_rmtree w dir = None \/
                    exists e, w_rmtree w dir = Some e /\ is_OSError (exn_kind e) = true) ->
                   verdict w post_link Q
                     (bind (images_to_pdf w folder out n)
                        (fun assembled =>
                           if negb assembled then ret false
                           else pipeline_tail w post_link dir done))).
    { intros Hw.
      apply (Recorded _ _ _ _ before out pages mid dir (append_ok w post_link)
               [save_log w post_link; Log INFO done]); auto.
      - repeat constructor. apply plain_save_log.
      - intros s. unfold bind. rewrite Hrun. simpl negb. cbv iota.
        rewrite (pipeline_tail_recorded w post_link dir done Hw).
        unfold add_events. simpl. now rewrite <- !app_assoc. }
    destruct (w_rmtree w dir) as [e|] eqn:Erm; [|apply Hrec; now left].
    destruct (is_OSError (exn_kind e)) eqn:Eos; [apply Hrec; right; eauto|].
    apply (Failed _ _ _ _ (Raise e)
             ((before ++ SavePdf out pages true :: mid) ++ [RmTree dir false])).
    + eapply runs_bind_ret; [exact Hrun|]. simpl negb. cbv iota.
      now apply pipeline_tail_raises.
    + discriminate.
    + apply Forall_app. split; [now apply Forall_plain_no_ledger | repeat constructor].
    + discriminate.
    + intros dir' ok' Hin. apply in_app_or in Hin as [Hin|Hin].
      { exfalso. now apply (plain_no_rmtree _ dir' ok' Hplain). }
      destruct Hin as [[= <- <-]|[]]. split; [reflexivity|]. split; [|eauto].
      exists out, pages. apply in_or_app. left. apply in_or_app. right. now left.
    + intros _. exists dir. apply in_or_app. right. now left.
  - apply (Failed _ _ _ _ (Ret false) (e_img ++ [])).
    + eapply runs_bind_ret; [exact Hrun|]. apply runs_ret.
    + discriminate.
    + rewrite app_nil_r. now apply Forall_plain_no_ledger.
    + intros _. now rewrite app_nil_r.
    + intros dir' ok' Hin. rewrite app_nil_r in Hin. exfalso.
      now apply (plain_no_rmtree _ dir' ok' Hplain).
    + rewrite app_nil_r. intros Hs. apply Hiff in Hs. discriminate.
  - apply (Failed _ _ _ _ (Raise e) e_img).
    + now apply runs_bind_raise.
    + discriminate.
    + now apply Forall_plain_no_ledger.
    + discriminate.
    + intros dir' ok' Hin. exfalso. now apply (plain_no_rmtree _ dir' ok' Hplain).
    + intros Hs. apply Hiff in Hs. discriminate.
Qed.

Ltac emits_quiet :=
  first [ apply emits_get_mega_file_url
        | apply emits_download_from_mega
        | apply emits_get_chapter_number_from_filename
        | apply emits_extract_rar
        | emits_all ].

Ltac verdict_step :=
  lazymatch goal with
  | |- verdict _ _ _ (ret false) => apply verdict_ret_false
  | |- verdict _ _ _ (bind _ _) => apply verdict_bind; [emits_quiet | intros ? ? ?]
  | |- verdict _ _ _ (match ?x with _ => _ end) => destruct x
  end.

(** Every run of the coordinator ends in one of the two ways. *)
Lemma process_new_chapter_verdict (cfg : Config) (w : World) (post_link : string) :
  verdict w post_link (named_by_chapter cfg) (process_new_chapter cfg w post_link).
Proof.
  unfold process_new_chapter.
  repeat (cbv zeta;
    lazymatch goal with
    | |- verdict _ _ _ (bind (images_to_pdf _ _ _ _) _) => fail
    | |- _ => verdict_step
    end).
  apply (verdict_assemble w post_link _ _ _ _ _).
  eexists. split; reflexivity.
Qed.

(** C1.  Whatever the world answers, a run of the pipeline for a link never
    touches the set in memory, and it ends in one of two ways.  Either it
    does not return [True] (it returns [False] or raises): then the ledger
    file is as before and no append was tried.  Or it returns [True]: then
    the output document of the chapter was written, after that one append of
    the link was tried, and the file holds the new line when that append
    went through.  The watcher, for its part, adds the link to the set in
    memory only when the pipeline has returned [True]. *)
Theorem C1_ledger_only_after_success (cfg : Config) (e : entry) (m : meeting)
    (s : state) :
  (exists r evs s',
     process_new_chapter cfg (world m) (link e) s = (r, s') /\
     trace s' = trace s ++ evs /\
     processed_urls s' = processed_urls s /\
     ((r <> Ret true /\ ledger_file s' = ledger_file s /\ Forall no_ledger evs)
      \/
      (r = Ret true /\
       exists before path pages mid ok after,
         evs = before ++ SavePdf path pages true
                      :: mid ++ LedgerAppend (link e +++ NL) ok :: after /\
         (exists dir, named_by_chapter cfg path dir) /\
         Forall no_ledger before /\ Forall no_ledger mid /\ Forall no_ledger after /\
         ledger_file s' = if ok then append_text (ledger_file s) (link e +++ NL)
                          else ledger_file s)))
  /\
  (let s0 := add_events s [Log INFO ("New chapter post detected: '" +++ title e +++ "'")] in
   let s1 := snd (handle_entry cfg e m s) in
   (processed_urls s1 = processed_urls s /\ ledger_file s1 = ledger_file s)
   \/
   (fst (process_new_chapter cfg (world m) (link e) s0) = Ret true /\
    processed_urls s1 = {[ link e ]} ∪ processed_urls s)).
Proof.
  set (w := world m). set (post_link := link e).
  assert (Hrun : forall s,
            exists r evs s',
              process_new_chapter cfg w post_link s = (r, s') /\
              trace s' = trace s ++ evs /\
              processed_urls s' = processed_urls s /\
              ((r <> Ret true /\ ledger_file s' = ledger_file s /\ Forall no_ledger evs)
               \/
               (r = Ret true /\
                exists before path pages mid ok after,
                  evs = before ++ SavePdf path pages true
                               :: mid ++ LedgerAppend (post_link +++ NL) ok :: after /\
                  (exists dir, named_by_chapter cfg path dir) /\
                  Forall no_ledger before /\ Forall no_ledger mid /\
                  Forall no_ledger after /\
                  ledger_file s' = if ok then append_text (ledger_file s) (post_link +++ NL)
                                   else ledger_file s))).
  { clear s. intros s.
    destruct (process_new_chapter_verdict cfg w post_link)
      as [r evs Hr Hne Hnl _ _ _ | before path pages mid dir ok after HQ Hb Hmid Ha _ Hr].
    - exists r, evs, (add_events s evs). split; [apply Hr|]. split; [reflexivity|].
      split; [reflexivity|]. left. auto.
    - eexists (Ret true), _, _. split; [apply Hr|]. split; [reflexivity|].
      split; [reflexivity|]. right. split; [reflexivity|].
      exists before, path, pages, (mid ++ rm_events w dir), ok, after.
      split; [now rewrite <- app_assoc|].
      split; [now exists dir|].
      split; [now apply Forall_plain_no_ledger|].
      split; [apply Forall_app; split;
              [now apply Forall_plain_no_ledger | apply no_ledger_rm_events]|].
      split; [now apply Forall_plain_no_ledger | reflexivity]. }
  split; [apply Hrun|].
  cbv zeta. unfold handle_entry.
  destruct (timedelta_hours (MAX_AGE_HOURS cfg)) as [max_age|x]; [|left; split; reflexivity].
  change (bind (lift (Ret max_age)) ?k s) with (k max_age s). cbv beta.
  destruct (max_age <? now m - published e); [left; split; reflexivity|].
  destruct (PyStr.contains _ _); [|left; split; reflexivity].
  unfold bind, get_processed, put_processed, logging, emit. cbv beta iota.
  destruct (bool_decide (link e ∈ processed_urls s)).
  { left. split; reflexivity. }
  fold w post_link.
  change (mk_state (ledger_file s) (processed_urls s) (trace s ++ [?ev]))
    with (add_events s [ev]).
  destruct (Hrun (add_events s [Log INFO ("New chapter post detected: '" +++ title e +++ "'")]))
    as (r & evs & s' & Hr & Htr & Hpu & Hcases).
  rewrite Hr.
  destruct r as [[|]|ex].
  - right. split; [reflexivity|]. simpl. now rewrite Hpu.
  - left. destruct Hcases as [(_ & Hl & _)|(Hc & _)]; [|discriminate].
    simpl. split; [exact Hpu | exact Hl].
  - left. destruct Hcases as [(_ & Hl & _)|(Hc & _)]; [|discriminate].
    simpl. split; [exact Hpu | exact Hl].
Qed.

(** C7, as the code has it.  The removal of the scratch directory is tried
    exactly in the runs in which the document was written.  In a run that
    returns [True] it comes after the document and before the append to the
    ledger, and a removal that raises an [OSError] is logged and does not
    abort: the run still records the link and returns [True].  A run that
    returns [False], as it does when the assembly fails, has not tried to
    remove the directory. *)
Theorem C7_cleanup_follows_a_successful_assembly (cfg : Config) (w : World)
    (post_link : string) (s : state) :
  exists r evs s',
    process_new_chapter cfg w post_link s = (r, s') /\
    trace s' = trace s ++ evs /\
    (has_saved evs <-> exists dir ok, In (RmTree dir ok) evs) /\
    (r = Ret true ->
     exists before path pages mid dir ok after,
       evs = before ++ SavePdf path pages true :: mid ++ rm_events w dir
                    ++ LedgerAppend (post_link +++ NL) ok :: after /\
       named_by_chapter cfg path dir /\
       Forall plain before /\ Forall plain mid /\ Forall plain after) /\
    (forall dir e,
       In (RmTree dir false) evs -> w_rmtree w dir = Some e ->
       is_OSError (exn_kind e) = true -> r = Ret true) /\
    (r = Ret false -> forall dir ok, ~ In (RmTree dir ok) evs).
Proof.
  destruct (process_new_chapter_verdict cfg w post_link)
    as [r evs Hr Hne Hnl Hpl Hrm Hsv
       | before path pages mid dir ok after HQ Hb Hmid Ha Hw Hr].
  - exists r, evs, (add_events s evs). split; [apply Hr|]. split; [reflexivity|].
    split; [|split; [|split]].
    + split.
      * intros Hs. destruct (Hsv Hs) as [dir Hin]. eauto.
      * intros (dir & ok & Hin). now destruct (Hrm dir ok Hin) as (_ & Hs & _).
    + intros ->. contradiction.
    + intros dir e Hin He Hos. destruct (Hrm dir false Hin) as (_ & _ & e' & _ & He' & Hos').
      rewrite He in He'. inversion He'; subst. congruence.
    + intros Hf dir ok. apply plain_no_rmtree. auto.
  - eexists (Ret true), _, _. split; [apply Hr|]. split; [reflexivity|].
    split; [|split; [|split]].
    + split.
      * intros _. destruct (in_rm_events w dir) as [ok' Hin]. exists dir, ok'.
        apply in_or_app. right. right. apply in_or_app. right.
        apply in_or_app. now left.
      * intros _. exists path, pages. apply in_or_app. right. now left.
    + intros _. exists before, path, pages, mid, dir, ok, after. auto.
    + reflexivity.
    + discriminate.
Qed.

(** C7 as stated fails: the archive unpacks into [chapter_1], whose
    pictures all sit in a subdirectory, so the assembly finds no image and
    fails; the pipeline returns [False] at once, and the scratch directory
    that it created and filled is not removed. *)
Lemma C7_counterexample :
  process_new_chapter sample_cfg world_nested "https://blog.example/ch-1" initial
  = (Ret false,
     add_events initial
       [Log INFO "Processing new chapter from post: https://blog.example/ch-1";
        Log INFO "Fetching Mega.nz link from: https://blog.example/ch-1";
        HttpGet "https://blog.example/ch-1";
        Log INFO "Found Mega.nz link: https://mega.nz/file/abc";
        Log INFO "Attempting to download from Mega: https://mega.nz/file/abc";
        MegaDownload "https://mega.nz/file/abc" "/srv/temp_downloads";
        Sleep 5;
        Log INFO "Successfully downloaded 'c1.rar' from Mega to '/srv/temp_downloads'.";
        MakeDirs "/srv/temp_downloads/chapter_1";
        Log INFO "Extracting RAR: /srv/temp_downloads/c1.rar to /srv/temp_downloads/chapter_1";
        Extract "/srv/temp_downloads/c1.rar" "/srv/temp_downloads/chapter_1";
        Log INFO "Successfully extracted to: /srv/temp_downloads/chapter_1";
        Remove "/srv/temp_downloads/c1.rar" true;
        Log INFO "Removed temporary RAR file: /srv/temp_downloads/c1.rar";
        Log INFO "Converting images in /srv/temp_downloads/chapter_1 to PDF: /out/One Piece - 0001.pdf";
        ListDir "/srv/temp_downloads/chapter_1";
        Log WARNING "No valid images found in /srv/temp_downloads/chapter_1 to create PDF."])
  /\
  forall ok, ~ In (RmTree "/srv/temp_downloads/chapter_1" ok)
                  (trace (snd (process_new_chapter sample_cfg world_nested
                                 "https://blog.example/ch-1" initial))).
Proof.
  split; [vm_compute; reflexivity|].
  intros ok H. vm_compute in H. intuition discriminate.
Qed.

(** ** Chapter numbers *)

Lemma emits_result {A} (P : event -> Prop) (m : M A) (r : outcome A) :
  emits P m -> fst (m initial) = r -> exists evs, runs_as m r evs /\ Forall P evs.
Proof.
  intros (r' & evs & Hrun & HP) H. rewrite Hrun in H. simpl in H. subst. eauto.
Qed.

Lemma early_get_mega_file_url w url : emits early (get_mega_file_url w url).
Proof. unfold get_mega_file_url. emits_all. Qed.

Lemma early_download_from_mega w url dest : emits early (download_from_mega w url dest).
Proof. unfold download_from_mega. emits_all. Qed.

Lemma early_get_chapter_number_from_filename f :
  emits early (get_chapter_number_from_filename f).
Proof. unfold get_chapter_number_from_filename. emits_all. Qed.




(* ===================================================================== *)
(** * Decimal numbers *)
(* ===================================================================== *)

Section Decimal.
Import PyStr OsPath.

Lemma of_uint_acc_val (d : Decimal.uint) :
  forall acc, Z.pos (Pos.of_uint_acc d acc) = uint_val (Z.pos acc) d.
Proof.
  induction d; intros acc; simpl; try reflexivity; rewrite IHd; f_equal;
    try lia; change (Pos.mul _ acc) with (10 * acc)%positive; lia.
Qed.

Lemma of_uint_val (d : Decimal.uint) : Z.of_N (Pos.of_uint d) = uint_val 0 d.
Proof.
  induction d; simpl; try reflexivity; try exact IHd;
    rewrite of_uint_acc_val; reflexivity.
Qed.

Lemma parse_digits_uint (d : Decimal.uint) :
  forall acc prev,
    parse_digits acc prev (NilEmpty.string_of_uint d) =
    match d with
    | Decimal.Nil => if prev then Some acc else None
    | _ => Some (uint_val acc d)
    end.
Proof.
  induction d; intros acc prev; try reflexivity;
    cbn [NilEmpty.string_of_uint parse_digits];
    change (is_decimal _) with true; cbv iota;
    rewrite IHd; destruct d; reflexivity.
Qed.

Lemma all_chars_app (f : ascii -> bool) (a b : string) :
  all_chars f (a +++ b) = all_chars f a && all_chars f b.
Proof. induction a as [|c a IH]; simpl; [reflexivity|]. rewrite IH. apply andb_assoc. Qed.

Lemma all_chars_impl (f g : ascii -> bool) (s : string) :
  (forall c, f c = true -> g c = true) -> all_chars f s = true -> all_chars g s = true.
Proof.
  intros H. induction s as [|c s IH]; simpl; [reflexivity|].
  intros [Hc Hs]%andb_prop. rewrite (H _ Hc), (IH Hs). reflexivity.
Qed.


Lemma string_of_uint_decimal (d : Decimal.uint) :
  all_chars is_decimal (NilEmpty.string_of_uint d) = true.
Proof. induction d; simpl; try reflexivity; exact IHd. Qed.

Lemma string_of_uint_nonempty (d : Decimal.uint) :
  d <> Decimal.Nil -> NilEmpty.string_of_uint d <> EmptyString.
Proof. destruct d; simpl; congruence. Qed.

Lemma decimal_no_space (c : ascii) : is_decimal c = true -> no_space c = true.
Proof.
  unfold is_decimal, no_space, is_space. intros H.
  destruct (N.leb_spec 48 (code c)), (N.leb_spec (code c) 57); try discriminate.
  apply negb_true_iff.
  repeat (apply orb_false_iff; split); try apply andb_false_iff;
    try (apply N.eqb_neq; lia);
    try (right; apply N.leb_gt; lia); try (left; apply N.leb_gt; lia).
Qed.

Lemma lstrip_no_space (s : string) : all_chars no_space s = true -> lstrip s = s.
Proof.
  destruct s as [|c s]; simpl; [reflexivity|].
  unfold no_space at 1. intros [Hc _]%andb_prop. apply negb_true_iff in Hc.
  rewrite Hc. reflexivity.
Qed.

Lemma rstrip_no_space (s : string) : all_chars no_space s = true -> rstrip s = s.
Proof.
  induction s as [|c s IH]; simpl; [reflexivity|].
  unfold no_space at 1. intros [Hc Hs]%andb_prop. apply negb_true_iff in Hc.
  rewrite (IH Hs), Hc. destruct s; reflexivity.
Qed.

Lemma strip_no_space (s : string) : all_chars no_space s = true -> strip s = s.
Proof.
  intros H. unfold strip. rewrite (lstrip_no_space _ H). apply rstrip_no_space, H.
Qed.

Lemma int_space_is_space (c : ascii) : is_int_space c = true -> is_space c = true.
Proof.
  unfold is_int_space, is_space. cbv zeta. generalize (code c). intros n H.
  destruct (N.eqb_spec n 32) as [E|_]; [rewrite E; reflexivity|].
  destruct (N.eqb_spec n 133) as [E|_]; [rewrite E; reflexivity|].
  destruct (N.eqb_spec n 160) as [E|_]; [rewrite E; reflexivity|].
  destruct (9 <=? n)%N, (n <=? 13)%N; try discriminate. reflexivity.
Qed.

Lemma no_space_int (c : ascii) : no_space c = true -> is_int_space c = false.
Proof.
  unfold no_space. intros H%negb_true_iff.
  destruct (is_int_space c) eqn:E; [|reflexivity].
  apply int_space_is_space in E. congruence.
Qed.

Lemma int_lstrip_no_space (s : string) : all_chars no_space s = true -> int_lstrip s = s.
Proof.
  destruct s as [|c s]; simpl; [reflexivity|].
  intros [Hc _]%andb_prop. rewrite (no_space_int c Hc). reflexivity.
Qed.

Lemma int_rstrip_no_space (s : string) : all_chars no_space s = true -> int_rstrip s = s.
Proof.
  induction s as [|c s IH]; simpl; [reflexivity|].
  intros [Hc Hs]%andb_prop.
  rewrite (IH Hs), (no_space_int c Hc). destruct s; reflexivity.
Qed.

Lemma int_strip_no_space (s : string) :
  all_chars no_space s = true -> int_rstrip (int_lstrip s) = s.
Proof.
  intros H. rewrite (int_lstrip_no_space _ H). apply int_rstrip_no_space, H.
Qed.

Lemma scan_digits_decimal (s : string) :
  forall n us, all_chars is_decimal s = true -> s <> EmptyString ->
    scan_digits n us s = Some (n + String.length s)%nat.
Proof.
  induction s as [|c s IH]; intros n us Hd Hne; [congruence|].
  simpl in Hd. apply andb_prop in Hd as [Hc Hs].
  cbn [scan_digits String.length]. rewrite Hc.
  destruct s as [|c' s'].
  - simpl. f_equal. lia.
  - rewrite IH by (auto; discriminate). f_equal. cbn [String.length]. lia.
Qed.

Lemma startswith_us_decimal (s : string) :
  all_chars is_decimal s = true -> startswith "_" s = false.
Proof.
  destruct s as [|c s]; [reflexivity|]. cbn [all_chars]. intros [Hc _]%andb_prop.
  cbn [startswith]. destruct (Ascii.eqb_spec "_" c) as [<-|]; [discriminate|reflexivity].
Qed.

(** On a run of decimal digits, with or without a sign before it, the
    limit of [int] bears on the length of the run. *)
Lemma over_limit_body (s body : string) :
  int_body s = body -> all_chars is_decimal body = true ->
  over_limit s =
  if (String.length body <=? max_str_digits)%nat then None else Some (String.length body).
Proof.
  intros Hb Hd. unfold over_limit. cbv zeta. rewrite Hb, (startswith_us_decimal _ Hd).
  destruct body as [|c r].
  - reflexivity.
  - rewrite scan_digits_decimal by (auto; discriminate).
    change (0 + ?x)%nat with x. rewrite Nat.ltb_antisym.
    destruct (String.length (String c r) <=? max_str_digits)%nat; reflexivity.
Qed.


Lemma int_body_minus (s : string) :
  all_chars is_decimal s = true -> int_body (String "-" s) = s.
Proof.
  intros Hd. unfold int_body.
  rewrite int_strip_no_space; [reflexivity|].
  simpl. eapply all_chars_impl; [apply decimal_no_space|exact Hd].
Qed.


Lemma int_minus_decimal (s : string) :
  all_chars is_decimal s = true ->
  int (String "-" s) =
  if (String.length s <=? max_str_digits)%nat
  then option_map Z.opp (parse_digits 0 false s) else None.
Proof.
  intros Hd. unfold int.
  rewrite (over_limit_body _ s (int_body_minus s Hd) Hd).
  destruct (String.length s <=? max_str_digits)%nat; [|reflexivity].
  rewrite int_strip_no_space; [reflexivity|].
  simpl. eapply all_chars_impl; [apply decimal_no_space|exact Hd].
Qed.

Lemma parse_digits_zeros (k : nat) (s : string) :
  forall prev,
    parse_digits 0 prev (zeros k +++ s) =
    parse_digits 0 (prev || negb (Nat.eqb k 0)) s.
Proof.
  induction k as [|k IH]; intros prev; simpl.
  - rewrite orb_false_r. reflexivity.
  - change (is_decimal "0") with true. cbv iota.
    change (10 * 0 + digit_value "0") with 0. rewrite IH. simpl.
    rewrite orb_true_r. reflexivity.
Qed.

Lemma zeros_decimal (k : nat) : all_chars is_decimal (zeros k) = true.
Proof. induction k; simpl; [reflexivity|exact IHk]. Qed.

Lemma uint_val_N (a : N) : uint_val 0 (N.to_uint a) = Z.of_N a.
Proof. rewrite <- of_uint_val. change Pos.of_uint with N.of_uint. now rewrite DecimalN.Unsigned.of_to. Qed.

Lemma N_to_uint_nonnil (a : N) : N.to_uint a <> Decimal.Nil.
Proof. destruct a; simpl; [discriminate|apply DecimalPos.Unsigned.to_uint_nonnil]. Qed.

(** The decimal digits of a natural number, after any number of zeros,
    read back as that number. *)
Lemma parse_digits_padded (k : nat) (a : N) :
  parse_digits 0 false (zeros k +++ NilEmpty.string_of_uint (N.to_uint a)) = Some (Z.of_N a).
Proof.
  rewrite parse_digits_zeros, parse_digits_uint.
  pose proof (N_to_uint_nonnil a) as Hn.
  rewrite <- (uint_val_N a). destruct (N.to_uint a); [congruence|reflexivity..].
Qed.

Lemma padded_decimal (k : nat) (a : N) :
  all_chars is_decimal (zeros k +++ NilEmpty.string_of_uint (N.to_uint a)) = true /\
  zeros k +++ NilEmpty.string_of_uint (N.to_uint a) <> EmptyString.
Proof.
  split.
  - rewrite all_chars_app, zeros_decimal, string_of_uint_decimal. reflexivity.
  - apply append_nonempty_r, string_of_uint_nonempty, N_to_uint_nonnil.
Qed.


Lemma of_Z_nonneg (n : Z) :
  0 <= n -> of_Z n = NilEmpty.string_of_uint (N.to_uint (Z.to_N n)).
Proof. destruct n; intros H; try reflexivity. lia. Qed.

Lemma of_Z_neg (n : Z) :
  n < 0 -> of_Z n = String "-" (NilEmpty.string_of_uint (N.to_uint (Z.abs_N n))).
Proof. destruct n; intros H; try reflexivity; lia. Qed.

(** A sign and decimal digits, as [str] and the format [04d] write them,
    determine the number. *)
Lemma signed_digits_of_Z (n : Z) : signed_digits (of_Z n) = Some n.
Proof.
  destruct (Z.lt_ge_cases n 0) as [Hn|Hn].
  - rewrite of_Z_neg by assumption. cbn [signed_digits]. rewrite Ascii.eqb_refl.
    change (parse_digits 0 false ?x) with (parse_digits 0 false (zeros 0 +++ x)).
    rewrite parse_digits_padded. simpl. f_equal. rewrite N2Z.inj_abs_N. lia.
  - rewrite of_Z_nonneg by assumption.
    pose proof (string_of_uint_decimal (N.to_uint (Z.to_N n))) as Hd.
    pose proof (parse_digits_padded 0 (Z.to_N n)) as Hp.
    change (zeros 0 +++ ?x) with x in Hp.
    destruct (NilEmpty.string_of_uint (N.to_uint (Z.to_N n))) as [|c r]; [discriminate|].
    cbn [signed_digits]. simpl in Hd. apply andb_prop in Hd as [Hc _].
    destruct (Ascii.eqb_spec c "-") as [->|_]; [discriminate|].
    rewrite Hp. f_equal. lia.
Qed.

Lemma signed_digits_format_04d (n : Z) : signed_digits (format_04d n) = Some n.
Proof.
  unfold format_04d. destruct (Z.ltb_spec n 0) as [Hn|Hn].
  - change ("-" +++ ?x) with (String "-" x). cbn [signed_digits].
    rewrite Ascii.eqb_refl, parse_digits_padded. simpl. f_equal.
    rewrite N2Z.inj_abs_N. lia.
  - simpl String.append at 1.
    destruct (padded_decimal (4 - (String.length EmptyString +
                String.length (NilEmpty.string_of_uint (N.to_uint (Z.abs_N n)))))
                (Z.abs_N n)) as [Hd Hne].
    pose proof (parse_digits_padded (4 - (String.length EmptyString +
                String.length (NilEmpty.string_of_uint (N.to_uint (Z.abs_N n)))))
                (Z.abs_N n)) as Hp.
    destruct (zeros _ +++ _) as [|c r]; [congruence|].
    cbn [signed_digits]. simpl in Hd. apply andb_prop in Hd as [Hc _].
    destruct (Ascii.eqb_spec c "-") as [->|_]; [discriminate|].
    rewrite Hp. f_equal. rewrite N2Z.inj_abs_N. lia.
Qed.

End Decimal.

(* ===================================================================== *)
(** * The numbers in names and titles *)
(* ===================================================================== *)

Section Names.
Import PyStr OsPath.







Lemma append_length (a b : string) :
  String.length (a +++ b) = (String.length a + String.length b)%nat.
Proof. induction a as [|x a IH]; simpl; [reflexivity|]. now rewrite IH. Qed.

Lemma append_inv_head (p a b : string) : p +++ a = p +++ b -> a = b.
Proof. induction p as [|x p IH]; simpl; [auto|]. intros H. injection H. exact IH. Qed.

Lemma append_inv_tail (a b c : string) : a +++ c = b +++ c -> a = b.
Proof.
  revert b. induction a as [|x a IH]; intros [|y b] H.
  - reflexivity.
  - apply (f_equal String.length) in H. simpl in H. rewrite append_length in H. lia.
  - apply (f_equal String.length) in H. simpl in H. rewrite append_length in H. lia.
  - simpl in H. injection H as -> H. f_equal. apply IH, H.
Qed.


End Names.

Section ChapterNumbers.
Import PyStr OsPath.














End ChapterNumbers.

Section ChapterNumbers2.
Import PyStr OsPath.



End ChapterNumbers2.





Section Naming.
Import PyStr OsPath.

Lemma join_inv (a b1 b2 : string) :
  startswith (String sep EmptyString) b1 = false ->
  startswith (String sep EmptyString) b2 = false ->
  join a b1 = join a b2 -> b1 = b2.
Proof.
  unfold join. intros -> ->.
  destruct (String.eqb a EmptyString || endswith (String sep EmptyString) a).
  - apply append_inv_head.
  - intros H. apply append_inv_head in H. injection H. auto.
Qed.

End Naming.

(** X4.  Two chapters never share an output document, nor a scratch
    directory: the names that the coordinator gives them, those of
    [named_by_chapter], both determine the chapter number. *)
Theorem chapter_names_do_not_collide (cfg : Config) (n1 n2 : Z) :
  named_by_chapter cfg (pdf_path cfg n1) (extract_dir cfg n1) /\
  (pdf_path cfg n1 = pdf_path cfg n2 <-> n1 = n2) /\
  (extract_dir cfg n1 = extract_dir cfg n2 <-> n1 = n2).
Proof.
  split; [exists n1; split; reflexivity|].
  split; (split; [|intros ->; reflexivity]).
  - unfold pdf_path. intros H. apply join_inv in H; [|reflexivity..].
    apply (append_inv_head "One Piece - ") in H. apply append_inv_tail in H.
    apply (f_equal signed_digits) in H. rewrite !signed_digits_format_04d in H. congruence.
  - unfold extract_dir. intros H. apply join_inv in H; [|reflexivity..].
    apply (append_inv_head "chapter_") in H.
    apply (f_equal signed_digits) in H. rewrite !signed_digits_of_Z in H. congruence.
Qed.

Section SortKey.
Import PyStr OsPath.




End SortKey.



(* ===================================================================== *)
(** * The pages of a document *)
(* ===================================================================== *)

Lemma loaded_rgb (w : World) (paths : list string) :
  Forall (fun i => img_mode i = "RGB"%string) (loaded w paths).
Proof.
  apply List.Forall_forall. intros i Hin. apply in_loaded in Hin as (p & _ & Hp).
  unfold opened, image_open_rgb in Hp.
  destruct (fs_lookup (w_fs_extracted w) p) as [[t [j|]|t es]|]; try discriminate.
  injection Hp as <-. reflexivity.
Qed.

(** X6.  Every page of a document is in RGB.  Whatever the scratch directory
    holds, when [images_to_pdf] writes a document it writes it at the path
    it was given, with at least one page, every page went through
    [convert('RGB')], and the write went through exactly when the function
    returns [True]. *)
Theorem saved_pages_are_rgb (w : World) (folder out : string) (n : Z) :
  exists r evs,
    runs_as (images_to_pdf w folder out n) r evs /\
    forall path pages ok,
      In (SavePdf path pages ok) evs ->
      path = out /\ pages <> [] /\
      Forall (fun i => img_mode i = "RGB"%string) pages /\
      (r = Ret true <-> ok = true).
Proof.
  assert (Hhead : forall e, runs_as (images_to_pdf w folder out n) (Raise e)
                              (assembler_head folder out) ->
            exists r evs,
              runs_as (images_to_pdf w folder out n) r evs /\
              forall path pages ok,
                In (SavePdf path pages ok) evs ->
                path = out /\ pages <> [] /\
                Forall (fun i => img_mode i = "RGB"%string) pages /\
                (r = Ret true <-> ok = true)).
  { intros e H. exists (Raise e), (assembler_head folder out). split; [exact H|].
    intros p pg ok Hin. unfold assembler_head in Hin. simpl in Hin. intuition discriminate. }
  destruct (os_listdir (w_fs_extracted w) folder) as [names|e] eqn:El.
  - destruct (sorted sort_key (map (OsPath.join folder) (List.filter is_image_name names)))
      as [paths|e] eqn:Es.
    + pose proof (images_to_pdf_runs w folder out n names paths El Es) as H.
      eexists _, _. split; [exact H|].
      pose proof (assemble_spec w folder out paths) as Ha. cbv zeta in Ha.
      pose proof (loaded_rgb w paths) as Hrgb.
      intros p pg ok Hin. apply in_head_save in Hin.
      destruct (loaded w paths) as [|i imgs].
      * destruct Ha as [_ Hev]. now apply Hev in Hin.
      * destruct Ha as [Hr Hev]. apply Hev in Hin as (-> & -> & ->).
        split; [reflexivity|]. split; [discriminate|]. split; [exact Hrgb|].
        rewrite Hr. split; [intros [= ->]; reflexivity|intros ->; reflexivity].
    + apply (Hhead e). unfold images_to_pdf, assembler_head, logging.
      do 2 apply runs_emit_then. rewrite El. apply runs_lift_then. cbv zeta.
      rewrite Es. apply runs_lift_raise.
  - apply (Hhead e). unfold images_to_pdf, assembler_head, logging.
    do 2 apply runs_emit_then. rewrite El. apply runs_lift_raise.
Qed.

(* ===================================================================== *)
(** * The ledger, whatever the file holds *)
(* ===================================================================== *)

Section LedgerLines.
Import PyStr.

Lemma readlines_cons (c : ascii) (r : string) :
  readlines (String c r) =
  if Ascii.eqb c LF then NL :: readlines r
  else if Ascii.eqb c CR then
    match r with
    | String d r' => if Ascii.eqb d LF then NL :: readlines r' else NL :: readlines r
    | EmptyString => [NL]
    end
  else match readlines r with
       | [] => [String c EmptyString]
       | h :: t => String c h :: t
       end.
Proof. reflexivity. Qed.

Lemma string_pair_ind (P : string -> Prop) :
  P EmptyString -> (forall c, P (String c EmptyString)) ->
  (forall c d s, P s -> P (String d s) -> P (String c (String d s))) ->
  forall s, P s.
Proof.
  intros H0 H1 H2 s. enough (P s /\ forall c, P (String c s)) by tauto.
  induction s as [|d s [IH1 IH2]]; [auto|]. split; [apply IH2|].
  intros c. apply H2; auto.
Qed.

Lemma readlines_nonempty (s : string) : s <> EmptyString -> readlines s <> [].
Proof.
  destruct s as [|c r]; [congruence|]. intros _. rewrite readlines_cons.
  destruct (Ascii.eqb c LF); [discriminate|].
  destruct (Ascii.eqb c CR).
  - destruct r as [|d r']; [discriminate|]. destruct (Ascii.eqb d LF); discriminate.
  - destruct (readlines r); discriminate.
Qed.

(** After a line break the reading starts afresh. *)
Lemma readlines_app (a rest : string) :
  readlines ((a +++ NL) +++ rest) = readlines (a +++ NL) ++ readlines rest.
Proof.
  induction a as [| c | c d a IH1 IH2] using string_pair_ind.
  - reflexivity.
  - change ((String c EmptyString +++ NL) +++ rest) with (String c (String LF rest)).
    change (String c EmptyString +++ NL) with (String c (String LF EmptyString)).
    rewrite !(readlines_cons c).
    destruct (Ascii.eqb c LF); [reflexivity|].
    destruct (Ascii.eqb c CR); [reflexivity|]. reflexivity.
  - change ((String c (String d a) +++ NL) +++ rest)
      with (String c (String d ((a +++ NL) +++ rest))).
    change (String c (String d a) +++ NL) with (String c (String d (a +++ NL))).
    rewrite !(readlines_cons c).
    change (String d ((a +++ NL) +++ rest)) with ((String d a +++ NL) +++ rest).
    change (String d (a +++ NL)) with (String d a +++ NL).
    destruct (Ascii.eqb c LF); [now rewrite IH2|].
    destruct (Ascii.eqb c CR).
    + change ((String d a +++ NL) +++ rest) with (String d ((a +++ NL) +++ rest)).
      change (String d a +++ NL) with (String d (a +++ NL)).
      cbv iota. destruct (Ascii.eqb d LF); [now rewrite IH1|].
      change (String d ((a +++ NL) +++ rest)) with ((String d a +++ NL) +++ rest).
      change (String d (a +++ NL)) with (String d a +++ NL). now rewrite IH2.
    + rewrite IH2.
      pose proof (readlines_nonempty (String d a +++ NL)) as Hne.
      destruct (readlines (String d a +++ NL)); [now destruct Hne|reflexivity].
Qed.

Lemma line_ok_cons (c : ascii) (h : string) :
  Ascii.eqb c LF = false -> Ascii.eqb c CR = false -> line_ok h -> line_ok (String c h).
Proof.
  intros H1 H2 (body & Hb & Hl & Hc). exists (String c body). split.
  - destruct Hb as [->| ->]; [left|right]; reflexivity.
  - simpl. now rewrite H1, H2, Hl, Hc.
Qed.

Lemma line_ok_NL : line_ok NL.
Proof. exists EmptyString. split; [left; reflexivity|split; reflexivity]. Qed.

Lemma readlines_line_ok (s : string) : Forall line_ok (readlines s).
Proof.
  induction s as [| c | c d s IH1 IH2] using string_pair_ind.
  - constructor.
  - rewrite readlines_cons.
    destruct (Ascii.eqb c LF) eqn:H1; [repeat constructor; apply line_ok_NL|].
    destruct (Ascii.eqb c CR) eqn:H2; [repeat constructor; apply line_ok_NL|].
    repeat constructor. exists (String c EmptyString). split; [right; reflexivity|].
    simpl. now rewrite H1, H2.
  - rewrite readlines_cons.
    destruct (Ascii.eqb c LF) eqn:H1; [constructor; [apply line_ok_NL|exact IH2]|].
    destruct (Ascii.eqb c CR) eqn:H2.
    + destruct (Ascii.eqb d LF); (constructor; [apply line_ok_NL|assumption]).
    + pose proof (readlines_nonempty (String d s)) as Hne.
      destruct (readlines (String d s)) as [|h t]; [now destruct Hne|].
      inversion IH2; subst. constructor; [|assumption]. now apply line_ok_cons.
Qed.

Lemma lstrip_app (a b : string) :
  lstrip (a +++ b) =
  match lstrip a with EmptyString => lstrip b | _ => lstrip a +++ b end.
Proof.
  induction a as [|c a IH]; [reflexivity|]. simpl. destruct (is_space c); [exact IH|].
  reflexivity.
Qed.

Lemma strip_app_NL (body : string) : strip (body +++ NL) = strip body.
Proof.
  unfold strip. rewrite lstrip_app. destruct (lstrip body) as [|x y]; [reflexivity|].
  apply (rstrip_app_space (String x y) LF). reflexivity.
Qed.

Lemma has_char_lstrip_le (c : ascii) (s : string) :
  has_char c (lstrip s) = true -> has_char c s = true.
Proof.
  induction s as [|a s IH]; simpl; [auto|]. destruct (is_space a); [|auto].
  intros H. rewrite (IH H). apply orb_true_r.
Qed.

Lemma has_char_rstrip_le (c : ascii) (s : string) :
  has_char c (rstrip s) = true -> has_char c s = true.
Proof.
  induction s as [|a s IH]; simpl; [auto|].
  destruct (rstrip s) as [|x y].
  - destruct (is_space a); simpl; [discriminate|].
    rewrite orb_false_r. intros ->. reflexivity.
  - simpl. intros H. apply orb_prop in H as [->|H]; [reflexivity|].
    simpl in IH. rewrite (IH H). apply orb_true_r.
Qed.

Lemma has_char_strip_le (c : ascii) (s : string) :
  has_char c (strip s) = true -> has_char c s = true.
Proof. intros H. apply has_char_lstrip_le, has_char_rstrip_le, H. Qed.

Lemma rstrip_idem (s : string) : rstrip (rstrip s) = rstrip s.
Proof.
  induction s as [|c s IH]; [reflexivity|]. simpl.
  destruct (rstrip s) as [|x y] eqn:Hr.
  - destruct (is_space c) eqn:Hc; [reflexivity|]. simpl. now rewrite Hc.
  - change (rstrip (String c (String x y)))
      with (match rstrip (String x y) with
            | EmptyString => if is_space c then EmptyString else String c EmptyString
            | r' => String c r'
            end).
    rewrite IH. reflexivity.
Qed.

Lemma lstrip_rstrip_lstrip (s : string) : lstrip (rstrip (lstrip s)) = rstrip (lstrip s).
Proof.
  induction s as [|c s IH]; [reflexivity|]. cbn [lstrip].
  destruct (is_space c) eqn:Hc; [exact IH|].
  cbn [rstrip]. destruct (rstrip s); rewrite ?Hc; cbn [lstrip]; now rewrite Hc.
Qed.

Lemma strip_idem (s : string) : strip (strip s) = strip s.
Proof. unfold strip. rewrite lstrip_rstrip_lstrip. apply rstrip_idem. Qed.

Lemma parse_ledger_app (t1 t2 : string) :
  readlines (t1 +++ t2) = readlines t1 ++ readlines t2 ->
  parse_ledger (t1 +++ t2) = parse_ledger t1 ∪ parse_ledger t2.
Proof.
  intros H. unfold parse_ledger. rewrite H, List.filter_app, map_app.
  apply list_to_set_app_L.
Qed.

Lemma parse_ledger_one (l : string) : clean_link l -> parse_ledger (l +++ NL) = {[ l ]}.
Proof.
  intros Hl. assert (Hall : Forall clean_link [l]) by (constructor; [exact Hl|constructor]).
  pose proof (parse_ledger_lines [l] Hall) as H.
  simpl in H. rewrite append_empty_r in H. rewrite H. apply union_empty_r_L.
Qed.

End LedgerLines.

(** X7.  Every link that [load_processed_chapters] finds in a file, whatever
    the file holds, is clean: not empty, without line break and without
    white space around it. *)
Theorem loaded_links_are_clean (text x : string) :
  x ∈ parse_ledger text -> clean_link x.
Proof.
  unfold parse_ledger. rewrite elem_of_list_to_set, list_elem_of_In, in_map_iff.
  intros (line & <- & Hin). apply filter_In in Hin as [Hin Ht].
  pose proof (readlines_line_ok text) as Hok. rewrite List.Forall_forall in Hok.
  destruct (Hok _ Hin) as (body & Hb & Hlf & Hcr).
  assert (Hs : PyStr.strip line = PyStr.strip body).
  { destruct Hb as [->| ->]; [apply strip_app_NL|reflexivity]. }
  rewrite Hs in *. unfold clean_link. repeat split.
  - unfold truthy in Ht. apply negb_true_iff, String.eqb_neq in Ht. exact Ht.
  - destruct (PyStr.has_char LF (PyStr.strip body)) eqn:E; [|reflexivity].
    apply has_char_strip_le in E. congruence.
  - destruct (PyStr.has_char CR (PyStr.strip body)) eqn:E; [|reflexivity].
    apply has_char_strip_le in E. congruence.
  - apply strip_idem.
Qed.

Lemma loaded_links_are_clean_witness :
  clean_link "https://blog.example/ch-1".
Proof.
  apply (loaded_links_are_clean
           (String " " ("https://blog.example/ch-1" +++ String CR (NL +++ NL +++ "x"))) ).
  vm_compute. reflexivity.
Defined.

(** X8.  Recording a link adds it to what the file holds and loses nothing:
    when the file is missing, empty or ends with a line break, loading
    after [save_processed_chapter] gives the links loaded before and the
    new one. *)
Theorem recorded_link_is_loaded (w : World) (l : string) (s : state) :
  clean_link l ->
  w_append w (l +++ NL) = None -> w_read w = None ->
  match ledger_file s with
  | Some text => text = EmptyString \/ PyStr.endswith NL text = true
  | None => True
  end ->
  exists before : gset string,
    fst (load_processed_chapters w s) = Ret before /\
    fst (load_processed_chapters w (snd (save_processed_chapter w l s)))
      = Ret ({[ l ]} ∪ before).
Proof.
  intros Hl Ha Hr Hend.
  rewrite save_processed_chapter_run. unfold saved_file. rewrite Ha.
  unfold load_processed_chapters, bind, get_ledger, try_except. cbn [ledger_file fst snd].
  rewrite Hr. destruct (ledger_file s) as [text|]; cbn [append_text].
  - exists (parse_ledger text). split; [reflexivity|]. cbn. f_equal.
    destruct Hend as [->|Hend].
    + simpl. rewrite (parse_ledger_one l Hl). symmetry. apply union_empty_r_L.
    + apply endswith_split in Hend as (a & ->).
      rewrite parse_ledger_app by apply readlines_app.
      rewrite (parse_ledger_one l Hl). apply union_comm_L.
  - exists ∅. split; [reflexivity|]. cbn. f_equal.
    rewrite (parse_ledger_one l Hl). symmetry. apply union_empty_r_L.
Qed.

Lemma recorded_link_is_loaded_witness :
  exists before : gset string,
    fst (load_processed_chapters world_two_pages
           (mk_state (Some ("https://blog.example/ch-1" +++ NL)) ∅ [])) = Ret before /\
    fst (load_processed_chapters world_two_pages
           (snd (save_processed_chapter world_two_pages "https://blog.example/ch-2"
                   (mk_state (Some ("https://blog.example/ch-1" +++ NL)) ∅ []))))
      = Ret ({[ "https://blog.example/ch-2"%string ]} ∪ before).
Proof.
  apply (recorded_link_is_loaded world_two_pages "https://blog.example/ch-2"
           (mk_state (Some ("https://blog.example/ch-1" +++ NL)) ∅ [])).
  - apply clean_linkb_spec. reflexivity.
  - reflexivity.
  - reflexivity.
  - right. reflexivity.
Defined.

(** After a last line that has no line break the new link is not a line of
    its own. *)
Example ledger_joins_an_unfinished_line :
  parse_ledger ("https://blog.example/ch-1" +++ "https://blog.example/ch-2" +++ NL)
  = {[ "https://blog.example/ch-1https://blog.example/ch-2"%string ]}.
Proof. vm_compute. reflexivity. Qed.

(* ===================================================================== *)
(** * The archive fetcher and the first stages of the pipeline *)
(* ===================================================================== *)

Lemma max_from_ret (k : string -> outcome Z) (l : list string) :
  forall best bk m,
    max_from k best bk l = Ret m -> m = best \/ In m l /\ exists t, k m = Ret t.
Proof.
  induction l as [|x r IH]; intros best bk m; simpl.
  - intros [= ->]. auto.
  - destruct (k x) as [kx|e] eqn:Hk; [|discriminate].
    destruct (bk <? kx); intros H; apply IH in H as [->|(Hin & t & Ht)]; eauto.
Qed.

Lemma max_by_ret (k : string -> outcome Z) (l : list string) (m : string) :
  max_by k l = Ret m -> In m l /\ exists t, k m = Ret t.
Proof.
  destruct l as [|x r]; simpl; [discriminate|].
  destruct (k x) as [kx|e] eqn:Hk; [|discriminate].
  intros H. apply max_from_ret in H as [->|(Hin & t & Ht)]; eauto.
Qed.

Lemma getmtime_exists (root : fsnode) (p : string) (t : Z) :
  os_path_getmtime root p = Ret t -> os_path_exists root p = true.
Proof.
  unfold os_path_getmtime, os_path_exists. destruct (fs_lookup root p); [auto|discriminate].
Qed.

Lemma endswith_nonempty (p s : string) :
  p <> EmptyString -> PyStr.endswith p s = true -> s <> EmptyString.
Proof.
  intros Hp H ->. simpl in H. apply String.eqb_eq in H. contradiction.
Qed.

(** What the fetcher hands over is there. *)
Lemma download_from_mega_sound (w : World) (mega_url dest p f : string) (s : state) :
  fst (download_from_mega w mega_url dest s) = Ret (Some (p, f)) ->
  p = OsPath.join dest f /\ f <> EmptyString /\
  os_path_exists (w_fs_fetched w) p = true.
Proof.
  unfold download_from_mega, logging.
  unfold bind at 1, emit at 1, try_except. unfold bind at 1, emit at 1.
  unfold bind at 1, lift at 1.
  destruct (w_mega w mega_url dest) as [[f0|]|e].
  - unfold bind at 1, emit at 1. cbv beta iota zeta.
    destruct (truthy f0) eqn:Hf0.
    + destruct (truthy (OsPath.join dest f0) && os_path_exists (w_fs_fetched w) (OsPath.join dest f0))
        eqn:Hex; unfold bind, emit, ret; cbn [fst]; [|discriminate].
      intros [= <- <-]. apply andb_prop in Hex as [_ Hex].
      split; [reflexivity|]. split; [|exact Hex].
      unfold truthy in Hf0. apply negb_true_iff, String.eqb_neq in Hf0. exact Hf0.
    + unfold bind, emit, ret. cbn [fst]. discriminate.
  - unfold bind, emit, ret. cbn [fst]. discriminate.
  - unfold bind at 1.
    destruct (PyStr.contains "WinError 32" (exn_str e)).
    + unfold bind at 1, emit at 1. unfold bind at 1, emit at 1.
      unfold bind at 1, lift at 1.
      destruct (os_listdir (w_fs_fetched w) dest) as [names|e'].
      * cbv beta iota zeta.
        destruct (List.filter (PyStr.endswith ".rar") names) as [|x r] eqn:Hrar.
        -- unfold ret at 1. unfold bind, emit, ret. cbn [fst]. discriminate.
        -- unfold bind at 1, lift at 1.
           destruct (max_by _ (x :: r)) as [latest|e'] eqn:Hmax.
           ++ unfold bind, emit, ret. cbn [fst]. intros [= <- <-].
              apply max_by_ret in Hmax as (Hin & t & Ht).
              split; [reflexivity|]. split; [|exact (getmtime_exists _ _ _ Ht)].
              rewrite <- Hrar in Hin. apply filter_In in Hin as [_ Hend].
              apply (endswith_nonempty ".rar"); [discriminate|exact Hend].
           ++ cbn [fst]. discriminate.
      * cbn [fst]. discriminate.
    + unfold ret at 1. unfold bind, emit, ret. cbn [fst]. discriminate.
Qed.

(** X9.  The fetcher never hands over a path to nothing.  When
    [download_from_mega] returns a path and a file name, on the normal way
    or after the access error, the path is the destination folder joined
    with the name, the name is not empty, and the file exists. *)
Theorem fetched_archive_exists (w : World) (mega_url dest p f : string) (s : state) :
  fst (download_from_mega w mega_url dest s) = Ret (Some (p, f)) ->
  p = OsPath.join dest f /\ f <> EmptyString /\
  os_path_exists (w_fs_fetched w) p = true.
Proof. apply download_from_mega_sound. Qed.

Lemma fetched_archive_exists_witness :
  "/srv/temp_downloads/c2.rar"%string = OsPath.join "/srv/temp_downloads" "c2.rar" /\
  "c2.rar"%string <> EmptyString /\
  os_path_exists (w_fs_fetched world_locked) "/srv/temp_downloads/c2.rar" = true.
Proof.
  apply (fetched_archive_exists world_locked "https://mega.nz/file/abc"
           "/srv/temp_downloads" _ _ initial).
  reflexivity.
Defined.

Lemma get_mega_file_url_resolved (w : World) (post_url : string) :
  runs_as (get_mega_file_url w post_url) (fst (resolved w post_url))
    (Log INFO ("Fetching Mega.nz link from: " +++ post_url) :: HttpGet post_url
       :: snd (resolved w post_url)).
Proof.
  unfold get_mega_file_url, resolved, logging.
  destruct (w_page w post_url) as [anchors|e].
  - destruct (mega_links_of anchors) as [|first rest] eqn:Hl; cbn [fst snd].
    + apply runs_emit_then, runs_try_ret, runs_emit_then.
      apply runs_lift_then. rewrite Hl. apply runs_emit_ret.
    + apply runs_emit_then, runs_try_ret, runs_emit_then.
      apply runs_lift_then. rewrite Hl. apply runs_emit_ret.
  - destruct (is_RequestException (exn_kind e)) eqn:He; cbn [fst snd].
    + apply runs_emit_then.
      change (HttpGet post_url :: [?x]) with ([HttpGet post_url] ++ [x]).
      eapply runs_try_raise.
      * apply runs_emit_then. apply runs_lift_raise.
      * rewrite He. apply runs_emit_ret.
    + apply runs_emit_then.
      change [HttpGet post_url] with ([HttpGet post_url] ++ []).
      eapply runs_try_raise.
      * apply runs_emit_then. apply runs_lift_raise.
      * rewrite He. apply runs_raise.
Qed.

Lemma contains_nonempty (sub s : string) :
  sub <> EmptyString -> PyStr.contains sub s = true -> s <> EmptyString.
Proof.
  intros Hsub H ->. destruct sub; [congruence|]. simpl in H. discriminate.
Qed.

Lemma resolved_link_truthy (w : World) (post_url mega_link : string) :
  fst (resolved w post_url) = Ret (Some mega_link) -> truthy mega_link = true.
Proof.
  unfold resolved. destruct (w_page w post_url) as [anchors|e].
  - destruct (mega_links_of anchors) as [|first rest] eqn:Hl; [discriminate|].
    cbn [fst]. intros [= <-].
    assert (Hin : In first (mega_links_of anchors)) by (rewrite Hl; left; reflexivity).
    apply filter_In in Hin as [_ Hc].
    unfold truthy. apply negb_true_iff, String.eqb_neq.
    apply (contains_nonempty "mega.nz"); [discriminate|exact Hc].
  - destruct (is_RequestException (exn_kind e)); discriminate.
Qed.

(** X10.  A post without a link to the storage provider.  When the page of the
    post cannot be fetched, or holds no link with [mega.nz] in it, the
    coordinator stops after the request: it returns [False], or raises what
    the request raised when that is not a [RequestException]; it logs the
    reason and calls neither the storage provider nor the file system. *)
Theorem post_without_link_stops_the_pipeline (cfg : Config) (w : World)
    (post_link : string) :
  (forall anchors, w_page w post_link = Ret anchors -> mega_links_of anchors = []) ->
  runs_as (process_new_chapter cfg w post_link)
    (match w_page w post_link with
     | Ret _ => Ret false
     | Raise e => if is_RequestException (exn_kind e) then Ret false else Raise e
     end)
    (Log INFO ("Processing new chapter from post: " +++ post_link)
     :: Log INFO ("Fetching Mega.nz link from: " +++ post_link)
     :: HttpGet post_link
     :: match w_page w post_link with
        | Ret _ => [Log WARNING ("No Mega.nz link found on post: " +++ post_link)]
        | Raise e =>
            if is_RequestException (exn_kind e)
            then [Log ERROR ("Error fetching post " +++ post_link +++ ": " +++ exn_str e)]
            else []
        end).
Proof.
  intros Hno. pose proof (get_mega_file_url_resolved w post_link) as Hr.
  unfold resolved in Hr. unfold process_new_chapter, logging. apply runs_emit_then.
  destruct (w_page w post_link) as [anchors|e].
  - rewrite (Hno anchors eq_refl) in Hr. cbn [fst snd] in Hr.
    rewrite <- (app_nil_r (_ :: _)). eapply runs_bind_ret; [exact Hr|]. apply runs_ret.
  - destruct (is_RequestException (exn_kind e)); cbn [fst snd] in Hr.
    + rewrite <- (app_nil_r (_ :: _)). eapply runs_bind_ret; [exact Hr|]. apply runs_ret.
    + apply runs_bind_raise. exact Hr.
Qed.

Lemma post_without_link_stops_the_pipeline_witness :
  runs_as (process_new_chapter sample_cfg world_unreadable "https://blog.example/ch-1")
    (Ret false)
    [Log INFO "Processing new chapter from post: https://blog.example/ch-1";
     Log INFO "Fetching Mega.nz link from: https://blog.example/ch-1";
     HttpGet "https://blog.example/ch-1";
     Log WARNING "No Mega.nz link found on post: https://blog.example/ch-1"].
Proof.
  apply (post_without_link_stops_the_pipeline sample_cfg world_unreadable
           "https://blog.example/ch-1").
  intros anchors [= <-]. reflexivity.
Defined.

Lemma extract_rar_run (w : World) (rar dest : string) :
  exists msg,
    runs_as (extract_rar w rar dest)
      (Ret (match w_extract w rar dest with None => true | Some _ => false end))
      [Log INFO ("Extracting RAR: " +++ rar +++ " to " +++ dest);
       Extract rar dest;
       Log (match w_extract w rar dest with None => INFO | Some _ => ERROR end) msg].
Proof.
  unfold extract_rar, logging. destruct (w_extract w rar dest) as [e|].
  - assert (H : exists msg, runs_as
        (match exn_kind e with
         | RarCannotExec =>
             emit (Log ERROR
               ("UnRar executable not found or not in PATH. Please install 'unrar': "
                +++ exn_str e)) ;; ret false
         | BadRarFile =>
             emit (Log ERROR ("Bad RAR file: " +++ rar +++ " - " +++ exn_str e)) ;; ret false
         | _ =>
             emit (Log ERROR ("Error extracting RAR " +++ rar +++ ": " +++ exn_str e)) ;;
             ret false
         end) (Ret false) [Log ERROR msg]).
    { destruct (exn_kind e); eexists; apply runs_emit_ret. }
    destruct H as (msg & H). exists msg. apply runs_emit_then.
    change (Extract rar dest :: [?x]) with ([Extract rar dest] ++ [x]).
    eapply runs_try_raise; [apply runs_emit_raise|exact H].
  - eexists. apply runs_emit_then, runs_try_ret, runs_emit_then, runs_emit_ret.
Qed.

(** X11.  [extract_rar] never raises: whatever the extraction raises, a missing
    [unrar], a damaged archive or anything else, becomes [False] and one
    line of the log; it returns [True] exactly when the extraction went
    through. *)
Theorem extract_rar_never_raises (w : World) (rar dest : string) :
  exists msg,
    runs_as (extract_rar w rar dest)
      (Ret (match w_extract w rar dest with None => true | Some _ => false end))
      [Log INFO ("Extracting RAR: " +++ rar +++ " to " +++ dest);
       Extract rar dest;
       Log (match w_extract w rar dest with None => INFO | Some _ => ERROR end) msg].
Proof. apply extract_rar_run. Qed.

Lemma exists_truthy (root : fsnode) (p : string) :
  os_path_exists root p = true -> truthy p = true.
Proof.
  unfold os_path_exists. destruct (fs_lookup root p) eqn:H; [|discriminate].
  intros _. apply fs_lookup_nonempty in H.
  unfold truthy. now apply negb_true_iff, String.eqb_neq.
Qed.

(** The stages before the scratch directory, when the archive was fetched
    and its name gave a number. *)
Lemma pipeline_stages (cfg : Config) (w : World) (post_link mega_link p f : string)
    (n : Z) :
  fst (get_mega_file_url w post_link initial) = Ret (Some mega_link) ->
  fst (download_from_mega w mega_link (TEMP_DIR cfg) initial) = Ret (Some (p, f)) ->
  fst (get_chapter_number_from_filename f initial) = Ret (Some n) ->
  truthy mega_link = true /\ truthy p = true /\
  exists e1 e2 e3,
    runs_as (get_mega_file_url w post_link) (Ret (Some mega_link)) e1 /\
    runs_as (download_from_mega w mega_link (TEMP_DIR cfg)) (Ret (Some (p, f))) e2 /\
    runs_as (get_chapter_number_from_filename f) (Ret (Some n)) e3 /\
    Forall early (Log INFO ("Processing new chapter from post: " +++ post_link)
                  :: e1 ++ e2 ++ e3).
Proof.
  intros H1 H2 H3. split; [|split].
  - apply (resolved_link_truthy w post_link).
    rewrite <- H1. now rewrite (get_mega_file_url_resolved w post_link).
  - destruct (download_from_mega_sound _ _ _ _ _ _ H2) as (_ & _ & Hex).
    exact (exists_truthy _ _ Hex).
  - destruct (emits_result early _ _ (early_get_mega_file_url w post_link) H1)
      as (e1 & Hr1 & He1).
    destruct (emits_result early _ _
                (early_download_from_mega w mega_link (TEMP_DIR cfg)) H2)
      as (e2 & Hr2 & He2).
    destruct (emits_result early _ _ (early_get_chapter_number_from_filename f) H3)
      as (e3 & Hr3 & He3).
    exists e1, e2, e3. repeat split; auto.
    constructor; [exact I|]. rewrite !Forall_app. auto.
Qed.

(** X12.  A scratch directory that cannot be created.  What [os.makedirs]
    raises leaves the coordinator as it is: nothing is unpacked, and the
    archive that was fetched is not removed. *)
Theorem scratch_directory_failure_leaves_the_archive (cfg : Config) (w : World)
    (post_link mega_link p f : string) (n : Z) (e : exn) :
  fst (get_mega_file_url w post_link initial) = Ret (Some mega_link) ->
  fst (download_from_mega w mega_link (TEMP_DIR cfg) initial) = Ret (Some (p, f)) ->
  fst (get_chapter_number_from_filename f initial) = Ret (Some n) ->
  w_makedirs w (extract_dir cfg n) = Some e ->
  exists pre,
    runs_as (process_new_chapter cfg w post_link) (Raise e)
      (pre ++ [MakeDirs (extract_dir cfg n)]) /\
    Forall early pre.
Proof.
  intros H1 H2 H3 Hmk.
  destruct (pipeline_stages cfg w post_link mega_link p f n H1 H2 H3)
    as (Ht1 & Ht2 & e1 & e2 & e3 & Hr1 & Hr2 & Hr3 & Hearly).
  eexists. split; [|exact Hearly].
  unfold process_new_chapter, logging. simpl app. apply runs_emit_then.
  rewrite <- !app_assoc.
  eapply runs_bind_ret; [exact Hr1|]. cbv beta iota. rewrite Ht1. simpl negb. cbv iota.
  eapply runs_bind_ret; [exact Hr2|]. cbv beta iota. rewrite Ht2. simpl negb. cbv iota.
  eapply runs_bind_ret; [exact Hr3|]. cbv beta iota zeta.
  apply runs_emit_then. fold (extract_dir cfg n). rewrite Hmk.
  apply runs_bind_raise, runs_raise.
Qed.

Lemma scratch_directory_failure_leaves_the_archive_witness :
  exists pre,
    runs_as (process_new_chapter sample_cfg world_read_only "https://blog.example/ch-1")
      (Raise (mk_exn PermissionError "[Errno 13] Permission denied"))
      (pre ++ [MakeDirs "/srv/temp_downloads/chapter_1"]) /\
    Forall early pre.
Proof.
  exact (scratch_directory_failure_leaves_the_archive sample_cfg world_read_only
           "https://blog.example/ch-1" "https://mega.nz/file/abc"
           "/srv/temp_downloads/c1.rar" "c1.rar" 1
           (mk_exn PermissionError "[Errno 13] Permission denied")
           eq_refl eq_refl eq_refl eq_refl).
Defined.

(** X13.  An archive that cannot be unpacked.  After [extract_rar] returned
    [False] the coordinator removes the archive, outside any handler, and
    stops: it returns [False], or raises what the removal raised.  The
    scratch directory stays, no page is opened, no document is written and
    nothing is recorded. *)
Theorem failed_extraction_removes_the_archive (cfg : Config) (w : World)
    (post_link mega_link p f : string) (n : Z) (x : exn) :
  fst (get_mega_file_url w post_link initial) = Ret (Some mega_link) ->
  fst (download_from_mega w mega_link (TEMP_DIR cfg) initial) = Ret (Some (p, f)) ->
  fst (get_chapter_number_from_filename f initial) = Ret (Some n) ->
  w_makedirs w (extract_dir cfg n) = None ->
  w_extract w p (extract_dir cfg n) = Some x ->
  exists pre msg,
    runs_as (process_new_chapter cfg w post_link)
      (match w_remove w p with None => Ret false | Some e => Raise e end)
      (pre ++
       [MakeDirs (extract_dir cfg n);
        Log INFO ("Extracting RAR: " +++ p +++ " to " +++ extract_dir cfg n);
        Extract p (extract_dir cfg n);
        Log ERROR msg;
        Remove p (match w_remove w p with None => true | Some _ => false end)]) /\
    Forall early pre.
Proof.
  intros H1 H2 H3 Hmk Hex.
  destruct (pipeline_stages cfg w post_link mega_link p f n H1 H2 H3)
    as (Ht1 & Ht2 & e1 & e2 & e3 & Hr1 & Hr2 & Hr3 & Hearly).
  destruct (extract_rar_run w p (extract_dir cfg n)) as (msg & Hx). rewrite Hex in Hx.
  eexists. exists msg. split; [|exact Hearly].
  unfold process_new_chapter, logging. simpl app. apply runs_emit_then.
  rewrite <- !app_assoc.
  eapply runs_bind_ret; [exact Hr1|]. cbv beta iota. rewrite Ht1. simpl negb. cbv iota.
  eapply runs_bind_ret; [exact Hr2|]. cbv beta iota. rewrite Ht2. simpl negb. cbv iota.
  eapply runs_bind_ret; [exact Hr3|]. cbv beta iota zeta.
  apply runs_emit_then. fold (extract_dir cfg n). rewrite Hmk.
  change (ret tt ;; ?k) with (bind (lift (Ret tt)) (fun _ => k)).
  apply runs_lift_then.
  change [?a; ?b; ?c; ?d] with ([a; b; c] ++ [d]).
  eapply runs_bind_ret; [exact Hx|]. cbv beta iota. simpl negb. cbv iota.
  unfold effect. destruct (w_remove w p).
  - apply runs_bind_raise, runs_emit_raise.
  - apply runs_emit_then. apply (runs_ret false).
Qed.

Lemma failed_extraction_removes_the_archive_witness :
  exists pre msg,
    runs_as (process_new_chapter sample_cfg world_bad_archive "https://blog.example/ch-1")
      (Ret false)
      (pre ++
       [MakeDirs "/srv/temp_downloads/chapter_1";
        Log INFO "Extracting RAR: /srv/temp_downloads/c1.rar to /srv/temp_downloads/chapter_1";
        Extract "/srv/temp_downloads/c1.rar" "/srv/temp_downloads/chapter_1";
        Log ERROR msg;
        Remove "/srv/temp_downloads/c1.rar" true]) /\
    Forall early pre.
Proof.
  exact (failed_extraction_removes_the_archive sample_cfg world_bad_archive
           "https://blog.example/ch-1" "https://mega.nz/file/abc"
           "/srv/temp_downloads/c1.rar" "c1.rar" 1
           (mk_exn BadRarFile "Failed the read enough data")
           eq_refl eq_refl eq_refl eq_refl eq_refl).
Defined.

(* ===================================================================== *)
(** * The feed watcher *)
(* ===================================================================== *)

Section Traces.
Context {A B : Type} (P : event -> Prop).

Lemma traces_ret (a : A) : traces P (ret a).
Proof. intros s. exists []. simpl. rewrite app_nil_r. auto. Qed.

Lemma traces_raise (e : exn) : traces P (@raise A e).
Proof. intros s. exists []. simpl. rewrite app_nil_r. auto. Qed.

Lemma traces_lift (o : outcome A) : traces P (lift o).
Proof. intros s. exists []. simpl. rewrite app_nil_r. auto. Qed.

Lemma traces_emit (e : event) : P e -> traces P (emit e).
Proof. intros H s. exists [e]. simpl. auto. Qed.

Lemma traces_bind (m : M A) (k : A -> M B) :
  traces P m -> (forall a, traces P (k a)) -> traces P (bind m k).
Proof.
  intros Hm Hk s. unfold bind. destruct (Hm s) as (e1 & H1 & HP1).
  destruct (m s) as [[a|e] s1]; simpl in H1.
  - destruct (Hk a s1) as (e2 & H2 & HP2). exists (e1 ++ e2).
    rewrite H2, H1, app_assoc. split; [reflexivity|]. apply Forall_app; auto.
  - exists e1. auto.
Qed.

Lemma traces_try (m : M A) (h : exn -> M A) :
  traces P m -> (forall e, traces P (h e)) -> traces P (try_except m h).
Proof.
  intros Hm Hh s. unfold try_except. destruct (Hm s) as (e1 & H1 & HP1).
  destruct (m s) as [[a|e] s1]; simpl in H1.
  - exists e1. auto.
  - destruct (Hh e s1) as (e2 & H2 & HP2). exists (e1 ++ e2).
    rewrite H2, H1, app_assoc. split; [reflexivity|]. apply Forall_app; auto.
Qed.

Lemma traces_runs (m : M A) (r : outcome A) (evs : list event) :
  runs_as m r evs -> Forall P evs -> traces P m.
Proof. intros Hr HP s. exists evs. rewrite Hr. auto. Qed.

Lemma traces_emits (m : M A) : emits P m -> traces P m.
Proof. intros (r & evs & Hr & HP). eapply traces_runs; eauto. Qed.

End Traces.

Lemma traces_impl {A} (P Q : event -> Prop) (m : M A) :
  (forall e, P e -> Q e) -> traces P m -> traces Q m.
Proof.
  intros H Hm s. destruct (Hm s) as (evs & Ht & HP). exists evs. split; [exact Ht|].
  eapply List.Forall_impl; eauto.
Qed.

Lemma traces_get_processed P : traces P get_processed.
Proof. intros s. exists []. simpl. rewrite app_nil_r. auto. Qed.

Lemma traces_put_processed P u : traces P (put_processed u).
Proof. intros s. exists []. simpl. rewrite app_nil_r. auto. Qed.

Lemma traces_save_processed_chapter (P : event -> Prop) (w : World) (post_url : string) :
  (forall ok, P (LedgerAppend (post_url +++ NL) ok)) -> (forall l msg, P (Log l msg)) ->
  traces P (save_processed_chapter w post_url).
Proof.
  intros H1 H2 s. rewrite save_processed_chapter_run'. eexists. split; [reflexivity|].
  repeat constructor; [apply H1|]. unfold save_log. destruct (w_append w _); apply H2.
Qed.

Ltac traces_step :=
  lazymatch goal with
  | |- traces _ (ret _) => apply traces_ret
  | |- traces _ (raise _) => apply traces_raise
  | |- traces _ (lift _) => apply traces_lift
  | |- traces _ (emit _) => apply traces_emit; first [exact I | reflexivity]
  | |- traces _ (logging _ _) => apply traces_emit; exact I
  | |- traces _ get_processed => apply traces_get_processed
  | |- traces _ (put_processed _) => apply traces_put_processed
  | |- traces _ (save_processed_chapter _ _) =>
      apply traces_save_processed_chapter; intros; exact I
  | |- traces _ (bind _ _) => apply traces_bind; [|intros ?]
  | |- traces _ (try_except _ _) => apply traces_try; [|intros ?]
  | |- traces _ (effect _ _) => unfold effect
  | |- traces _ (except_OSError _ _) => unfold except_OSError
  | |- traces _ (match ?x with _ => _ end) => destruct x
  end.

Ltac traces_all := repeat (cbv zeta; traces_step).

Lemma traces_load_images P w paths :
  (forall p ok, P (OpenImage p ok)) -> (forall l msg, P (Log l msg)) ->
  forall acc, traces P (load_images w paths acc).
Proof.
  intros H1 H2. induction paths as [|p r IH]; intros acc; simpl.
  - apply traces_ret.
  - apply traces_bind; [|intros ?; apply IH].
    apply traces_try; [|intros ?].
    + apply traces_bind; [|intros ?; apply traces_ret].
      unfold open_image. destruct (image_open_rgb _ _).
      * apply traces_bind; [apply traces_emit, H1|intros ?; apply traces_ret].
      * apply traces_bind; [apply traces_emit, H1|intros ?; apply traces_raise].
    + apply traces_bind; [apply traces_emit, H2|intros ?; apply traces_ret].
Qed.

Section Fetches.
Context (url : string).

Lemma fetches_extract_rar w rar dest : traces (fetches_only url) (extract_rar w rar dest).
Proof. unfold extract_rar. traces_all. Qed.

Lemma fetches_download_from_mega w u dest :
  traces (fetches_only url) (download_from_mega w u dest).
Proof. unfold download_from_mega. traces_all. Qed.

Lemma fetches_get_chapter_number_from_filename f :
  traces (fetches_only url) (get_chapter_number_from_filename f).
Proof. unfold get_chapter_number_from_filename. traces_all. Qed.

Lemma fetches_images_to_pdf w folder out n :
  traces (fetches_only url) (images_to_pdf w folder out n).
Proof.
  unfold images_to_pdf.
  repeat (cbv zeta;
          lazymatch goal with
          | |- traces _ (load_images _ _ _) =>
              apply traces_load_images; intros; exact I
          | _ => traces_step
          end).
Qed.

End Fetches.

Lemma traces_after {A B} (P : event -> Prop) (m : M A) (k : A -> M B) r e0 :
  runs_as m r e0 -> (forall a, traces P (k a)) ->
  forall s, exists evs, trace (snd (bind m k s)) = trace s ++ e0 ++ evs /\ Forall P evs.
Proof.
  intros Hr Hk s. unfold bind. rewrite Hr. destruct r as [a|e].
  - destruct (Hk a (add_events s e0)) as (evs & Ht & HP). exists evs.
    rewrite Ht. simpl. rewrite app_assoc. auto.
  - exists []. simpl. rewrite app_nil_r. auto.
Qed.

Lemma get_mega_file_url_run (w : World) (post_url : string) :
  exists r tail,
    runs_as (get_mega_file_url w post_url) r
      (Log INFO ("Fetching Mega.nz link from: " +++ post_url) :: HttpGet post_url :: tail) /\
    Forall (fetches_only post_url) tail.
Proof.
  unfold get_mega_file_url, logging.
  destruct (w_page w post_url) as [anchors|e] eqn:Hp.
  - destruct (mega_links_of anchors) as [|first rest] eqn:Hl.
    + exists (Ret None),
        [Log WARNING ("No Mega.nz link found on post: " +++ post_url)].
      split; [|repeat constructor].
      apply runs_emit_then, runs_try_ret, runs_emit_then.
      apply runs_lift_then. rewrite Hl. apply runs_emit_ret.
    + exists (Ret (Some first)), [Log INFO ("Found Mega.nz link: " +++ first)].
      split; [|repeat constructor].
      apply runs_emit_then, runs_try_ret, runs_emit_then.
      apply runs_lift_then. rewrite Hl. apply runs_emit_ret.
  - destruct (is_RequestException (exn_kind e)) eqn:He.
    + exists (Ret None),
        [Log ERROR ("Error fetching post " +++ post_url +++ ": " +++ exn_str e)].
      split; [|repeat constructor].
      apply runs_emit_then.
      change (HttpGet post_url :: [?x]) with ([HttpGet post_url] ++ [x]).
      eapply runs_try_raise.
      * apply runs_emit_then. apply runs_lift_raise.
      * rewrite He. apply runs_emit_ret.
    + exists (Raise e), []. split; [|constructor].
      apply runs_emit_then.
      change [HttpGet post_url] with ([HttpGet post_url] ++ []).
      eapply runs_try_raise.
      * apply runs_emit_then. apply runs_lift_raise.
      * rewrite He. apply runs_raise.
Qed.

(** Every run of the coordinator starts by fetching the page of the post,
    and fetches no other page. *)
Lemma process_new_chapter_trace (cfg : Config) (w : World) (post_link : string) (s : state) :
  exists tail,
    trace (snd (process_new_chapter cfg w post_link s)) =
      trace s ++ Log INFO ("Processing new chapter from post: " +++ post_link)
              :: Log INFO ("Fetching Mega.nz link from: " +++ post_link)
              :: HttpGet post_link :: tail /\
    Forall (fetches_only post_link) tail.
Proof.
  destruct (get_mega_file_url_run w post_link) as (r & tail0 & Hr & Ht).
  unfold process_new_chapter. unfold bind at 1, logging at 1, emit at 1.
  match goal with
  | |- context [bind (get_mega_file_url w post_link) ?k] =>
      destruct (traces_after (fetches_only post_link) _ k _ _ Hr) with
        (s := mk_state (ledger_file s) (processed_urls s)
                (trace s ++ [Log INFO ("Processing new chapter from post: " +++ post_link)]))
        as (evs & He & HP)
  end.
  - intros a.
    repeat (cbv zeta;
            lazymatch goal with
            | |- traces _ (download_from_mega _ _ _) => apply fetches_download_from_mega
            | |- traces _ (get_chapter_number_from_filename _) =>
                apply fetches_get_chapter_number_from_filename
            | |- traces _ (extract_rar _ _ _) => apply fetches_extract_rar
            | |- traces _ (images_to_pdf _ _ _ _) => apply fetches_images_to_pdf
            | _ => traces_step
            end).
  - exists (tail0 ++ evs). cbv beta iota. rewrite He. cbn [trace].
    rewrite <- !app_assoc. simpl. split; [reflexivity|]. apply Forall_app; auto.
Qed.

Lemma fetches_process_new_chapter (cfg : Config) (w : World) (post_link : string) :
  traces (fetches_only post_link) (process_new_chapter cfg w post_link).
Proof.
  intros s. destruct (process_new_chapter_trace cfg w post_link s) as (tail & Ht & HP).
  eexists. split; [exact Ht|]. repeat constructor. exact HP.
Qed.

Lemma advances_refl (s : state) : advances s s.
Proof.
  split; [exists []; now rewrite app_nil_r|]. split; [set_solver|].
  exists []. split; [reflexivity|constructor].
Qed.

Lemma advances_trans (s1 s2 s3 : state) : advances s1 s2 -> advances s2 s3 -> advances s1 s3.
Proof.
  intros ((e1 & H1) & Hs1 & l1 & Hf1 & Hl1) ((e2 & H2) & Hs2 & l2 & Hf2 & Hl2).
  split; [exists (e1 ++ e2); now rewrite H2, H1, app_assoc|].
  split; [set_solver|].
  exists (l1 ++ l2). split.
  - unfold with_links in *. rewrite map_app, fold_left_app, <- Hf1. exact Hf2.
  - apply Forall_app. split; [|exact Hl2].
    eapply List.Forall_impl; [|exact Hl1]. cbv beta. intros l Hl. set_solver.
Qed.

Lemma advances_add_events (s : state) (evs : list event) : advances s (add_events s evs).
Proof.
  split; [exists evs; reflexivity|]. split; [simpl; set_solver|].
  exists []. split; [reflexivity|constructor].
Qed.

Section Steady.
Context {A B : Type}.

Lemma steady_runs (m : M A) r evs : runs_as m r evs -> steady m.
Proof. intros H s. rewrite H. apply advances_add_events. Qed.

Lemma steady_bind (m : M A) (k : A -> M B) :
  steady m -> (forall a, steady (k a)) -> steady (bind m k).
Proof.
  intros Hm Hk s. unfold bind. specialize (Hm s).
  destruct (m s) as [[a|e] s1]; simpl in Hm; [|exact Hm].
  eapply advances_trans; [exact Hm|apply Hk].
Qed.

Lemma steady_try (m : M A) (h : exn -> M A) :
  steady m -> (forall e, steady (h e)) -> steady (try_except m h).
Proof.
  intros Hm Hh s. unfold try_except. specialize (Hm s).
  destruct (m s) as [[a|e] s1]; simpl in Hm; [exact Hm|].
  eapply advances_trans; [exact Hm|apply Hh].
Qed.

End Steady.

Lemma with_links_one (f : option string) (l : string) :
  with_links f [l] = append_text f (l +++ NL).
Proof. reflexivity. Qed.

(** One entry of the feed. *)
Lemma steady_handle_entry (cfg : Config) (e : entry) (m : meeting) :
  steady (handle_entry cfg e m).
Proof.
  intros s. unfold handle_entry.
  destruct (timedelta_hours (MAX_AGE_HOURS cfg)) as [max_age|x]; [|apply advances_refl].
  change (bind (lift (Ret max_age)) ?k s) with (k max_age s). cbv beta.
  destruct (max_age <? now m - published e); [apply advances_refl|].
  destruct (PyStr.contains _ _); [|apply advances_refl].
  unfold bind at 1, get_processed at 1.
  destruct (bool_decide (link e ∈ processed_urls s)).
  { apply (advances_add_events s [_]). }
  unfold bind at 1, logging at 1, emit at 1.
  set (s0 := mk_state _ _ _).
  assert (H0 : advances s s0) by apply (advances_add_events s [_]).
  eapply advances_trans; [exact H0|]. clearbody s0. clear H0.
  unfold bind at 1.
  destruct (process_new_chapter_verdict cfg (world m) (link e))
    as [r evs Hr Hnt _ _ _ _|before path pages mid dir ok after _ _ _ _ _ Hrun].
  - rewrite Hr. destruct r as [[|]|x]; [congruence| |].
    + eapply advances_trans; [apply advances_add_events|].
      apply (advances_add_events _ [_]).
    + apply advances_add_events.
  - rewrite Hrun. unfold bind, get_processed, put_processed. cbn.
    split; [eexists; reflexivity|]. split; [set_solver|].
    destruct ok.
    + exists [link e]. split; [reflexivity|]. constructor; [set_solver|constructor].
    + exists []. split; [reflexivity|constructor].
Qed.

Lemma steady_handle_entries (cfg : Config) (es : list (entry * meeting)) :
  steady (handle_entries cfg es).
Proof.
  induction es as [|[e m] r IH]; simpl.
  - intros s. apply advances_refl.
  - apply steady_bind; [apply steady_handle_entry|intros _; exact IH].
Qed.

Lemma steady_logging (l : level) (msg : string) : steady (logging l msg).
Proof. apply (steady_runs _ _ _ (runs_emit _)). Qed.

Lemma time_sleep_run (cfg : Config) (t : turn) :
  runs_as (time_sleep (CHECK_INTERVAL_MINUTES cfg * 60) (t_pause t))
          (pause_outcome cfg t)
          (match pause_outcome cfg t with
           | Ret _ => [Sleep (CHECK_INTERVAL_MINUTES cfg * 60)]
           | Raise _ => []
           end).
Proof.
  unfold time_sleep, pause_outcome.
  replace (CHECK_INTERVAL_MINUTES cfg * 60 <? 0) with (CHECK_INTERVAL_MINUTES cfg <? 0)
    by (destruct (Z.ltb_spec (CHECK_INTERVAL_MINUTES cfg) 0),
                 (Z.ltb_spec (CHECK_INTERVAL_MINUTES cfg * 60) 0); lia).
  destruct (CHECK_INTERVAL_MINUTES cfg <? 0); [apply runs_raise|].
  destruct (t_pause t); [apply runs_raise|apply runs_emit].
Qed.

Lemma steady_time_sleep (cfg : Config) (t : turn) :
  steady (time_sleep (CHECK_INTERVAL_MINUTES cfg * 60) (t_pause t)).
Proof. apply (steady_runs _ _ _ (time_sleep_run cfg t)). Qed.

Lemma feed_cycle_returns (cfg : Config) (t : turn) (s : state) :
  fst (feed_cycle cfg t s) = pause_outcome cfg t.
Proof.
  unfold feed_cycle, bind at 1, try_except.
  destruct (bind (lift (t_feed t)) _ s) as [[[]|e] s1];
    unfold bind, logging, emit;
    match goal with
    | |- context [time_sleep ?a ?b ?s'] => rewrite (time_sleep_run cfg t s')
    end; reflexivity.
Qed.

Lemma steady_feed_cycle (cfg : Config) (t : turn) :
  steady (feed_cycle cfg t).
Proof.
  unfold feed_cycle. apply steady_bind; [|intros _].
  - apply steady_try; [|intros ?; apply steady_logging].
    apply steady_bind; [apply (steady_runs _ _ _ (runs_lift _))|intros es].
    apply steady_bind; [|intros _; apply steady_handle_entries].
    destruct es; [apply steady_logging|apply (steady_runs _ _ _ (runs_ret _))].
  - apply steady_bind; [apply steady_logging|intros _].
    apply steady_time_sleep.
Qed.

Lemma feed_cycles_returns (cfg : Config) (turns : list turn) :
  forall s, fst (feed_cycles cfg turns s) = pauses cfg turns.
Proof.
  induction turns as [|t r IH]; intros s; simpl; [reflexivity|].
  unfold bind. pose proof (feed_cycle_returns cfg t s) as H.
  destruct (feed_cycle cfg t s) as [[[]|e] s1]; simpl in H; rewrite <- H;
    [apply IH|reflexivity].
Qed.

Lemma steady_feed_cycles (cfg : Config) (turns : list turn) :
  steady (feed_cycles cfg turns).
Proof.
  induction turns as [|t r IH]; simpl.
  - intros s. apply advances_refl.
  - apply steady_bind; [apply steady_feed_cycle|intros _; exact IH].
Qed.

Lemma handle_entry_events (cfg : Config) (e : entry) (m : meeting) (s : state) :
  exists evs,
    trace (snd (handle_entry cfg e m s)) = trace s ++ evs /\
    Forall (fetches_only (link e)) evs /\
    if eligible cfg e m s then
      exists tail,
        evs = Log INFO ("New chapter post detected: '" +++ title e +++ "'")
              :: Log INFO ("Processing new chapter from post: " +++ link e)
              :: Log INFO ("Fetching Mega.nz link from: " +++ link e)
              :: HttpGet (link e) :: tail
    else
      evs = [] /\ snd (handle_entry cfg e m s) = s \/
      evs = [Log DEBUG ("Chapter already processed: '" +++ title e +++ "'")] /\
      snd (handle_entry cfg e m s) = add_events s evs.
Proof.
  remember (handle_entry cfg e m s) as out eqn:Hout.
  unfold handle_entry in Hout. unfold eligible, recent, announces.
  destruct (timedelta_hours (MAX_AGE_HOURS cfg)) as [max_age|x].
  2:{ subst out. exists []. simpl. rewrite app_nil_r. auto. }
  change (bind (lift (Ret max_age)) ?k s) with (k max_age s) in Hout. cbv beta in Hout.
  destruct (max_age <? now m - published e).
  { subst out. exists []. simpl. rewrite app_nil_r. auto. }
  destruct (PyStr.contains _ _).
  2:{ subst out. exists []. simpl. rewrite app_nil_r. auto. }
  unfold bind at 1, get_processed at 1 in Hout.
  destruct (bool_decide (link e ∈ processed_urls s)).
  { subst out. eexists [_]. simpl. split; [reflexivity|].
    split; [repeat constructor|auto]. }
  unfold bind at 1, logging at 1, emit at 1 in Hout. cbn [negb andb].
  set (s0 := mk_state _ _ _) in Hout.
  destruct (process_new_chapter_trace cfg (world m) (link e) s0) as (tail & Ht & HP).
  unfold bind at 1 in Hout.
  destruct (process_new_chapter cfg (world m) (link e) s0) as [[[|]|x] s1];
    cbn [snd] in Ht; subst out.
  - eexists. split; [|split; [|eexists; reflexivity]].
    + unfold bind, get_processed, put_processed. cbn. rewrite Ht. unfold s0. cbn.
      rewrite <- app_assoc. reflexivity.
    + repeat constructor. exact HP.
  - eexists. split; [|split; [|eexists; reflexivity]].
    + unfold logging, emit. cbn. rewrite Ht. unfold s0. cbn.
      rewrite <- !app_assoc. cbn. reflexivity.
    + repeat constructor. apply Forall_app. split; [exact HP|repeat constructor].
  - eexists. split; [|split; [|eexists; reflexivity]].
    + cbn. rewrite Ht. unfold s0. cbn. rewrite <- app_assoc. reflexivity.
    + repeat constructor. exact HP.
Qed.


Lemma handle_entry_skips (cfg : Config) (l : string) (e : entry) (m : meeting) (s : state) :
  l ∈ processed_urls s ->
  exists evs,
    trace (snd (handle_entry cfg e m s)) = trace s ++ evs /\ ~ In (HttpGet l) evs.
Proof.
  intros Hl. destruct (handle_entry_events cfg e m s) as (evs & Ht & HP & Hshape).
  exists evs. split; [exact Ht|]. intros Hin.
  rewrite List.Forall_forall in HP. pose proof (HP _ Hin) as Heq. simpl in Heq. subst l.
  unfold eligible in Hshape. rewrite (bool_decide_eq_true_2 _ Hl), andb_false_r in Hshape.
  destruct Hshape as [[-> _]|[-> _]]; simpl in Hin; [tauto|].
  destruct Hin as [H|[]]. discriminate.
Qed.

Section Skips.
Context {A B : Type} (l : string).

Lemma skips_bind (m : M A) (k : A -> M B) :
  skips l m -> (forall a, skips l (k a)) -> skips l (bind m k).
Proof.
  intros Hm Hk s Hl. unfold bind. destruct (Hm s Hl) as (H1 & e1 & Ht1 & Hn1).
  destruct (m s) as [[a|x] s1]; simpl in *.
  - destruct (Hk a s1 H1) as (H2 & e2 & Ht2 & Hn2). split; [exact H2|].
    exists (e1 ++ e2). rewrite Ht2, Ht1, app_assoc. split; [reflexivity|].
    rewrite in_app_iff. tauto.
  - split; [exact H1|]. exists e1. auto.
Qed.

Lemma skips_try (m : M A) (h : exn -> M A) :
  skips l m -> (forall e, skips l (h e)) -> skips l (try_except m h).
Proof.
  intros Hm Hh s Hl. unfold try_except. destruct (Hm s Hl) as (H1 & e1 & Ht1 & Hn1).
  destruct (m s) as [[a|x] s1]; simpl in *.
  - split; [exact H1|]. exists e1. auto.
  - destruct (Hh x s1 H1) as (H2 & e2 & Ht2 & Hn2). split; [exact H2|].
    exists (e1 ++ e2). rewrite Ht2, Ht1, app_assoc. split; [reflexivity|].
    rewrite in_app_iff. tauto.
Qed.

Lemma skips_runs (m : M A) r evs : runs_as m r evs -> ~ In (HttpGet l) evs -> skips l m.
Proof.
  intros Hr Hn s Hl. pose proof (Hr s) as Hs. destruct (m s) as [r' s'].
  injection Hs as _ ->. split; [exact Hl|].
  exists evs. split; [reflexivity|exact Hn].
Qed.

End Skips.

Lemma skips_logging (l : string) (lv : level) (msg : string) : skips l (logging lv msg).
Proof. apply (skips_runs l _ _ _ (runs_emit _)). intros [H|[]]. discriminate. Qed.

Lemma skips_handle_entry (cfg : Config) (l : string) (e : entry) (m : meeting) :
  skips l (handle_entry cfg e m).
Proof.
  intros s Hl. split; [|apply handle_entry_skips, Hl].
  destruct (steady_handle_entry cfg e m s) as (_ & Hsub & _). set_solver.
Qed.

Lemma skips_handle_entries (cfg : Config) (l : string) (es : list (entry * meeting)) :
  skips l (handle_entries cfg es).
Proof.
  induction es as [|[e m] r IH]; simpl.
  - apply (skips_runs l _ _ _ (runs_ret _)). intros [].
  - apply skips_bind; [apply skips_handle_entry|intros _; exact IH].
Qed.

Lemma skips_feed_cycle (cfg : Config) (l : string) (t : turn) :
  skips l (feed_cycle cfg t).
Proof.
  unfold feed_cycle. apply skips_bind; [|intros _].
  - apply skips_try; [|intros ?; apply skips_logging].
    apply skips_bind; [apply (skips_runs l _ _ _ (runs_lift _)); intros []|intros es].
    apply skips_bind; [|intros _; apply skips_handle_entries].
    destruct es; [apply skips_logging|apply (skips_runs l _ _ _ (runs_ret _)); intros []].
  - apply skips_bind; [apply skips_logging|intros _].
    apply (skips_runs l _ _ _ (time_sleep_run cfg t)).
    destruct (pause_outcome cfg t); [intros [H|[]]; discriminate|intros []].
Qed.

Lemma skips_feed_cycles (cfg : Config) (l : string) (turns : list turn) :
  skips l (feed_cycles cfg turns).
Proof.
  induction turns as [|t r IH]; simpl.
  - apply (skips_runs l _ _ _ (runs_ret _)). intros [].
  - apply skips_bind; [apply skips_feed_cycle|intros _; exact IH].
Qed.

(** X15.  Once a link is in [processed_urls] its page is never fetched again:
    whatever the feeds of the following turns announce and whatever the
    world answers, the link stays in the set and no request goes to its
    page. *)
Theorem processed_link_is_never_fetched_again (cfg : Config) (l : string)
    (turns : list turn) (s : state) :
  l ∈ processed_urls s ->
  l ∈ processed_urls (snd (feed_cycles cfg turns s)) /\
  exists evs,
    trace (snd (feed_cycles cfg turns s)) = trace s ++ evs /\
    ~ In (HttpGet l) evs.
Proof. apply skips_feed_cycles. Qed.

Lemma processed_link_is_never_fetched_again_witness :
  "https://blog.example/ch-1502"%string
    ∈ processed_urls
        (snd (feed_cycles sample_cfg
                [quiet_turn (Ret [(entry_1502, {| now := hours 1; world := world_two_pages |})])]
                (mk_state None {[ "https://blog.example/ch-1502"%string ]} []))) /\
  exists evs,
    trace (snd (feed_cycles sample_cfg
                  [quiet_turn (Ret [(entry_1502, {| now := hours 1; world := world_two_pages |})])]
                  (mk_state None {[ "https://blog.example/ch-1502"%string ]} [])))
      = [] ++ evs /\
    ~ In (HttpGet "https://blog.example/ch-1502") evs.
Proof.
  apply (processed_link_is_never_fetched_again sample_cfg "https://blog.example/ch-1502"
           [quiet_turn (Ret [(entry_1502, {| now := hours 1; world := world_two_pages |})])]
           (mk_state None {[ "https://blog.example/ch-1502"%string ]} [])).
  vm_compute. reflexivity.
Defined.

Lemma load_processed_chapters_run (w : World) (s : state) :
  exists evs,
    load_processed_chapters w s = (Ret (loaded_urls w (ledger_file s)), add_events s evs) /\
    (evs = [] \/
     exists text e, ledger_file s = Some text /\ w_read w = Some e /\
       evs = [Log ERROR ("Error loading processed chapters file: " +++ exn_str e)]).
Proof.
  unfold load_processed_chapters, loaded_urls, bind, get_ledger.
  destruct (ledger_file s) as [text|] eqn:Hf.
  - unfold try_except. destruct (w_read w) as [e|] eqn:Hr.
    + eexists [_]. split; [reflexivity|]. right. eauto.
    + exists []. rewrite add_events_nil. auto.
  - exists []. rewrite add_events_nil. auto.
Qed.

Lemma watch_rss_feed_run (cfg : Config) (w : World) (turns : list turn) (s : state) :
  exists evs,
    watch_rss_feed cfg w turns s =
    feed_cycles cfg turns
      (mk_state (ledger_file s) (loaded_urls w (ledger_file s)) (trace s ++ evs)) /\
    forall url, ~ In (HttpGet url) evs.
Proof.
  unfold watch_rss_feed. unfold bind at 1, logging at 1, emit at 1.
  set (s0 := mk_state _ _ _).
  destruct (load_processed_chapters_run w s0) as (evs & Hl & Hevs).
  unfold bind at 1. rewrite Hl. unfold bind at 1, put_processed. cbn.
  rewrite <- app_assoc. eexists. split; [reflexivity|].
  intros url [H|H]; [discriminate|].
  destruct Hevs as [->|(text & e & _ & _ & ->)]; [destruct H|].
  destruct H as [H|[]]. discriminate.
Qed.

(** X16.  The watcher ends with an exception only from its pause.  Neither
    an unreadable ledger, nor a feed that cannot be parsed, nor anything
    raised while a chapter is processed leaves [watch_rss_feed]: over any
    number of turns it returns, unless a pause fails, and then it raises
    what the first failing pause raised.  A pause fails when
    [CHECK_INTERVAL_MINUTES] is below zero ([time.sleep] raises
    [ValueError]) or when the platform refuses its length. *)
Theorem watch_rss_feed_raises_only_from_the_pause (cfg : Config) (w : World)
    (turns : list turn) (s : state) :
  fst (watch_rss_feed cfg w turns s) = pauses cfg turns /\
  (pauses cfg turns = Ret tt <->
   turns = [] \/
   0 <= CHECK_INTERVAL_MINUTES cfg /\ Forall (fun t => t_pause t = None) turns) /\
  (CHECK_INTERVAL_MINUTES cfg < 0 -> turns <> [] ->
   pauses cfg turns = Raise (mk_exn ValueError "sleep length must be non-negative")).
Proof.
  split; [|split].
  - destruct (watch_rss_feed_run cfg w turns s) as (evs & -> & _).
    apply feed_cycles_returns.
  - induction turns as [|t r IH]; [simpl; intuition|].
    cbn [pauses]. unfold pause_outcome at 1.
    destruct (Z.ltb_spec (CHECK_INTERVAL_MINUTES cfg) 0) as [Hneg|Hpos].
    + split; [discriminate|]. intros [H|[H _]]; [discriminate|lia].
    + destruct (t_pause t) as [e|] eqn:Hp.
      * split; [discriminate|]. intros [H|[_ H]]; [discriminate|].
        inversion H; congruence.
      * rewrite IH. split.
        -- intros [->|[_ H]]; right; (split; [exact Hpos|]); constructor; auto.
        -- intros [H|[_ H]]; [discriminate|]. inversion H; subst. right. auto.
  - intros Hneg Hne. destruct turns as [|t r]; [congruence|].
    cbn [pauses]. unfold pause_outcome.
    destruct (Z.ltb_spec (CHECK_INTERVAL_MINUTES cfg) 0); [reflexivity|lia].
Qed.



(** X18.  The watcher only adds.  Over any number of turns the set in memory
    only grows, and the file changes only by lines appended at its end,
    each of them a link that is in the set in memory: nothing is ever
    removed from the file or rewritten in it, and the file never holds a
    link of this run that the memory does not. *)
Theorem watcher_only_adds (cfg : Config) (turns : list turn) (s : state) :
  let s' := snd (feed_cycles cfg turns s) in
  processed_urls s ⊆ processed_urls s' /\
  exists links,
    ledger_file s' = with_links (ledger_file s) links /\
    (forall text, ledger_file s = Some text ->
       ledger_file s' = Some (text +++ glue (map (fun l => l +++ NL) links))) /\
    Forall (fun l => l ∈ processed_urls s') links.
Proof.
  destruct (steady_feed_cycles cfg turns s) as (_ & Hsub & links & Hf & Hl).
  split; [exact Hsub|]. exists links. split; [exact Hf|]. split; [|exact Hl].
  intros text Ht. rewrite Hf, Ht. apply fold_append_text.
Qed.

(** X19.  A link that the file holds when the watcher starts is not processed
    again: when the file can be read, no request goes to the page of a
    link that [load_processed_chapters] finds in it. *)
Theorem recorded_link_is_skipped_after_restart (cfg : Config) (w : World)
    (turns : list turn) (s : state)
    (text l : string) :
  ledger_file s = Some text -> w_read w = None -> l ∈ parse_ledger text ->
  exists evs,
    trace (snd (watch_rss_feed cfg w turns s)) = trace s ++ evs /\
    ~ In (HttpGet l) evs.
Proof.
  intros Hf Hr Hl. destruct (watch_rss_feed_run cfg w turns s) as (evs & -> & Hevs).
  unfold loaded_urls. rewrite Hf, Hr.
  destruct (skips_feed_cycles cfg l turns
              (mk_state (Some text) (parse_ledger text) (trace s ++ evs)) Hl)
    as (_ & evs' & Ht & Hn).
  exists (evs ++ evs'). rewrite Ht. cbn. rewrite app_assoc. split; [reflexivity|].
  rewrite in_app_iff. intros [Hin|Hin]; [exact (Hevs _ Hin)|tauto].
Qed.

Lemma recorded_link_is_skipped_after_restart_witness :
  exists evs,
    trace (snd (watch_rss_feed sample_cfg world_two_pages
                  [quiet_turn (Ret [(entry_1502, {| now := hours 1; world := world_two_pages |})])]
                  (mk_state (Some ("https://blog.example/ch-1502" +++ NL)) ∅ []))) = [] ++ evs /\
    ~ In (HttpGet "https://blog.example/ch-1502") evs.
Proof.
  apply (recorded_link_is_skipped_after_restart sample_cfg world_two_pages _
           (mk_state (Some ("https://blog.example/ch-1502" +++ NL)) ∅ [])
           ("https://blog.example/ch-1502" +++ NL) "https://blog.example/ch-1502").
  - reflexivity.
  - reflexivity.
  - vm_compute. reflexivity.
Defined.

Lemma handle_entries_app (cfg : Config) (pre rest : list (entry * meeting)) :
  forall s,
    fst (handle_entries cfg pre s) = Ret tt ->
    handle_entries cfg (pre ++ rest) s =
    handle_entries cfg rest (snd (handle_entries cfg pre s)).
Proof.
  induction pre as [|[e m] pre IH]; intros s; [reflexivity|].
  simpl. unfold bind. destruct (handle_entry cfg e m s) as [[[]|x] s1].
  - apply IH.
  - discriminate.
Qed.

(** X20.  An exception that leaves the processing of one entry ends the turn:
    it is logged, the entries after it in the feed are not looked at in
    this turn, and the watcher goes to its pause, which it announces and
    takes unless the pause is refused. *)
Theorem failing_entry_ends_the_turn (cfg : Config) (pre rest : list (entry * meeting))
    (e : entry) (m : meeting) (x : exn) (refused : option exn) (s : state) :
  fst (handle_entries cfg pre s) = Ret tt ->
  fst (handle_entry cfg e m (snd (handle_entries cfg pre s))) = Raise x ->
  let t := mk_turn (Ret (pre ++ (e, m) :: rest)) refused in
  feed_cycle cfg t s =
  (pause_outcome cfg t,
   add_events (snd (handle_entry cfg e m (snd (handle_entries cfg pre s))))
     ([Log ERROR ("An error occurred during RSS feed check: " +++ exn_str x);
       Log INFO ("Sleeping for " +++ PyStr.of_Z (CHECK_INTERVAL_MINUTES cfg)
                 +++ " minutes...")]
      ++ match pause_outcome cfg t with
         | Ret _ => [Sleep (CHECK_INTERVAL_MINUTES cfg * 60)]
         | Raise _ => []
         end)).
Proof.
  intros Hpre Hx t. unfold feed_cycle. unfold bind at 1, try_except.
  unfold bind at 1, lift. unfold bind at 1. cbn [t_feed t].
  destruct (pre ++ (e, m) :: rest) eqn:Hl; [destruct pre; discriminate|].
  rewrite <- Hl. unfold ret at 1. rewrite (handle_entries_app cfg pre _ s Hpre).
  simpl handle_entries. unfold bind at 1.
  destruct (handle_entry cfg e m (snd (handle_entries cfg pre s))) as [[[]|y] s1];
    [discriminate|].
  simpl in Hx. injection Hx as ->. cbv beta iota.
  unfold logging at 1, emit at 1. cbv beta iota.
  unfold bind at 1. unfold logging at 1, emit at 1. cbv beta iota.
  match goal with
  | |- context [time_sleep ?a ?b ?s'] => rewrite (time_sleep_run cfg t s')
  end.
  unfold add_events. cbn [ledger_file processed_urls trace snd].
  rewrite <- !app_assoc. reflexivity.
Qed.

Lemma failing_entry_ends_the_turn_witness :
  fst (handle_entry sample_cfg entry_1502 {| now := hours 1; world := world_broken |}
         (snd (handle_entries sample_cfg [] initial)))
    = Raise (mk_exn OtherException "boom") /\
  fst (feed_cycle sample_cfg
         (mk_turn
            (Ret ([] ++ (entry_1502, {| now := hours 1; world := world_broken |})
                     :: [(entry_1502, {| now := hours 1; world := world_two_pages |})]))
            None)
         initial) = Ret tt.
Proof.
  split; [reflexivity|].
  rewrite (failing_entry_ends_the_turn sample_cfg [] _ entry_1502
             {| now := hours 1; world := world_broken |}
             (mk_exn OtherException "boom") None initial eq_refl eq_refl).
  reflexivity.
Defined.

Lemma bind_extends {A B} (m : M A) (k : A -> M B) (s : state) :
  (forall a, steady (k a)) ->
  exists evs, trace (snd (bind m k s)) = trace (snd (m s)) ++ evs.
Proof.
  intros Hk. unfold bind. destruct (m s) as [[a|e] s1]; cbn [snd].
  - destruct (Hk a s1) as (H & _). exact H.
  - exists []. now rewrite app_nil_r.
Qed.

Lemma try_extends {A} (m : M A) (h : exn -> M A) (s : state) :
  (forall e, steady (h e)) ->
  exists evs, trace (snd (try_except m h s)) = trace (snd (m s)) ++ evs.
Proof.
  intros Hh. unfold try_except. destruct (m s) as [[a|e] s1]; cbn [snd].
  - exists []. now rewrite app_nil_r.
  - destruct (Hh e s1) as (H & _). exact H.
Qed.

(** X21.  When the file cannot be read the watcher starts from the empty set:
    the first entry of the first feed, when it is recent and announces a
    chapter, is processed whatever the file holds. *)
Theorem unreadable_ledger_is_forgotten (cfg : Config) (w : World) (err : exn)
    (e : entry) (m : meeting) (rest : list (entry * meeting))
    (refused : option exn) (turns : list turn) (s : state) :
  w_read w = Some err ->
  recent cfg e m = true -> announces cfg e = true ->
  exists evs,
    trace (snd (watch_rss_feed cfg w (mk_turn (Ret ((e, m) :: rest)) refused :: turns) s))
      = trace s ++ evs /\
    In (HttpGet (link e)) evs.
Proof.
  intros Hr Hfresh Hann.
  destruct (watch_rss_feed_run cfg w (mk_turn (Ret ((e, m) :: rest)) refused :: turns) s)
    as (evs & -> & _).
  assert (Hempty : loaded_urls w (ledger_file s) = ∅).
  { unfold loaded_urls. rewrite Hr. destruct (ledger_file s); reflexivity. }
  rewrite Hempty. set (s0 := mk_state _ _ _).
  assert (Hel : eligible cfg e m s0 = true).
  { unfold eligible. rewrite Hfresh, Hann. reflexivity. }
  destruct (handle_entry_events cfg e m s0) as (e1 & Ht1 & _ & Hshape).
  rewrite Hel in Hshape. destruct Hshape as (tail & ->).
  cbn [feed_cycles].
  destruct (bind_extends (feed_cycle cfg (mk_turn (Ret ((e, m) :: rest)) refused))
              (fun _ => feed_cycles cfg turns) s0) as (e4 & H4).
  { intros _. apply steady_feed_cycles. }
  rewrite H4. unfold feed_cycle.
  match goal with
  | |- context [bind (try_except ?b ?h) ?k s0] =>
      destruct (bind_extends (try_except b h) k s0) as (e3 & H3);
      [|destruct (try_extends b h s0) as (e2 & H2)]
  end.
  { intros _. apply steady_bind; [apply steady_logging|intros _].
    apply (steady_time_sleep cfg (mk_turn (Ret ((e, m) :: rest)) refused)). }
  { intros ?. apply steady_logging. }
  rewrite H3, H2. cbn [t_feed].
  change (bind (lift (Ret ((e, m) :: rest))) ?k s0) with (k ((e, m) :: rest) s0).
  cbv beta iota.
  change (bind (ret tt) ?k s0) with (k tt s0). cbv beta. cbn [handle_entries].
  destruct (bind_extends (handle_entry cfg e m) (fun _ => handle_entries cfg rest) s0)
    as (e1' & H1).
  { intros _. apply steady_handle_entries. }
  rewrite H1, Ht1. unfold s0. cbn [trace].
  rewrite <- !app_assoc. eexists. split; [reflexivity|].
  rewrite !in_app_iff. right. left. simpl. auto.
Qed.

Lemma unreadable_ledger_is_forgotten_witness :
  exists evs,
    trace (snd (watch_rss_feed sample_cfg world_unreadable
                  (mk_turn
                     (Ret ((entry_1502, {| now := hours 1; world := world_unreadable |}) :: []))
                     None
                   :: [])
                  (mk_state (Some ("https://blog.example/ch-1502" +++ NL)) ∅ [])))
      = [] ++ evs /\
    In (HttpGet (link entry_1502)) evs.
Proof.
  apply (unreadable_ledger_is_forgotten sample_cfg world_unreadable
           (mk_exn PermissionError "[Errno 13] Permission denied")
           entry_1502 {| now := hours 1; world := world_unreadable |} [] None []
           (mk_state (Some ("https://blog.example/ch-1502" +++ NL)) ∅ []));
    reflexivity.
Defined.

(* ===================================================================== *)
(** * The pipeline when a step fails *)
(* ===================================================================== *)

Lemma max_from_raise (k : string -> outcome Z) (l : list string) (x : exn) :
  forall best bk, max_from k best bk l = Raise x -> exists f, In f l /\ k f = Raise x.
Proof.
  induction l as [|y r IH]; intros best bk; simpl; [discriminate|].
  destruct (k y) as [ky|e] eqn:Hk.
  - destruct (bk <? ky); intros H; apply IH in H as (f & Hin & Hf); eauto.
  - intros [= <-]. eauto.
Qed.

Lemma max_by_raise (k : string -> outcome Z) (l : list string) (x : exn) :
  l <> [] -> max_by k l = Raise x -> exists f, In f l /\ k f = Raise x.
Proof.
  destruct l as [|y r]; [congruence|]. intros _. simpl.
  destruct (k y) as [ky|e] eqn:Hk.
  - intros H. apply max_from_raise in H as (f & Hin & Hf). eauto.
  - intros [= <-]. eauto.
Qed.

(** X22.  The fetcher raises only from its recovery.  Whatever the
    retrieval call raises is caught; an exception leaves
    [download_from_mega] only when that call failed with [WinError 32] in
    its message and then the listing of the destination folder, or the
    reading of the time of one of its archives, raised. *)
Theorem fetcher_raises_only_in_recovery (w : World) (mega_url dest : string)
    (x : exn) (s : state) :
  fst (download_from_mega w mega_url dest s) = Raise x ->
  exists e,
    w_mega w mega_url dest = Raise e /\
    PyStr.contains "WinError 32" (exn_str e) = true /\
    (os_listdir (w_fs_fetched w) dest = Raise x \/
     exists names f,
       os_listdir (w_fs_fetched w) dest = Ret names /\
       In f names /\ PyStr.endswith ".rar" f = true /\
       os_path_getmtime (w_fs_fetched w) (OsPath.join dest f) = Raise x).
Proof.
  unfold download_from_mega, logging.
  unfold bind at 1, emit at 1, try_except. unfold bind at 1, emit at 1.
  unfold bind at 1, lift at 1.
  destruct (w_mega w mega_url dest) as [[f0|]|e].
  - unfold bind at 1, emit at 1. cbv beta iota zeta.
    destruct (truthy f0).
    + destruct (truthy (OsPath.join dest f0)
                && os_path_exists (w_fs_fetched w) (OsPath.join dest f0));
        unfold bind, emit, ret; cbn [fst]; discriminate.
    + unfold bind, emit, ret. cbn [fst]. discriminate.
  - unfold bind, emit, ret. cbn [fst]. discriminate.
  - unfold bind at 1.
    destruct (PyStr.contains "WinError 32" (exn_str e)) eqn:Hwin.
    + unfold bind at 1, emit at 1. unfold bind at 1, emit at 1.
      unfold bind at 1, lift at 1.
      destruct (os_listdir (w_fs_fetched w) dest) as [names|e'].
      * cbv beta iota zeta.
        destruct (List.filter (PyStr.endswith ".rar") names) as [|y r] eqn:Hrar.
        -- unfold ret at 1. unfold bind, emit, ret. cbn [fst]. discriminate.
        -- unfold bind at 1, lift at 1.
           destruct (max_by _ (y :: r)) as [latest|e'] eqn:Hmax.
           ++ unfold bind, emit, ret. cbn [fst]. discriminate.
           ++ cbn [fst]. intros [= ->]. exists e. split; [reflexivity|].
              split; [exact Hwin|]. right.
              apply max_by_raise in Hmax as (f & Hin & Hf); [|discriminate].
              rewrite <- Hrar in Hin. apply filter_In in Hin as [Hin Hend].
              exists names, f. auto.
      * cbn [fst]. intros [= ->]. exists e. auto.
    + unfold ret at 1. unfold bind, emit, ret. cbn [fst]. discriminate.
Qed.

Lemma fetcher_raises_only_in_recovery_witness :
  exists e,
    w_mega world_vanished "https://mega.nz/file/abc" "/srv/temp_downloads" = Raise e /\
    PyStr.contains "WinError 32" (exn_str e) = true.
Proof.
  destruct (fetcher_raises_only_in_recovery world_vanished "https://mega.nz/file/abc"
              "/srv/temp_downloads"
              (mk_exn FileNotFoundError "/srv/temp_downloads") initial eq_refl)
    as (e & H1 & H2 & _).
  exists e. split; [exact H1|exact H2].
Defined.

Lemma bind_runs {A B} (m : M A) (k : A -> M B) (a : A) (e0 : list event) (s : state) :
  runs_as m (Ret a) e0 -> bind m k s = k a (add_events s e0).
Proof. intros H. unfold bind. now rewrite H. Qed.

Lemma bind_raises {A B} (m : M A) (k : A -> M B) (e : exn) (e0 : list event) (s : state) :
  runs_as m (Raise e) e0 -> bind m k s = (Raise e, add_events s e0).
Proof. intros H. unfold bind. now rewrite H. Qed.

Lemma images_to_pdf_head (w : World) (folder out : string) (n : Z) :
  exists r tail,
    runs_as (images_to_pdf w folder out n) r (assembler_head folder out ++ tail).
Proof.
  destruct (os_listdir (w_fs_extracted w) folder) as [names|e] eqn:El.
  - destruct (sorted sort_key (map (OsPath.join folder) (List.filter is_image_name names)))
      as [paths|e] eqn:Es.
    + eexists _, _. exact (images_to_pdf_runs w folder out n names paths El Es).
    + exists (Raise e), []. rewrite app_nil_r.
      unfold images_to_pdf, assembler_head, logging.
      do 2 apply runs_emit_then. rewrite El. apply runs_lift_then. cbv zeta.
      rewrite Es. apply runs_lift_raise.
  - exists (Raise e), []. rewrite app_nil_r.
    unfold images_to_pdf, assembler_head, logging.
    do 2 apply runs_emit_then. rewrite El. apply runs_lift_raise.
Qed.

Ltac to_the_removal Hr1 Ht1 Hr2 Ht2 Hr3 Hmk Hx :=
  unfold process_new_chapter; unfold logging at 1;
  rewrite (bind_runs _ _ tt _ _ (runs_emit _)); cbv beta;
  rewrite (bind_runs _ _ _ _ _ Hr1); cbv beta iota; rewrite Ht1;
  change (negb true) with false; cbv iota;
  rewrite (bind_runs _ _ _ _ _ Hr2); cbv beta iota; rewrite Ht2;
  change (negb true) with false; cbv iota;
  rewrite (bind_runs _ _ _ _ _ Hr3); cbv beta iota zeta;
  rewrite (bind_runs _ _ tt _ _ (runs_emit _)); cbv beta;
  match goal with
  | |- context [OsPath.join (TEMP_DIR ?cfg) ("chapter_" +++ PyStr.of_Z ?n)] =>
      fold (extract_dir cfg n)
  end;
  rewrite Hmk;
  rewrite (bind_runs _ _ tt _ _ (runs_ret tt)); cbv beta;
  rewrite (bind_runs _ _ _ _ _ Hx); cbv beta;
  change (negb true) with false; cbv iota.

(** X23.  An archive that cannot be removed after it was unpacked.  The
    removal of step 4 is guarded: an [OSError] is logged and the run goes
    on to the assembly of the document; any other exception leaves the
    coordinator at once. *)
Theorem archive_removal_failure_is_tolerated (cfg : Config) (w : World)
    (post_link mega_link p f : string) (n : Z) (e : exn) (s : state) :
  fst (get_mega_file_url w post_link initial) = Ret (Some mega_link) ->
  fst (download_from_mega w mega_link (TEMP_DIR cfg) initial) = Ret (Some (p, f)) ->
  fst (get_chapter_number_from_filename f initial) = Ret (Some n) ->
  w_makedirs w (extract_dir cfg n) = None ->
  w_extract w p (extract_dir cfg n) = None ->
  w_remove w p = Some e ->
  exists pre,
    Forall early pre /\
    let unpacked :=
      pre ++
      [MakeDirs (extract_dir cfg n);
       Log INFO ("Extracting RAR: " +++ p +++ " to " +++ extract_dir cfg n);
       Extract p (extract_dir cfg n);
       Log INFO ("Successfully extracted to: " +++ extract_dir cfg n);
       Remove p false] in
    if is_OSError (exn_kind e) then
      exists rest,
        trace (snd (process_new_chapter cfg w post_link s)) =
          trace s ++ unpacked ++
          [Log ERROR (("Error removing RAR file " +++ p +++ ": ") +++ exn_str e);
           Log INFO ("Converting images in " +++ extract_dir cfg n +++ " to PDF: "
                     +++ pdf_path cfg n);
           ListDir (extract_dir cfg n)] ++ rest
    else
      process_new_chapter cfg w post_link s = (Raise e, add_events s unpacked).
Proof.
  intros H1 H2 H3 Hmk Hex Hrm.
  destruct (pipeline_stages cfg w post_link mega_link p f n H1 H2 H3)
    as (Ht1 & Ht2 & e1 & e2 & e3 & Hr1 & Hr2 & Hr3 & Hearly).
  destruct (extract_rar_run w p (extract_dir cfg n)) as (msg & Hx).
  assert (Hmsg : msg = "Successfully extracted to: " +++ extract_dir cfg n).
  { assert (Hx' : runs_as (extract_rar w p (extract_dir cfg n)) (Ret true)
                    [Log INFO ("Extracting RAR: " +++ p +++ " to " +++ extract_dir cfg n);
                     Extract p (extract_dir cfg n);
                     Log INFO ("Successfully extracted to: " +++ extract_dir cfg n)]).
    { unfold extract_rar, logging. rewrite Hex.
      apply runs_emit_then, runs_try_ret, runs_emit_then, runs_emit_ret. }
    destruct (runs_as_unique _ _ _ _ _ Hx Hx') as [_ Heq]. rewrite Hex in Heq.
    now injection Heq. }
  rewrite Hex in Hx. subst msg.
  eexists. split; [exact Hearly|]. cbv zeta.
  assert (Hguard : is_OSError (exn_kind e) = true ->
            runs_as
              (except_OSError
                 (effect (Remove p) (w_remove w p) ;;
                  logging INFO ("Removed temporary RAR file: " +++ p))
                 ("Error removing RAR file " +++ p +++ ": "))
              (Ret tt)
              [Remove p false;
               Log ERROR (("Error removing RAR file " +++ p +++ ": ") +++ exn_str e)]).
  { intros Hos. unfold except_OSError, effect. rewrite Hrm.
    change [?a; ?b] with ([a] ++ [b]). eapply runs_try_raise.
    - apply runs_bind_raise, runs_emit_raise.
    - rewrite Hos. apply runs_emit. }
  destruct (is_OSError (exn_kind e)) eqn:Hos.
  - specialize (Hguard eq_refl).
    destruct (images_to_pdf_head w (extract_dir cfg n) (pdf_path cfg n) n)
      as (r & tail & Hrun).
    to_the_removal Hr1 Ht1 Hr2 Ht2 Hr3 Hmk Hx.
    rewrite (bind_runs _ _ _ _ _ Hguard). cbv beta. rewrite !add_events_app.
    fold (pdf_path cfg n).
    match goal with
    | |- context [bind (images_to_pdf w (extract_dir cfg n) (pdf_path cfg n) n) ?k ?s0] =>
        destruct (traces_after any_event _ k _ _ Hrun) with (s := s0) as (evs & Ht & _)
    end.
    + intros assembled. traces_all.
    + exists (tail ++ evs). rewrite Ht. cbn [trace add_events].
      unfold assembler_head.
      repeat first [rewrite <- app_assoc | progress cbn [app]]. reflexivity.
  - clear Hguard.
    assert (Hraise : runs_as
              (except_OSError
                 (effect (Remove p) (w_remove w p) ;;
                  logging INFO ("Removed temporary RAR file: " +++ p))
                 ("Error removing RAR file " +++ p +++ ": "))
              (Raise e) [Remove p false]).
    { unfold except_OSError, effect. rewrite Hrm.
      change [?a] with ([a] ++ []). eapply runs_try_raise.
      - apply runs_bind_raise, runs_emit_raise.
      - rewrite Hos. apply runs_raise. }
    to_the_removal Hr1 Ht1 Hr2 Ht2 Hr3 Hmk Hx.
    rewrite (bind_raises _ _ _ _ _ Hraise). rewrite !add_events_app.
    unfold add_events.
    repeat first [rewrite <- app_assoc | progress cbn [app]]. reflexivity.
Qed.


Lemma archive_removal_failure_is_tolerated_witness :
  exists pre rest,
    trace (snd (process_new_chapter sample_cfg world_sticky_archive
                  "https://blog.example/ch-1" initial)) =
      [] ++ (pre ++
       [MakeDirs "/srv/temp_downloads/chapter_1";
        Log INFO "Extracting RAR: /srv/temp_downloads/c1.rar to /srv/temp_downloads/chapter_1";
        Extract "/srv/temp_downloads/c1.rar" "/srv/temp_downloads/chapter_1";
        Log INFO "Successfully extracted to: /srv/temp_downloads/chapter_1";
        Remove "/srv/temp_downloads/c1.rar" false]) ++
      [Log ERROR "Error removing RAR file /srv/temp_downloads/c1.rar: [WinError 32] in use";
       Log INFO "Converting images in /srv/temp_downloads/chapter_1 to PDF: /out/One Piece - 0001.pdf";
       ListDir "/srv/temp_downloads/chapter_1"] ++ rest.
Proof.
  destruct (archive_removal_failure_is_tolerated sample_cfg world_sticky_archive
              "https://blog.example/ch-1" "https://mega.nz/file/abc"
              "/srv/temp_downloads/c1.rar" "c1.rar" 1
              (mk_exn PermissionError "[WinError 32] in use") initial
              eq_refl eq_refl eq_refl eq_refl eq_refl eq_refl) as (pre & _ & H).
  exists pre. exact H.
Defined.

(** X24.  A chapter that failed is tried again.  When the coordinator
    returned [False] for an entry, the watcher leaves the set in memory and
    the file as they were, and the next time the entry is met, still
    recent, its page is fetched again. *)
Theorem failed_chapter_is_retried (cfg : Config) (e : entry) (m1 m2 : meeting)
    (s : state) :
  eligible cfg e m1 s = true ->
  fst (process_new_chapter cfg (world m1) (link e) initial) = Ret false ->
  recent cfg e m2 = true ->
  processed_urls (snd (handle_entry cfg e m1 s)) = processed_urls s /\
  ledger_file (snd (handle_entry cfg e m1 s)) = ledger_file s /\
  exists evs,
    trace (snd (handle_entry cfg e m2 (snd (handle_entry cfg e m1 s))))
      = trace (snd (handle_entry cfg e m1 s)) ++ evs /\
    In (HttpGet (link e)) evs.
Proof.
  intros Hel Hfalse Hrecent2.
  assert (Hkeep : processed_urls (snd (handle_entry cfg e m1 s)) = processed_urls s /\
                  ledger_file (snd (handle_entry cfg e m1 s)) = ledger_file s).
  { remember (handle_entry cfg e m1 s) as out eqn:Hout.
    unfold handle_entry in Hout. pose proof Hel as Hel'.
    unfold eligible, recent, announces in Hel'.
    apply andb_prop in Hel' as [Hel' Hnew]. apply andb_prop in Hel' as [Hrecent Hann].
    destruct (timedelta_hours (MAX_AGE_HOURS cfg)) as [max_age|x]; [|discriminate].
    change (bind (lift (Ret max_age)) ?k s) with (k max_age s) in Hout. cbv beta in Hout.
    apply negb_true_iff in Hrecent, Hnew. rewrite Hrecent, Hann in Hout.
    unfold bind at 1, get_processed at 1 in Hout. rewrite Hnew in Hout.
    unfold bind at 1, logging at 1, emit at 1 in Hout.
    set (s0 := mk_state _ _ _) in Hout.
    destruct (process_new_chapter_verdict cfg (world m1) (link e))
      as [r evs Hr _ _ _ _ _|before path pages mid dir ok after _ _ _ _ _ Hrun].
    - rewrite Hr in Hfalse. simpl in Hfalse. subst r.
      unfold bind at 1 in Hout. rewrite Hr in Hout. subst out. cbn. auto.
    - rewrite Hrun in Hfalse. discriminate. }
  split; [exact (proj1 Hkeep)|]. split; [exact (proj2 Hkeep)|].
  assert (Hel2 : eligible cfg e m2 (snd (handle_entry cfg e m1 s)) = true).
  { unfold eligible in *. rewrite (proj1 Hkeep), Hrecent2.
    apply andb_prop in Hel as [Hel Hnew]. apply andb_prop in Hel as [_ Hann].
    rewrite Hann, Hnew. reflexivity. }
  destruct (handle_entry_events cfg e m2 (snd (handle_entry cfg e m1 s)))
    as (evs & Ht & _ & Hshape).
  rewrite Hel2 in Hshape. destruct Hshape as (tail & ->).
  eexists. split; [exact Ht|]. simpl. auto.
Qed.

Lemma failed_chapter_is_retried_witness :
  processed_urls (snd (handle_entry sample_cfg entry_1502
                         {| now := hours 1; world := world_nested |} initial)) = ∅ /\
  exists evs,
    trace (snd (handle_entry sample_cfg entry_1502
                  {| now := hours 2; world := world_two_pages |}
                  (snd (handle_entry sample_cfg entry_1502
                          {| now := hours 1; world := world_nested |} initial))))
      = trace (snd (handle_entry sample_cfg entry_1502
                      {| now := hours 1; world := world_nested |} initial)) ++ evs /\
    In (HttpGet (link entry_1502)) evs.
Proof.
  destruct (failed_chapter_is_retried sample_cfg entry_1502
              {| now := hours 1; world := world_nested |}
              {| now := hours 2; world := world_two_pages |} initial
              eq_refl eq_refl eq_refl) as (H1 & _ & H3).
  split; [exact H1|exact H3].
Defined.

Ltac inner_all :=
  repeat (cbv zeta;
          lazymatch goal with
          | |- traces _ (load_images _ _ _) =>
              apply traces_load_images; intros; exact I
          | _ => traces_step
          end).

Lemma inner_extract_rar w rar dest : traces inner (extract_rar w rar dest).
Proof. unfold extract_rar. inner_all. Qed.

Lemma inner_download_from_mega w u dest : traces inner (download_from_mega w u dest).
Proof. unfold download_from_mega. inner_all. Qed.

Lemma inner_get_chapter_number_from_filename f :
  traces inner (get_chapter_number_from_filename f).
Proof. unfold get_chapter_number_from_filename. inner_all. Qed.

Lemma inner_images_to_pdf w folder out n : traces inner (images_to_pdf w folder out n).
Proof. unfold images_to_pdf. inner_all. Qed.

Lemma inner_appends (w : World) (post_url : string) (e : event) :
  inner e -> appends_only w post_url e.
Proof. destruct e; simpl; tauto. Qed.

Lemma appends_save_processed_chapter (w : World) (post_url : string) :
  traces (appends_only w post_url) (save_processed_chapter w post_url).
Proof.
  intros s. rewrite save_processed_chapter_run'. eexists. split; [reflexivity|].
  repeat constructor. unfold save_log. destruct (w_append w _); exact I.
Qed.

Lemma appends_process_new_chapter (cfg : Config) (w : World) (post_link : string) :
  traces (appends_only w post_link) (process_new_chapter cfg w post_link).
Proof.
  unfold process_new_chapter.
  repeat (cbv zeta;
          lazymatch goal with
          | |- traces _ (get_mega_file_url _ _) => unfold get_mega_file_url
          | |- traces _ (download_from_mega _ _ _) =>
              apply (traces_impl inner); [apply inner_appends|apply inner_download_from_mega]
          | |- traces _ (get_chapter_number_from_filename _) =>
              apply (traces_impl inner);
              [apply inner_appends|apply inner_get_chapter_number_from_filename]
          | |- traces _ (extract_rar _ _ _) =>
              apply (traces_impl inner); [apply inner_appends|apply inner_extract_rar]
          | |- traces _ (images_to_pdf _ _ _ _) =>
              apply (traces_impl inner); [apply inner_appends|apply inner_images_to_pdf]
          | |- traces _ (save_processed_chapter _ _) => apply appends_save_processed_chapter
          | _ => traces_step
          end).
Qed.

(** Whether the append of a run that returned [True] went through. *)
Lemma recorded_as_answered (cfg : Config) (w : World) (post_link : string) (s : state) :
  fst (process_new_chapter cfg w post_link initial) = Ret true ->
  exists evs,
    process_new_chapter cfg w post_link s =
    (Ret true,
     mk_state (if append_ok w post_link
               then append_text (ledger_file s) (post_link +++ NL)
               else ledger_file s)
              (processed_urls s) (trace s ++ evs)).
Proof.
  intros Htrue.
  destruct (process_new_chapter_verdict cfg w post_link)
    as [r evs Hr Hnt _ _ _ _|before path pages mid dir ok after _ _ _ _ _ Hrun].
  - rewrite Hr in Htrue. simpl in Htrue. congruence.
  - destruct (appends_process_new_chapter cfg w post_link s) as (evs & Ht & HP).
    rewrite Hrun in Ht. cbn [snd trace] in Ht. apply app_inv_head in Ht. subst evs.
    rewrite !Forall_app in HP. destruct HP as (_ & HP).
    inversion HP as [|? ? _ HP']; subst. rewrite Forall_app in HP'.
    destruct HP' as (_ & HP'). rewrite Forall_app in HP'. destruct HP' as (_ & HP').
    inversion HP' as [|? ? Hap _]; subst. destruct Hap as [_ Hok].
    rewrite Hrun, <- Hok. eexists. reflexivity.
Qed.

(** X25.  A record that could not be written still counts for this run.
    When the coordinator returns [True] but the append to the file was
    refused, the file is as it was, and the watcher nevertheless adds the
    link to the set in memory: the chapter is skipped until the watcher is
    started again. *)
Theorem unwritten_record_still_counts (cfg : Config) (e : entry) (m : meeting)
    (x : exn) (s : state) :
  eligible cfg e m s = true ->
  fst (process_new_chapter cfg (world m) (link e) initial) = Ret true ->
  w_append (world m) (link e +++ NL) = Some x ->
  fst (handle_entry cfg e m s) = Ret tt /\
  ledger_file (snd (handle_entry cfg e m s)) = ledger_file s /\
  processed_urls (snd (handle_entry cfg e m s)) = {[ link e ]} ∪ processed_urls s.
Proof.
  intros Hel Htrue Happ.
  remember (handle_entry cfg e m s) as out eqn:Hout.
  unfold handle_entry in Hout. unfold eligible, recent, announces in Hel.
  apply andb_prop in Hel as [Hel Hnew]. apply andb_prop in Hel as [Hrecent Hann].
  destruct (timedelta_hours (MAX_AGE_HOURS cfg)) as [max_age|x']; [|discriminate].
  change (bind (lift (Ret max_age)) ?k s) with (k max_age s) in Hout. cbv beta in Hout.
  apply negb_true_iff in Hrecent, Hnew. rewrite Hrecent, Hann in Hout.
  unfold bind at 1, get_processed at 1 in Hout. rewrite Hnew in Hout.
  unfold bind at 1, logging at 1, emit at 1 in Hout.
  set (s0 := mk_state _ _ _) in Hout.
  destruct (recorded_as_answered cfg (world m) (link e) s0 Htrue) as (evs & Hrun).
  unfold bind at 1 in Hout. rewrite Hrun in Hout.
  unfold append_ok in Hout. rewrite Happ in Hout.
  unfold bind, get_processed, put_processed in Hout. cbn in Hout. subst out.
  cbn. auto.
Qed.

Lemma unwritten_record_still_counts_witness :
  fst (handle_entry sample_cfg entry_1502 {| now := hours 1; world := world_no_ledger |}
         initial) = Ret tt /\
  ledger_file (snd (handle_entry sample_cfg entry_1502
                      {| now := hours 1; world := world_no_ledger |} initial)) = None /\
  processed_urls (snd (handle_entry sample_cfg entry_1502
                         {| now := hours 1; world := world_no_ledger |} initial))
    = {[ link entry_1502 ]} ∪ ∅.
Proof.
  exact (unwritten_record_still_counts sample_cfg entry_1502
           {| now := hours 1; world := world_no_ledger |}
           (mk_exn PermissionError "[Errno 13] Permission denied") initial
           eq_refl eq_refl eq_refl).
Defined.

(* ===================================================================== *)
(** * [download_file] *)
(* ===================================================================== *)

Lemma write_chunks_spec (n : Net) (cs : list string) :
  forall f size,
    match write_chunks n cs f size with
    | (Ret total, f') =>
        f' = f +++ glue cs /\ Forall (fun c => n_write n c = None) cs /\
        total = size + Z.of_nat (String.length (glue cs))
    | (Raise e, f') =>
        exists written c, n_write n c = Some e /\ In c cs /\ f' = f +++ glue written
    end.
Proof.
  induction cs as [|c r IH]; intros f size; simpl.
  - rewrite append_empty_r. split; [reflexivity|]. split; [constructor|]. simpl. lia.
  - destruct (n_write n c) as [e|] eqn:Hw.
    + exists [], c. simpl. rewrite append_empty_r. auto.
    + specialize (IH (f +++ c) (size + Z.of_nat (String.length c))).
      destruct (write_chunks n r (f +++ c) _) as [[total|e] f'].
      * destruct IH as (-> & Hall & ->). rewrite append_assoc. split; [reflexivity|].
        split; [constructor; assumption|]. rewrite append_length. lia.
      * destruct IH as (written & c' & Hc' & Hin & ->).
        exists (c :: written), c'. simpl. rewrite append_assoc. auto.
Qed.

(** The loop stops at the first write that fails, the chunks before it
    written. *)
Lemma write_chunks_stops (n : Net) (written : list string) (c : string)
    (rest : list string) (e : exn) :
  Forall (fun c => n_write n c = None) written -> n_write n c = Some e ->
  forall f size,
    exists size', write_chunks n (written ++ c :: rest) f size = (Raise e, f +++ glue written)
                  /\ size' = size.
Proof.
  intros Hall Hc. induction Hall as [|x l Hx _ IH]; intros f size; simpl.
  - rewrite Hc, append_empty_r. eauto.
  - rewrite Hx. destruct (IH (f +++ x) (size + Z.of_nat (String.length x))) as (_ & -> & _).
    rewrite append_assoc. eauto.
Qed.

Lemma write_chunks_all (n : Net) (cs : list string) :
  Forall (fun c => n_write n c = None) cs ->
  forall f size, exists total, write_chunks n cs f size = (Ret total, f +++ glue cs).
Proof.
  intros Hall. induction Hall as [|x l Hx _ IH]; intros f size; simpl.
  - rewrite append_empty_r. eauto.
  - rewrite Hx. destruct (IH (f +++ x) (size + Z.of_nat (String.length x))) as (total & ->).
    rewrite append_assoc. eauto.
Qed.

(** Either every write goes through or there is a first one that fails. *)
Lemma first_failing_write (n : Net) (cs : list string) :
  Forall (fun c => n_write n c = None) cs \/
  exists written c rest e,
    cs = written ++ c :: rest /\
    Forall (fun c => n_write n c = None) written /\ n_write n c = Some e.
Proof.
  induction cs as [|x l IH]; [left; constructor|].
  destruct (n_write n x) as [e|] eqn:Hx.
  - right. exists [], x, l, e. repeat split; auto.
  - destruct IH as [Hall|(written & c & rest & e & -> & Hall & Hc)].
    + left. constructor; assumption.
    + right. exists (x :: written), c, rest, e. repeat split; auto.
Qed.

Lemma length_read_announced (r : Response) :
  length_read r ->
  exists total_size,
    match content_length r with
    | Some h => int_or_raise h
    | None => Ret 0
    end = Ret total_size.
Proof.
  unfold length_read, int_or_raise. destruct (content_length r) as [h|]; [|eauto].
  intros (total & ->). eauto.
Qed.

Lemma length_read_dec (r : Response) :
  length_read r \/ exists h, content_length r = Some h /\ PyStr.int h = None.
Proof.
  unfold length_read. destruct (content_length r) as [h|]; [|auto].
  destruct (PyStr.int h) as [total|] eqn:Hh; eauto.
Qed.

Lemma download_file_completes (n : Net) (url destination_path : string) (d : disk)
    (r : Response) :
  completes n url destination_path r ->
  download_file n url destination_path d =
  (Ret true,
   mk_disk (Some (glue (chunks r)))
     ((d_trace d ++ [Log INFO ("Attempting to download from: " +++ url); HttpGet url])
      ++ [Log INFO ("Downloaded: " +++ destination_path)])).
Proof.
  intros (Hget & Hstatus & Hlen & Hopen & Hwrite & Hstream).
  unfold download_file, disk_log. cbn [d_file d_trace].
  rewrite Hget, Hstatus. destruct (length_read_announced r Hlen) as (total & ->).
  rewrite Hopen. destruct (write_chunks_all n (chunks r) Hwrite EmptyString 0) as (size & ->).
  rewrite Hstream. reflexivity.
Qed.

Lemma download_file_fails (n : Net) (url destination_path : string) (d : disk)
    (e : exn) (f : option string) :
  first_error n url destination_path (d_file d) e f ->
  download_file n url destination_path d =
  if is_RequestException (exn_kind e)
  then (Ret false,
        mk_disk f
          ((d_trace d ++ [Log INFO ("Attempting to download from: " +++ url); HttpGet url])
           ++ [Log ERROR ("Error downloading " +++ url +++ ": " +++ exn_str e)]))
  else (Raise e,
        mk_disk f
          (d_trace d ++ [Log INFO ("Attempting to download from: " +++ url); HttpGet url])).
Proof.
  intros H. unfold download_file, disk_log. cbn [d_file d_trace].
  destruct H as [e Hget|r e Hget Hstatus|r h Hget Hstatus Hh Hint|r e Hget Hstatus Hlen Hopen
                 |r written c rest e Hget Hstatus Hlen Hopen Hchunks Hall Hc
                 |r e Hget Hstatus Hlen Hopen Hall Hstream].
  - rewrite Hget. destruct (is_RequestException (exn_kind e)); reflexivity.
  - rewrite Hget, Hstatus. destruct (is_RequestException (exn_kind e)); reflexivity.
  - rewrite Hget, Hstatus, Hh. unfold int_or_raise. rewrite Hint. reflexivity.
  - rewrite Hget, Hstatus. destruct (length_read_announced r Hlen) as (total & ->).
    rewrite Hopen. destruct (is_RequestException (exn_kind e)); reflexivity.
  - rewrite Hget, Hstatus. destruct (length_read_announced r Hlen) as (total & ->).
    rewrite Hopen, Hchunks.
    destruct (write_chunks_stops n written c rest e Hall Hc EmptyString 0) as (_ & -> & _).
    destruct (is_RequestException (exn_kind e)); reflexivity.
  - rewrite Hget, Hstatus. destruct (length_read_announced r Hlen) as (total & ->).
    rewrite Hopen. destruct (write_chunks_all n (chunks r) Hall EmptyString 0) as (size & ->).
    rewrite Hstream. destruct (is_RequestException (exn_kind e)); reflexivity.
Qed.

(** A download completes or has a first stage that fails. *)
Lemma download_file_stages (n : Net) (url destination_path : string) (before : option string) :
  (exists r, completes n url destination_path r) \/
  (exists e f, first_error n url destination_path before e f).
Proof.
  destruct (n_get n url) as [r|e] eqn:Hget.
  2:{ right. exists e, before. now apply error_get. }
  destruct (status_error r) as [e|] eqn:Hstatus.
  { right. exists e, before. now apply (error_status _ _ _ _ r). }
  destruct (length_read_dec r) as [Hlen|(h & Hh & Hint)].
  2:{ right. eexists _, before. now apply (error_length _ _ _ _ r h). }
  destruct (n_open n destination_path) as [e|] eqn:Hopen.
  { right. exists e, before. now apply (error_open _ _ _ _ r). }
  destruct (first_failing_write n (chunks r)) as [Hall|(written & c & rest & e & Hc & Hall & He)].
  - destruct (stream_error r) as [e|] eqn:Hstream.
    + right. exists e, (Some (glue (chunks r))). now apply error_stream.
    + left. exists r. repeat split; assumption.
  - right. exists e, (Some (glue written)).
    now apply (error_write _ _ _ _ r written c rest).
Qed.

(** X26.  [download_file], which nothing calls.  It returns [True] exactly when
    the request, the status, the announced length, the opening of the
    destination, every write and the whole stream went through; the
    destination then holds the chunks of the body in order and the
    download is logged, whatever the announced length was: the two sizes
    it computes are never compared.  Otherwise there is a first stage that
    fails, and its exception decides: a [RequestException] is logged and
    the function returns [False]; any other exception (a length that [int]
    does not read, a file that cannot be opened or written) leaves the
    function, with nothing logged.  Either way the destination holds what
    was written before the failure, or what it held if it was not
    opened. *)
Theorem download_file_outcome (n : Net) (url destination_path : string) (d : disk) :
  let start := d_trace d ++ [Log INFO ("Attempting to download from: " +++ url);
                             HttpGet url] in
  let run := download_file n url destination_path d in
  (forall r, completes n url destination_path r ->
     run = (Ret true,
            mk_disk (Some (glue (chunks r)))
              (start ++ [Log INFO ("Downloaded: " +++ destination_path)]))) /\
  (forall e f, first_error n url destination_path (d_file d) e f ->
     run = if is_RequestException (exn_kind e)
           then (Ret false,
                 mk_disk f (start ++ [Log ERROR ("Error downloading " +++ url +++ ": "
                                                 +++ exn_str e)]))
           else (Raise e, mk_disk f start)) /\
  (fst run = Ret true <-> exists r, completes n url destination_path r) /\
  (fst run = Ret false <->
   exists e f, first_error n url destination_path (d_file d) e f /\
               is_RequestException (exn_kind e) = true) /\
  (forall e, fst run = Raise e <->
     exists f, first_error n url destination_path (d_file d) e f /\
               is_RequestException (exn_kind e) = false).
Proof.
  intros start run.
  assert (H1 : forall r, completes n url destination_path r ->
                 run = (Ret true,
                        mk_disk (Some (glue (chunks r)))
                          (start ++ [Log INFO ("Downloaded: " +++ destination_path)])))
    by apply download_file_completes.
  assert (H2 : forall e f, first_error n url destination_path (d_file d) e f ->
                 run = if is_RequestException (exn_kind e)
                       then (Ret false,
                             mk_disk f (start ++ [Log ERROR ("Error downloading " +++ url
                                                             +++ ": " +++ exn_str e)]))
                       else (Raise e, mk_disk f start))
    by apply download_file_fails.
  split; [exact H1|]. split; [exact H2|].
  destruct (download_file_stages n url destination_path (d_file d))
    as [(r & Hr)|(e & f & He)].
  - rewrite (H1 r Hr). cbn [fst]. split; [|split].
    + split; eauto.
    + split; [discriminate|]. intros (e & f & He & Hk).
      pose proof (H2 e f He) as H. rewrite (H1 r Hr), Hk in H. discriminate.
    + intros e. split; [discriminate|]. intros (f & He & Hk).
      pose proof (H2 e f He) as H. rewrite (H1 r Hr), Hk in H. discriminate.
  - pose proof (H2 e f He) as Hrun. split; [|split].
    + split.
      * intros H. rewrite Hrun in H.
        destruct (is_RequestException (exn_kind e)); discriminate.
      * intros (r & Hr). rewrite (H1 r Hr) in Hrun.
        destruct (is_RequestException (exn_kind e)); discriminate.
    + split.
      * intros H. exists e, f. split; [exact He|]. rewrite Hrun in H.
        destruct (is_RequestException (exn_kind e)); [reflexivity|discriminate].
      * intros (e' & f' & He' & Hk). rewrite (H2 e' f' He'), Hk. reflexivity.
    + intros e'. split.
      * intros H. rewrite Hrun in H.
        destruct (is_RequestException (exn_kind e)) eqn:Hk; [discriminate|].
        injection H as <-. eauto.
      * intros (f' & He' & Hk). rewrite (H2 e' f' He'), Hk. reflexivity.
Qed.

(** X27.  A stream that breaks leaves its beginning behind: after a
    [RequestException] in the middle of the body [download_file] returns
    [False] and the destination holds the chunks received so far; the
    function does not remove it. *)
Theorem broken_stream_leaves_a_partial_file (n : Net) (url destination_path : string)
    (response : Response) (total_size : Z) (e : exn) (d : disk) :
  n_get n url = Ret response ->
  status_error response = None ->
  match content_length response with
  | Some h => PyStr.int h = Some total_size
  | None => total_size = 0
  end ->
  n_open n destination_path = None ->
  Forall (fun c => n_write n c = None) (chunks response) ->
  stream_error response = Some e ->
  is_RequestException (exn_kind e) = true ->
  download_file n url destination_path d =
  (Ret false,
   mk_disk (Some (glue (chunks response)))
     (d_trace d ++
      [Log INFO ("Attempting to download from: " +++ url);
       HttpGet url;
       Log ERROR ("Error downloading " +++ url +++ ": " +++ exn_str e)])).
Proof.
  intros Hget Hstatus Hlen Hopen Hwrite Hstream He.
  unfold download_file, disk_log. cbn [d_file d_trace].
  rewrite Hget, Hstatus.
  assert (Hl : match content_length response with
               | Some h => int_or_raise h
               | None => Ret 0
               end = Ret total_size).
  { destruct (content_length response) as [h|]; [|now subst].
    unfold int_or_raise. now rewrite Hlen. }
  rewrite Hl, Hopen.
  pose proof (write_chunks_spec n (chunks response) EmptyString 0) as Hw.
  destruct (write_chunks n (chunks response) EmptyString 0) as [[size|x] f].
  - destruct Hw as (-> & _ & _). rewrite Hstream, He.
    change (EmptyString +++ ?x) with x. cbn [d_trace d_file].
    rewrite <- !app_assoc. reflexivity.
  - destruct Hw as (written & c & Hc & Hin & _).
    rewrite List.Forall_forall in Hwrite. rewrite (Hwrite c Hin) in Hc. discriminate.
Qed.

Lemma broken_stream_leaves_a_partial_file_witness :
  download_file (net_of (Ret broken_response)) "https://example.org/c1.rar" "/srv/c1.rar"
    (mk_disk None []) =
  (Ret false,
   mk_disk (Some "abc"%string)
     [Log INFO "Attempting to download from: https://example.org/c1.rar";
      HttpGet "https://example.org/c1.rar";
      Log ERROR "Error downloading https://example.org/c1.rar: Connection broken"]).
Proof.
  apply (broken_stream_leaves_a_partial_file (net_of (Ret broken_response))
           "https://example.org/c1.rar" "/srv/c1.rar" broken_response 100
           (mk_exn RequestException "Connection broken") (mk_disk None []));
    try reflexivity.
  repeat constructor.
Defined.

(** The announced length is not checked: three bytes announced as a
    hundred are a download that succeeded. *)
Example download_file_does_not_check_the_size :
  download_file (net_of (Ret short_response)) "https://example.org/c1.rar" "/srv/c1.rar"
    (mk_disk None []) =
  (Ret true,
   mk_disk (Some "abc"%string)
     [Log INFO "Attempting to download from: https://example.org/c1.rar";
      HttpGet "https://example.org/c1.rar";
      Log INFO "Downloaded: /srv/c1.rar"]).
Proof. reflexivity. Qed.
